(** * Strava MCP server: a shallow embedding of [strava.py]

    The file models the [StravaClient] class (token refresh, activity
    queries, pagination, date windows) and the tool functions that the
    server registers, and proves properties of them.

    Modelling conventions.
    - Python values that flow through the client (decoded JSON bodies,
      credentials read from the environment) are values of [pyval].
      A JSON number with a fraction or an exponent is a binary64 float,
      as are the literals NaN, Infinity and -Infinity that the decoder
      also reads.
    - A Python [str] is a Rocq string holding its UTF-8 encoding.
    - A Python exception is a class and a message; for exceptions raised
      by the interpreter or a library (KeyError, TypeError, ...) only the
      class is modelled and the message is left empty.
    - The outside world (the clock, the token endpoint, the REST API, the
      process environment, the local time zone, the iteration order of a
      [set]) is an [Env]: every theorem quantifies over it.  Responses
      may depend on the whole history of earlier events.
    - A method of the client is a state-and-exception computation over
      the client object and the chronological trace of outside events.
      Transport failures of [requests] (no response at all) are outside
      the model. *)

From Stdlib Require Import ZArith QArith List String Ascii Bool Lia.
From Stdlib Require Import Permutation DecimalString SpecFloat.
Import ListNotations.

Local Open Scope string_scope.
Local Open Scope list_scope.
Local Open Scope Z_scope.

(* ================================================================== *)
(** ** Python values *)

(** A Python [float]: a signed zero, a signed infinity, not-a-number,
    or a signed mantissa times a power of two.  The JSON decoder yields
    all of them (it reads [NaN], [Infinity] and [-Infinity], and an
    overflowing literal as an infinity). *)
Inductive pyfloat : Type :=
| FZero (neg : bool)
| FInf (neg : bool)
| FNaN
| FFin (neg : bool) (m : positive) (e : Z).

Unset Elimination Schemes.
Inductive pyval : Type :=
| VNone
| VBool (b : bool)
| VInt (n : Z)
| VStr (s : string)
| VList (l : list pyval)
| VDict (d : list (string * pyval))
| VFloat (f : pyfloat).
Set Elimination Schemes.

(** The real number that a float stands for, or an infinity, or
    not-a-number. *)
Inductive xq : Type :=
| XFin (q : Q)
| XPosInf
| XNegInf
| XNaN.

Definition scaled (neg : bool) (m : positive) (e : Z) : Q :=
  let mag :=
    match e with
    | Z0 => inject_Z (Z.pos m)
    | Z.pos p => inject_Z (Z.pos m * Z.pow 2 (Z.pos p))
    | Z.neg p => Qmake (Z.pos m) (Pos.pow 2 p)
    end in
  if neg then Qopp mag else mag.

Definition float_value (f : pyfloat) : xq :=
  match f with
  | FZero _ => XFin (inject_Z 0)
  | FInf neg => if neg then XNegInf else XPosInf
  | FNaN => XNaN
  | FFin neg m e => XFin (scaled neg m e)
  end.

Definition spec_value (f : spec_float) : xq :=
  match f with
  | S754_zero _ => XFin (inject_Z 0)
  | S754_infinity neg => if neg then XNegInf else XPosInf
  | S754_nan => XNaN
  | S754_finite neg m e => XFin (scaled neg m e)
  end.

Definition to_spec (f : pyfloat) : spec_float :=
  match f with
  | FZero neg => S754_zero neg
  | FInf neg => S754_infinity neg
  | FNaN => S754_nan
  | FFin neg m e => S754_finite neg m e
  end.

(** The binary64 format. *)
Definition float_prec : Z := 53.
Definition float_emax : Z := 1024.

(** [float(k)] for an integer [k], rounded to nearest even. *)
Definition float_of_int (k : Z) : spec_float :=
  binary_normalize float_prec float_emax k 0 false.

(** [x == y] for two numbers, by their values. *)
Definition xq_eqb (x y : xq) : bool :=
  match x, y with
  | XFin p, XFin q => Qeq_bool p q
  | XPosInf, XPosInf => true
  | XNegInf, XNegInf => true
  | _, _ => false
  end.

(** The result of an arithmetic operation: an [int] or a [float]. *)
Inductive pynum : Type :=
| NInt (n : Z)
| NFloat (f : spec_float).

(** Exception classes that the program can raise.  [JSONDecodeError] is
    the one raised by [response.json()]; it derives from [ValueError]. *)
Inductive ExcClass : Type :=
| Exception
| ValueError
| KeyError
| TypeError
| AttributeError
| JSONDecodeError.

Definition ExcClass_eqb (a b : ExcClass) : bool :=
  match a, b with
  | Exception, Exception | ValueError, ValueError | KeyError, KeyError
  | TypeError, TypeError | AttributeError, AttributeError
  | JSONDecodeError, JSONDecodeError => true
  | _, _ => false
  end.

(** [isinstance(e, cls)] for an exception whose exact class is [c]. *)
Definition exc_isinstance (c cls : ExcClass) : bool :=
  match cls with
  | Exception => true
  | ValueError => match c with ValueError | JSONDecodeError => true | _ => false end
  | _ => ExcClass_eqb c cls
  end.

Record PyExc : Type := mkExc { exc_class : ExcClass; exc_msg : string }.

Inductive Result (A : Type) : Type :=
| Ok (a : A)
| Raise (e : PyExc).
Arguments Ok {A} a.
Arguments Raise {A} e.

(** Truth value of a Python object, as tested by [if x:] and [not x]. *)
Definition py_truthy (v : pyval) : bool :=
  match v with
  | VNone => false
  | VBool b => b
  | VInt n => negb (n =? 0)
  | VStr s => negb (String.eqb s "")
  | VList l => match l with [] => false | _ => true end
  | VDict d => match d with [] => false | _ => true end
  | VFloat f => match f with FZero _ => false | _ => true end
  end.

(** [if x:] for an optional integer argument ([None] or an [int]). *)
Definition int_truthy (o : option Z) : bool :=
  match o with
  | None => false
  | Some n => negb (n =? 0)
  end.

(** [if x:] for an optional string argument ([None] or a [str]). *)
Definition str_truthy (o : option string) : bool :=
  match o with
  | None => false
  | Some s => negb (String.eqb s "")
  end.

(** A dict is an association list in which the first binding of a key
    is the live one. *)
Fixpoint dict_lookup (d : list (string * pyval)) (k : string) : option pyval :=
  match d with
  | [] => None
  | (k', v) :: d' => if String.eqb k' k then Some v else dict_lookup d' k
  end.

Definition dict_keys (d : list (string * pyval)) : list string :=
  nodup string_dec (map fst d).

(** [v - k] for an integer constant [k]: an [int] for an [int] or a
    [bool], a [float] for a [float], [TypeError] for anything else. *)
Definition py_sub_int (v : pyval) (k : Z) : Result pynum :=
  match v with
  | VInt n => Ok (NInt (n - k))
  | VBool b => Ok (NInt (Z.b2z b - k))
  | VFloat f =>
      Ok (NFloat (SFsub float_prec float_emax (to_spec f) (float_of_int k)))
  | _ => Raise (mkExc TypeError "")
  end.

(** [t >= th] for the time [t] and a number [th]; a comparison with
    not-a-number is false. *)
Definition time_reaches (t : Q) (th : pynum) : bool :=
  match th with
  | NInt n => Qle_bool (inject_Z n) t
  | NFloat f =>
      match spec_value f with
      | XFin q => Qle_bool q t
      | XNegInf => true
      | XPosInf | XNaN => false
      end
  end.

(** [v[key]] for a string key. *)
Definition py_getitem (v : pyval) (key : string) : Result pyval :=
  match v with
  | VDict d =>
      match dict_lookup d key with
      | Some x => Ok x
      | None => Raise (mkExc KeyError "")
      end
  | _ => Raise (mkExc TypeError "")
  end.

(** [v.get(key)]: only a dict has the method; a missing key gives
    [None]. *)
Definition py_get (v : pyval) (key : string) : Result pyval :=
  match v with
  | VDict d =>
      match dict_lookup d key with
      | Some x => Ok x
      | None => Ok VNone
      end
  | _ => Raise (mkExc AttributeError "")
  end.

Fixpoint chars_of (s : string) : list pyval :=
  match s with
  | EmptyString => []
  | String c s' => VStr (String c EmptyString) :: chars_of s'
  end.

(** The elements produced by iterating over [v]. *)
Definition py_iter (v : pyval) : Result (list pyval) :=
  match v with
  | VList l => Ok l
  | VDict d => Ok (map VStr (dict_keys d))
  | VStr s => Ok (chars_of s)
  | _ => Raise (mkExc TypeError "")
  end.

(** [len(v)]. *)
Definition py_len (v : pyval) : Result Z :=
  match v with
  | VList l => Ok (Z.of_nat (List.length l))
  | VDict d => Ok (Z.of_nat (List.length (dict_keys d)))
  | VStr s => Ok (Z.of_nat (String.length s))
  | _ => Raise (mkExc TypeError "")
  end.

(** [x == t] where [t] is a [str]. *)
Definition py_eq_str (x : pyval) (t : string) : bool :=
  match x with
  | VStr s => String.eqb s t
  | _ => false
  end.

(** Hashable values are the atoms; lists and dicts are not. *)
Definition py_hashable (v : pyval) : bool :=
  match v with
  | VList _ | VDict _ => false
  | _ => true
  end.

(** [x is y or x == y] on hashable values, the test a set applies to
    its keys: numbers are compared by value, so [True == 1 == 1.0] and
    [False == 0 == 0.0]; not-a-number differs from every number, but the
    decoder hands out one object for it, which is itself. *)
Definition py_eq_atom (x y : pyval) : bool :=
  match x, y with
  | VNone, VNone => true
  | VFloat FNaN, VFloat FNaN => true
  | VStr s, VStr t => String.eqb s t
  | VInt n, VInt m => n =? m
  | VBool b, VBool c => Bool.eqb b c
  | VBool b, VInt m => Z.b2z b =? m
  | VInt n, VBool c => n =? Z.b2z c
  | VFloat f, VFloat g => xq_eqb (float_value f) (float_value g)
  | VFloat f, VInt m => xq_eqb (float_value f) (XFin (inject_Z m))
  | VInt n, VFloat g => xq_eqb (XFin (inject_Z n)) (float_value g)
  | VFloat f, VBool c => xq_eqb (float_value f) (XFin (inject_Z (Z.b2z c)))
  | VBool b, VFloat g => xq_eqb (XFin (inject_Z (Z.b2z b))) (float_value g)
  | _, _ => false
  end.

(** Adding to a set keeps the element that is already there. *)
Definition set_add (x : pyval) (s : list pyval) : list pyval :=
  if existsb (py_eq_atom x) s then s else s ++ [x].

(* ================================================================== *)
(** ** The outside world *)

Record Response : Type := mkResponse {
  status_code : Z;
  text : string;
  (** what [response.json()] returns; [None] when the body is not JSON
      and the call raises *)
  json : option pyval
}.

Record PostRequest : Type := mkPost {
  post_url : string;
  post_data : list (string * pyval)
}.

(** A GET request: the URL, the value formatted after ["Bearer "] in the
    Authorization header, and the query parameters in insertion order. *)
Record GetRequest : Type := mkGet {
  get_url : string;
  authorization : pyval;
  params : list (string * Z)
}.

Inductive Event : Type :=
| EvTime (t : Q)
| EvPost (rq : PostRequest) (rs : Response)
| EvGet (rq : GetRequest) (rs : Response).

Record Env : Type := mkEnv {
  (** [time.time()], given the events so far *)
  time_time : list Event -> Q;
  (** [requests.post(url, data=...)] *)
  requests_post : list Event -> PostRequest -> Response;
  (** [requests.get(url, headers=..., params=...)] *)
  requests_get : list Event -> GetRequest -> Response;
  (** [os.getenv(name)] *)
  os_getenv : string -> option string;
  (** offset of local time from UTC, in seconds, at local midnight of
      the given year, month and day *)
  utcoffset : Z -> Z -> Z -> Z;
  (** the order in which a set with the given elements is iterated *)
  set_order : list pyval -> list pyval
}.

(* ================================================================== *)
(** ** The client object and the method monad *)

Record StravaClient : Type := mkClient {
  access_token : pyval;
  refresh_token : pyval;
  client_id : pyval;
  client_secret : pyval;
  token_expires_at : pyval;
  base_url : string
}.

(** [StravaClient.__init__] *)
Definition StravaClient_init (access refresh cid secret : pyval) : StravaClient :=
  {| access_token := access;
     refresh_token := refresh;
     client_id := cid;
     client_secret := secret;
     token_expires_at := VInt 0;
     base_url := "https://www.strava.com/api/v3" |}.

Record St : Type := mkSt {
  self : StravaClient;
  trace : list Event
}.

Definition M (A : Type) : Type := St -> Result A * St.

Definition ret {A} (a : A) : M A := fun s => (Ok a, s).

Definition raise {A} (c : ExcClass) (msg : string) : M A :=
  fun s => (Raise (mkExc c msg), s).

Definition bind {A B} (m : M A) (f : A -> M B) : M B :=
  fun s =>
    match m s with
    | (Ok a, s') => f a s'
    | (Raise e, s') => (Raise e, s')
    end.

Definition lift {A} (r : Result A) : M A := fun s => (r, s).

Notation "x <- m ;; k" := (bind m (fun x => k))
  (at level 61, m at next level, right associativity).
Notation "m ;;; k" := (bind m (fun _ => k))
  (at level 61, right associativity).

Definition get_self : M StravaClient := fun s => (Ok (self s), s).

Definition log_event (e : Event) (s : St) : St :=
  {| self := self s; trace := trace s ++ [e] |}.

Definition set_access_token (v : pyval) : M unit :=
  fun s =>
    let c := self s in
    (Ok tt, {| self := {| access_token := v;
                          refresh_token := refresh_token c;
                          client_id := client_id c;
                          client_secret := client_secret c;
                          token_expires_at := token_expires_at c;
                          base_url := base_url c |};
               trace := trace s |}).

Definition set_refresh_token (v : pyval) : M unit :=
  fun s =>
    let c := self s in
    (Ok tt, {| self := {| access_token := access_token c;
                          refresh_token := v;
                          client_id := client_id c;
                          client_secret := client_secret c;
                          token_expires_at := token_expires_at c;
                          base_url := base_url c |};
               trace := trace s |}).

Definition set_token_expires_at (v : pyval) : M unit :=
  fun s =>
    let c := self s in
    (Ok tt, {| self := {| access_token := access_token c;
                          refresh_token := refresh_token c;
                          client_id := client_id c;
                          client_secret := client_secret c;
                          token_expires_at := v;
                          base_url := base_url c |};
               trace := trace s |}).

Definition response_json (r : Response) : Result pyval :=
  match json r with
  | Some v => Ok v
  | None => Raise (mkExc JSONDecodeError "")
  end.

Section Client.

Variable env : Env.

Definition call_time : M Q :=
  fun s => let t := time_time env (trace s) in (Ok t, log_event (EvTime t) s).

Definition call_post (url : string) (data : list (string * pyval)) : M Response :=
  fun s =>
    let rq := mkPost url data in
    let rs := requests_post env (trace s) rq in
    (Ok rs, log_event (EvPost rq rs) s).

Definition call_get (url : string) (token : pyval) (ps : list (string * Z)) : M Response :=
  fun s =>
    let rq := mkGet url token ps in
    let rs := requests_get env (trace s) rq in
    (Ok rs, log_event (EvGet rq rs) s).

(** [_save_tokens] only writes a log line. *)
Definition _save_tokens : M unit := ret tt.

Definition refresh_url : string := "https://www.strava.com/oauth/token".

Definition refresh_payload (c : StravaClient) : list (string * pyval) :=
  [("client_id", client_id c);
   ("client_secret", client_secret c);
   ("refresh_token", refresh_token c);
   ("grant_type", VStr "refresh_token")].

(** [StravaClient.refresh_access_token_if_needed] *)
Definition refresh_access_token_if_needed : M unit :=
  current_time <- call_time ;;
  c <- get_self ;;
  threshold <- lift (py_sub_int (token_expires_at c) 300) ;;
  if time_reaches current_time threshold then
    response <- call_post refresh_url (refresh_payload c) ;;
    if status_code response =? 200 then
      data <- lift (response_json response) ;;
      a <- lift (py_getitem data "access_token") ;;
      set_access_token a ;;;
      r <- lift (py_getitem data "refresh_token") ;;
      set_refresh_token r ;;;
      e <- lift (py_getitem data "expires_at") ;;
      set_token_expires_at e ;;;
      _save_tokens
    else
      raise Exception ("Failed to refresh token: " ++ text response)%string
  else
    ret tt.

(** The query parameters that [get_activities] builds. *)
Definition activity_params (limit : Z) (before after : option Z) (page : Z)
  : list (string * Z) :=
  [("per_page", limit); ("page", page)]
  ++ (match before with
      | Some b => if int_truthy before then [("before", b)] else []
      | None => []
      end)
  ++ (match after with
      | Some a => if int_truthy after then [("after", a)] else []
      | None => []
      end).

(** [[a for a in activities if a.get("type") == activity_type]] over a
    list of elements. *)
Fixpoint filter_elems (l : list pyval) (activity_type : string) : Result (list pyval) :=
  match l with
  | [] => Ok []
  | a :: l' =>
      match py_get a "type" with
      | Raise e => Raise e
      | Ok t =>
          match filter_elems l' activity_type with
          | Raise e => Raise e
          | Ok rest => Ok (if py_eq_str t activity_type then a :: rest else rest)
          end
      end
  end.

Definition filter_by_type (activities : pyval) (activity_type : string)
  : Result (list pyval) :=
  match py_iter activities with
  | Raise e => Raise e
  | Ok l => filter_elems l activity_type
  end.

(** [StravaClient.get_activities] *)
Definition get_activities (limit : Z) (before after : option Z)
    (activity_type : option string) (page : Z) : M pyval :=
  refresh_access_token_if_needed ;;;
  c <- get_self ;;
  response <- call_get (base_url c ++ "/athlete/activities")%string
                       (access_token c)
                       (activity_params limit before after page) ;;
  if negb (status_code response =? 200) then
    raise Exception ("Failed to fetch activities: " ++ text response)%string
  else
    activities <- lift (response_json response) ;;
    match activity_type with
    | Some t =>
        if str_truthy activity_type then
          filtered <- lift (filter_by_type activities t) ;;
          ret (VList filtered)
        else ret activities
    | None => ret activities
    end.

(** [StravaClient.get_athlete] *)
Definition get_athlete : M pyval :=
  refresh_access_token_if_needed ;;;
  c <- get_self ;;
  response <- call_get (base_url c ++ "/athlete")%string (access_token c) [] ;;
  lift (response_json response).

(** [StravaClient.get_activity_by_id] *)
Definition get_activity_by_id (activity_id : string) : M pyval :=
  refresh_access_token_if_needed ;;;
  c <- get_self ;;
  response <- call_get (base_url c ++ "/activities/" ++ activity_id)%string
                       (access_token c) [] ;;
  if negb (status_code response =? 200) then
    raise Exception ("Failed to fetch activity: " ++ text response)%string
  else
    lift (response_json response).

(* ------------------------------------------------------------------ *)
(** *** Calendar dates

    [datetime.strptime(s, "%Y-%m-%d")] followed by [.timestamp()] and
    [int(...)].  The format accepts four digits for the year, one or two
    for the month and the day (a day may also be a space and a digit),
    and nothing after the day; the date must exist.  A naive datetime is
    read in local time, so the epoch value is the UTC value minus the
    local offset.  The year and the second digit of a day that starts
    with 1 or 2 are matched by [\d] and converted by [int]: there any
    Unicode decimal digit is a digit; everywhere else the format names
    ASCII digits. *)

Definition byte_of (c : ascii) : Z := Z.of_nat (nat_of_ascii c).

Definition is_continuation (b : Z) : bool := (128 <=? b) && (b <=? 191).

(** The code points of a [str] held as UTF-8.  A byte that starts no
    well-formed sequence stands for the lone surrogate U+DC00 plus the
    byte, which is no digit and no separator. *)
Fixpoint code_points (s : string) : list Z :=
  match s with
  | EmptyString => []
  | String c0 s1 =>
      let b0 := byte_of c0 in
      if b0 <? 128 then b0 :: code_points s1
      else
        match s1 with
        | EmptyString => [56320 + b0]
        | String c1 s2 =>
            let b1 := byte_of c1 in
            if (194 <=? b0) && (b0 <=? 223) && is_continuation b1
            then ((b0 - 192) * 64 + (b1 - 128)) :: code_points s2
            else
              match s2 with
              | EmptyString => (56320 + b0) :: code_points s1
              | String c2 s3 =>
                  let b2 := byte_of c2 in
                  let cp3 := (b0 - 224) * 4096 + (b1 - 128) * 64 + (b2 - 128) in
                  if (224 <=? b0) && (b0 <=? 239)
                     && is_continuation b1 && is_continuation b2
                     && (2048 <=? cp3)
                     && negb ((55296 <=? cp3) && (cp3 <=? 57343))
                  then cp3 :: code_points s3
                  else
                    match s3 with
                    | EmptyString => (56320 + b0) :: code_points s1
                    | String c3 s4 =>
                        let b3 := byte_of c3 in
                        let cp4 := (b0 - 240) * 262144 + (b1 - 128) * 4096
                                   + (b2 - 128) * 64 + (b3 - 128) in
                        if (240 <=? b0) && (b0 <=? 244)
                           && is_continuation b1 && is_continuation b2
                           && is_continuation b3
                           && (65536 <=? cp4) && (cp4 <=? 1114111)
                        then cp4 :: code_points s4
                        else (56320 + b0) :: code_points s1
                    end
              end
        end
  end.

(** The code points of the digit zero of every run of ten decimal
    digits (category Nd) of Unicode 14.0; the nine that follow each are
    the digits 1 to 9 of that script. *)
Definition decimal_zeros : list Z :=
  [48; 1632; 1776; 1984; 2406; 2534; 2662; 2790; 2918; 3046; 3174; 3302;
   3430; 3558; 3664; 3792; 3872; 4160; 4240; 6112; 6160; 6470; 6608; 6784;
   6800; 6992; 7088; 7232; 7248; 42528; 43216; 43264; 43472; 43504; 43600;
   44016; 65296; 66720; 68912; 69734; 69872; 69942; 70096; 70384; 70736;
   70864; 71248; 71360; 71472; 71904; 72016; 72784; 73040; 73120; 92768;
   92864; 93008; 120782; 120792; 120802; 120812; 120822; 123200; 123632;
   125264; 130032].

Fixpoint digit_in (zeros : list Z) (cp : Z) : option Z :=
  match zeros with
  | [] => None
  | z :: zeros' =>
      if (z <=? cp) && (cp <=? z + 9) then Some (cp - z) else digit_in zeros' cp
  end.

(** The value of a character matched by [\d], as [int] reads it. *)
Definition digit_of (cp : Z) : option Z := digit_in decimal_zeros cp.

(** The value of a character of the class [[0-9]]. *)
Definition ascii_digit_of (cp : Z) : option Z :=
  if (48 <=? cp) && (cp <=? 57) then Some (cp - 48) else None.

Definition is_leap (y : Z) : bool :=
  (y mod 4 =? 0) && (negb (y mod 100 =? 0) || (y mod 400 =? 0)).

Definition days_in_month (y m : Z) : Z :=
  if m =? 2 then (if is_leap y then 29 else 28)
  else if (m =? 4) || (m =? 6) || (m =? 9) || (m =? 11) then 30
  else 31.

Definition days_before_year (y : Z) : Z :=
  let p := y - 1 in p * 365 + p / 4 - p / 100 + p / 400.

Fixpoint days_before_month_aux (y : Z) (n : nat) : Z :=
  match n with
  | O => 0
  | S k => days_before_month_aux y k + days_in_month y (Z.of_nat (S k))
  end.

Definition days_before_month (y m : Z) : Z :=
  days_before_month_aux y (Z.to_nat (m - 1)).

(** Proleptic Gregorian ordinal, day 1 being 0001-01-01. *)
Definition ymd2ord (y m d : Z) : Z :=
  days_before_year y + days_before_month y m + d.

(** The year: [\d\d\d\d]. *)
Definition parse_year (l : list Z) : option (Z * list Z) :=
  match l with
  | a :: b :: c :: d :: rest =>
      match digit_of a, digit_of b, digit_of c, digit_of d with
      | Some x, Some y, Some z, Some w => Some (x * 1000 + y * 100 + z * 10 + w, rest)
      | _, _, _, _ => None
      end
  | _ => None
  end.

(** The code point of ["-"] is 45, of [" "] 32. *)
Definition expect_dash (l : list Z) : option (list Z) :=
  match l with
  | c :: rest => if c =? 45 then Some rest else None
  | [] => None
  end.

(** Month followed by the dash: [1[0-2]|0[1-9]|[1-9]] then ["-"]. *)
Definition parse_month_dash (l : list Z) : option (Z * list Z) :=
  match l with
  | a :: b :: rest =>
      if b =? 45 then
        match ascii_digit_of a with
        | Some x => if 1 <=? x then Some (x, rest) else None
        | None => None
        end
      else
        match ascii_digit_of a, ascii_digit_of b, expect_dash rest with
        | Some x, Some y, Some rest' =>
            let m := x * 10 + y in
            if (1 <=? m) && (m <=? 12) then Some (m, rest') else None
        | _, _, _ => None
        end
  | _ => None
  end.

(** Day up to the end of the string:
    [3[0-1]|[1-2]\d|0[1-9]|[1-9]| [1-9]]. *)
Definition parse_day_end (l : list Z) : option Z :=
  match l with
  | [a] =>
      match ascii_digit_of a with
      | Some x => if 1 <=? x then Some x else None
      | None => None
      end
  | [a; b] =>
      if a =? 51 then
        (if (b =? 48) || (b =? 49) then Some (30 + (b - 48)) else None)
      else if (a =? 49) || (a =? 50) then
        match digit_of b with
        | Some y => Some ((a - 48) * 10 + y)
        | None => None
        end
      else if (a =? 48) || (a =? 32) then
        match ascii_digit_of b with
        | Some y => if 1 <=? y then Some y else None
        | None => None
        end
      else None
  | _ => None
  end.

(** [datetime.strptime(s, "%Y-%m-%d")]: the year, month and day. *)
Definition strptime_ymd (s : string) : Result (Z * Z * Z) :=
  match parse_year (code_points s) with
  | None => Raise (mkExc ValueError "")
  | Some (y, s1) =>
      match expect_dash s1 with
      | None => Raise (mkExc ValueError "")
      | Some s2 =>
          match parse_month_dash s2 with
          | None => Raise (mkExc ValueError "")
          | Some (m, s3) =>
              match parse_day_end s3 with
              | None => Raise (mkExc ValueError "")
              | Some d =>
                  if (1 <=? y) && (d <=? days_in_month y m)
                  then Ok (y, m, d)
                  else Raise (mkExc ValueError "")
              end
          end
      end
  end.

(** The date 0001-01-01. *)
Definition is_first_day (y m d : Z) : bool :=
  (y =? 1) && (m =? 1) && (d =? 1).

(** Seconds from the epoch to local midnight of the date. *)
Definition local_epoch (y m d : Z) : Z :=
  (ymd2ord y m d - 719163) * 86400 - utcoffset env y m d.

(** [datetime(y, m, d).timestamp()] for a naive datetime, as an
    integer.  The conversion also looks up the local time one day
    earlier; for 0001-01-01 that day lies in year 0 and the call raises
    [ValueError]. *)
Definition datetime_timestamp (y m d : Z) : Result Z :=
  if is_first_day y m d then Raise (mkExc ValueError "")
  else Ok (local_epoch y m d).

(** [int(datetime.strptime(s, "%Y-%m-%d").timestamp())] *)
Definition date_timestamp (s : string) : Result Z :=
  match strptime_ymd s with
  | Raise e => Raise e
  | Ok (y, m, d) => datetime_timestamp y m d
  end.

(** The two lines that open both date-range methods: [after] from the
    start date, [before] from the end date plus one day.  The pair is
    [(after, before)]. *)
Definition date_window (start_date end_date : string) : Result (Z * Z) :=
  match date_timestamp start_date with
  | Raise e => Raise e
  | Ok after =>
      match date_timestamp end_date with
      | Raise e => Raise e
      | Ok b => Ok (after, b + 86400)
      end
  end.

(** [StravaClient.get_activities_by_date_range] *)
Definition get_activities_by_date_range (start_date end_date : string)
    (limit : Z) (activity_type : option string) : M pyval :=
  w <- lift (date_window start_date end_date) ;;
  get_activities limit (Some (snd w)) (Some (fst w)) activity_type 1.

(** One turn of the [while] loop of [get_all_activities_by_date_range]
    and the turns after it: [fuel] is the number of values of [page]
    that still satisfy [page <= max_pages]. *)
Fixpoint all_pages_loop (fuel : nat) (before after : Z)
    (activity_type : option string) (page : Z) (all_activities : list pyval)
  : M (list pyval) :=
  match fuel with
  | O => ret all_activities
  | S fuel' =>
      fetched <- get_activities 100 (Some before) (Some after) None page ;;
      if negb (py_truthy fetched) then ret all_activities
      else
        activities <-
          (match activity_type with
           | Some t =>
               if str_truthy activity_type then
                 filtered <- lift (filter_by_type fetched t) ;;
                 ret (VList filtered)
               else ret fetched
           | None => ret fetched
           end) ;;
        items <- lift (py_iter activities) ;;
        let all_activities' := all_activities ++ items in
        n <- lift (py_len activities) ;;
        if n <? 100 then ret all_activities'
        else all_pages_loop fuel' before after activity_type (page + 1) all_activities'
  end.

(** [StravaClient.get_all_activities_by_date_range] *)
Definition get_all_activities_by_date_range (start_date end_date : string)
    (activity_type : option string) (max_pages : Z) : M (list pyval) :=
  w <- lift (date_window start_date end_date) ;;
  all_pages_loop (Z.to_nat max_pages) (snd w) (fst w) activity_type 1 [].

(** The generator [a.get("type") for a in activities if a.get("type")]
    consumed by [set(...)], element by element. *)
Fixpoint collect_types (l : list pyval) (seen : list pyval) : Result (list pyval) :=
  match l with
  | [] => Ok seen
  | a :: l' =>
      match py_get a "type" with
      | Raise e => Raise e
      | Ok t =>
          if py_truthy t then
            if py_hashable t then collect_types l' (set_add t seen)
            else Raise (mkExc TypeError "")
          else collect_types l' seen
      end
  end.

(** [StravaClient.get_activity_types] *)
Definition get_activity_types : M (list pyval) :=
  activities <- get_activities 200 None None None 1 ;;
  elems <- lift (py_iter activities) ;;
  types <- lift (collect_types elems []) ;;
  ret (set_order env types).

End Client.

(* ================================================================== *)
(** ** The server: the global client and the registered tools *)

(** The module-level variable [strava_client] and the events so far. *)
Record Server : Type := mkServer {
  strava_client : option StravaClient;
  network : list Event
}.

(** The state at import time: [strava_client = None]. *)
Definition server_start : Server :=
  {| strava_client := None; network := [] |}.

Definition not_initialized : PyExc :=
  mkExc ValueError "Strava client not initialized. Check server logs.".

(** The guard [if not strava_client: raise ValueError(...)] followed by
    a method call on the client. *)
Definition with_client {A} (m : M A) (srv : Server) : Result A * Server :=
  match strava_client srv with
  | None => (Raise not_initialized, srv)
  | Some c =>
      let (r, s') := m {| self := c; trace := network srv |} in
      (r, {| strava_client := Some (self s'); network := trace s' |})
  end.

(** [f"{n}"] for an [int]. *)
Definition str_of_int (n : Z) : string :=
  NilZero.string_of_int (Z.to_int n).

Section Tools.

Variable env : Env.

Definition getenv_value (name : string) : pyval :=
  match os_getenv env name with
  | Some s => VStr s
  | None => VNone
  end.

(** [app_lifespan], up to the [yield]. *)
Definition app_lifespan_enter (srv : Server) : Server :=
  {| strava_client :=
       Some (StravaClient_init (getenv_value "STRAVA_ACCESS_TOKEN")
                               (getenv_value "STRAVA_REFRESH_TOKEN")
                               (getenv_value "STRAVA_CLIENT_ID")
                               (getenv_value "STRAVA_CLIENT_SECRET"));
     network := network srv |}.

(** [app_lifespan], the [finally] block. *)
Definition app_lifespan_exit (srv : Server) : Server :=
  {| strava_client := None; network := network srv |}.

(** The tool [test_connection]: the status and the timestamp. *)
Definition test_connection (srv : Server) : Result (string * Q) * Server :=
  let t := time_time env (network srv) in
  (Ok ("connected", t),
   {| strava_client := strava_client srv; network := network srv ++ [EvTime t] |}).

(** The tool [get_recent_activities]. *)
Definition get_recent_activities (limit : Z) : Server -> Result pyval * Server :=
  with_client (get_activities env limit None None None 1).

(** The tool [get_activities_by_date_range]. *)
Definition tool_get_activities_by_date_range (start_date end_date : string)
    (activity_type : option string) : Server -> Result pyval * Server :=
  with_client (get_activities_by_date_range env start_date end_date 100 activity_type).

(** The tool [get_all_activities_in_year]. *)
Definition get_all_activities_in_year (year : Z) (activity_type : option string)
  : Server -> Result (list pyval) * Server :=
  with_client
    (get_all_activities_by_date_range env
       (str_of_int year ++ "-01-01")%string
       (str_of_int year ++ "-12-31")%string
       activity_type 10).

(** The tool [get_available_activity_types]. *)
Definition get_available_activity_types : Server -> Result (list pyval) * Server :=
  with_client (get_activity_types env).

(** The tool [get_athlete_profile]. *)
Definition get_athlete_profile : Server -> Result pyval * Server :=
  with_client (get_athlete env).

(** The tool [get_activity_details]. *)
Definition get_activity_details (activity_id : string) : Server -> Result pyval * Server :=
  with_client (get_activity_by_id env activity_id).

(** One step of the running process: the lifespan is entered or left,
    or a tool is invoked and returns or raises. *)
Inductive server_step : Server -> Server -> Prop :=
| step_enter srv :
    server_step srv (app_lifespan_enter srv)
| step_exit srv :
    server_step srv (app_lifespan_exit srv)
| step_test_connection srv :
    server_step srv (snd (test_connection srv))
| step_recent limit srv :
    server_step srv (snd (get_recent_activities limit srv))
| step_date_range s e ty srv :
    server_step srv (snd (tool_get_activities_by_date_range s e ty srv))
| step_year y ty srv :
    server_step srv (snd (get_all_activities_in_year y ty srv))
| step_types srv :
    server_step srv (snd (get_available_activity_types srv))
| step_profile srv :
    server_step srv (snd (get_athlete_profile srv))
| step_details id srv :
    server_step srv (snd (get_activity_details id srv)).

Inductive reachable : Server -> Prop :=
| reach_start : reachable server_start
| reach_step srv srv' : reachable srv -> server_step srv srv' -> reachable srv'.

End Tools.

(* ================================================================== *)
(** ** Vocabulary for the properties *)

(** The access token [tok] is the one carried by the 200 response [rs]
    of the token endpoint. *)
Definition refreshed_token (rs : Response) (tok : pyval) : Prop :=
  status_code rs = 200 /\
  exists data, json rs = Some data /\ py_getitem data "access_token" = Ok tok.

(** The expiry [x] is the one carried by the response [rs] of the token
    endpoint. *)
Definition refreshed_expiry (rs : Response) (x : pyval) : Prop :=
  exists data, json rs = Some data /\ py_getitem data "expires_at" = Ok x.

Definition is_get (e : Event) : bool :=
  match e with EvGet _ _ => true | _ => false end.

Definition is_post (e : Event) : bool :=
  match e with EvPost _ _ => true | _ => false end.

(** Number of GET requests in a list of events. *)
Definition count_gets (evs : list Event) : nat :=
  List.length (filter is_get evs).

(** Number of POST requests in a list of events. *)
Definition count_posts (evs : list Event) : nat :=
  List.length (filter is_post evs).

(** A computation that neither touches the client nor the outside. *)
Definition stateless {A} (m : M A) : Prop := forall s, snd (m s) = s.

(** The client after a refresh that went through. *)
Definition with_tokens (c : StravaClient) (a r e : pyval) : StravaClient :=
  {| access_token := a;
     refresh_token := r;
     client_id := client_id c;
     client_secret := client_secret c;
     token_expires_at := e;
     base_url := base_url c |}.

(** The calendar day after a date. *)
Definition next_day (y m d : Z) : Z * Z * Z :=
  if d <? days_in_month y m then (y, m, d + 1)
  else if m <? 12 then (y, m + 1, 1)
  else (y + 1, 1, 1).

(** An element of the activity list on which [get_activity_types] does
    not raise: a dict whose ["type"], when present and truthy, is
    hashable. *)
Definition activity_like (a : pyval) : Prop :=
  exists d, a = VDict d /\
    forall t, dict_lookup d "type" = Some t -> py_truthy t = true ->
              py_hashable t = true.

(** The ["page"] parameter of a GET request. *)
Fixpoint param_lookup (ps : list (string * Z)) (k : string) : option Z :=
  match ps with
  | [] => None
  | (k', v) :: ps' => if String.eqb k' k then Some v else param_lookup ps' k
  end.

Definition page_of (rq : GetRequest) : option Z := param_lookup (params rq) "page".

(** The expiry stored in the client is an integer. *)
Definition numeric_expiry (s : St) : Prop :=
  exists e, token_expires_at (self s) = VInt e.

(** State [s'] follows [s] after [n] more GET requests. *)
Definition sends_gets (s s' : St) (n : nat) : Prop :=
  exists evs, trace s' = trace s ++ evs /\ count_gets evs = n.

(** The concatenation of pages as the specification words it: fetch
    page after page, at most [fuel] of them; stop at the first page that
    is empty or shorter than 100; filter each page by type before
    accumulating.  The result and the number of pages fetched. *)
Fixpoint spec_pages (pages : Z -> list pyval) (activity_type : option string)
    (fuel : nat) (page : Z) : Result (list pyval) * nat :=
  match fuel with
  | O => (Ok [], O)
  | S fuel' =>
      let p := pages page in
      match p with
      | [] => (Ok [], 1%nat)
      | _ =>
          let kept :=
            match activity_type with
            | Some t => if str_truthy activity_type then filter_elems p t else Ok p
            | None => Ok p
            end in
          match kept with
          | Raise e => (Raise e, 1%nat)
          | Ok k =>
              if Z.of_nat (List.length p) <? 100 then (Ok k, 1%nat)
              else
                match spec_pages pages activity_type fuel' (page + 1) with
                | (Ok rest, n) => (Ok (k ++ rest), S n)
                | (Raise e, n) => (Raise e, S n)
                end
          end
      end
  end.

(** State [s'] follows [s] after at most [n] more GET requests. *)
Definition sends_at_most (s s' : St) (n : nat) : Prop :=
  exists evs, trace s' = trace s ++ evs /\ (count_gets evs <= n)%nat.

(** The token [tok] was handed out by a 200 answer of the token
    endpoint recorded in [tr]. *)
Definition from_refresh (tr : list Event) (tok : pyval) : Prop :=
  exists rq rs, In (EvPost rq rs) tr /\ refreshed_token rs tok.

(** Every GET of the trace carries a token handed out by an earlier
    refresh. *)
Definition gets_use_refreshed (tr : list Event) : Prop :=
  forall pre rq rs post,
    tr = pre ++ EvGet rq rs :: post -> from_refresh pre (authorization rq).

(** The stored token came from a refresh, or the expiry is still the 0
    set by the constructor. *)
Definition client_inv (tr : list Event) (c : StravaClient) : Prop :=
  token_expires_at c = VInt 0 \/ from_refresh tr (access_token c).

Definition st_inv (s : St) : Prop :=
  gets_use_refreshed (trace s) /\ client_inv (trace s) (self s).

Definition server_inv (srv : Server) : Prop :=
  gets_use_refreshed (network srv) /\
  match strava_client srv with
  | None => True
  | Some c => client_inv (network srv) c
  end.

Definition preserves_inv {A} (m : M A) : Prop :=
  forall s, st_inv s -> st_inv (snd (m s)).

Section Vocabulary.

Variable env : Env.

(** The POST that a refresh sends from state [s], and its response. *)
Definition refresh_request (s : St) : PostRequest :=
  mkPost refresh_url (refresh_payload (self s)).

Definition refresh_response (s : St) : Response :=
  requests_post env (trace s ++ [EvTime (time_time env (trace s))])
                (refresh_request s).

Definition after_time (s : St) : St :=
  log_event (EvTime (time_time env (trace s))) s.

Definition after_post (s : St) : St :=
  log_event (EvPost (refresh_request s) (refresh_response s)) (after_time s).

(** [refresh_access_token_if_needed] is past the margin in state [s]:
    the comparison on line 26 is true. *)
Definition past_margin (s : St) : Prop :=
  exists th, py_sub_int (token_expires_at (self s)) 300 = Ok th /\
             time_reaches (time_time env (trace s)) th = true.

Definition within_margin (s : St) : Prop :=
  exists th, py_sub_int (token_expires_at (self s)) 300 = Ok th /\
             time_reaches (time_time env (trace s)) th = false.

(** Every way in which [refresh_access_token_if_needed] can end. *)
Inductive refresh_outcome (s : St) : Result unit * St -> Prop :=
| ro_fresh :
    within_margin s ->
    refresh_outcome s (Ok tt, after_time s)
| ro_type_error e :
    py_sub_int (token_expires_at (self s)) 300 = Raise e ->
    exc_class e = TypeError ->
    refresh_outcome s (Raise e, after_time s)
| ro_failed e :
    past_margin s ->
    refresh_outcome s (Raise e, after_post s)
| ro_partial e c' :
    past_margin s ->
    refreshed_token (refresh_response s) (access_token c') ->
    token_expires_at c' = token_expires_at (self s) ->
    refresh_outcome s (Raise e, mkSt c' (trace (after_post s)))
| ro_done c' :
    past_margin s ->
    refreshed_token (refresh_response s) (access_token c') ->
    base_url c' = base_url (self s) ->
    refresh_outcome s (Ok tt, mkSt c' (trace (after_post s))).

(** The common skeleton of the three data requests: ensure a fresh
    token, send one GET carrying the stored access token, then treat
    the response. *)
Definition fetch {A} (url : StravaClient -> string) (ps : list (string * Z))
    (treat : Response -> M A) : M A :=
  refresh_access_token_if_needed env ;;;
  c <- get_self ;;
  response <- call_get env (url c) (access_token c) ps ;;
  treat response.

(** What [get_activities] does with the response. *)
Definition treat_activities (activity_type : option string) (response : Response)
  : M pyval :=
  if negb (status_code response =? 200) then
    raise Exception ("Failed to fetch activities: " ++ text response)%string
  else
    activities <- lift (response_json response) ;;
    match activity_type with
    | Some t =>
        if str_truthy activity_type then
          filtered <- lift (filter_by_type activities t) ;;
          ret (VList filtered)
        else ret activities
    | None => ret activities
    end.

(** What [get_activity_by_id] does with the response. *)
Definition treat_activity (response : Response) : M pyval :=
  if negb (status_code response =? 200) then
    raise Exception ("Failed to fetch activity: " ++ text response)%string
  else
    lift (response_json response).

Definition activities_url (c : StravaClient) : string :=
  (base_url c ++ "/athlete/activities")%string.

Definition athlete_url (c : StravaClient) : string :=
  (base_url c ++ "/athlete")%string.

Definition activity_url (activity_id : string) (c : StravaClient) : string :=
  (base_url c ++ "/activities/" ++ activity_id)%string.

(** The GET that a data request sends from state [s1] (the state after
    the token check), and its response. *)
Definition sent_request (url : StravaClient -> string) (ps : list (string * Z))
    (s1 : St) : GetRequest :=
  mkGet (url (self s1)) (access_token (self s1)) ps.

Definition received (url : StravaClient -> string) (ps : list (string * Z))
    (s1 : St) : Response :=
  requests_get env (trace s1) (sent_request url ps s1).

Definition after_get (url : StravaClient -> string) (ps : list (string * Z))
    (s1 : St) : St :=
  log_event (EvGet (sent_request url ps s1) (received url ps s1)) s1.

(** The answer [rs] of the token endpoint lets a refresh go through:
    status 200 and a body that holds the three fields. *)
Definition refresh_granted (rs : Response) : Prop :=
  status_code rs = 200 /\
  exists data a r x,
    json rs = Some data /\
    py_getitem data "access_token" = Ok a /\
    py_getitem data "refresh_token" = Ok r /\
    py_getitem data "expires_at" = Ok x.

(** How a data request [m] run in state [s] is guarded by the token
    check.  Within the margin the clock read is followed by the GET
    alone, carrying the stored token.  Past the margin the clock read
    is followed by the POST to the token endpoint; when that answer
    grants, the GET comes right after it and carries the access token
    of the answer, which is the one the client then stores, together
    with the expiry of the answer, whatever it is; when it does not
    grant, nothing more is sent and the method raises. *)
Definition guarded_request {A} (m : M A) (s : St) : Prop :=
  let T := time_time env (trace s) in
  let prq := refresh_request s in
  let prs := refresh_response s in
  (within_margin s ->
     exists rq rs,
       trace (snd (m s)) = trace s ++ [EvTime T; EvGet rq rs] /\
       authorization rq = access_token (self s)) /\
  (past_margin s ->
     (refresh_granted prs /\
      exists rq rs,
        trace (snd (m s)) = trace s ++ [EvTime T; EvPost prq prs; EvGet rq rs] /\
        refreshed_token prs (authorization rq) /\
        authorization rq = access_token (self (snd (m s))) /\
        refreshed_expiry prs (token_expires_at (self (snd (m s))))) \/
     (~ refresh_granted prs /\
      trace (snd (m s)) = trace s ++ [EvTime T; EvPost prq prs] /\
      exists e, fst (m s) = Raise e)).

(** Every answer of the token endpoint is a 200 with the three fields,
    the expiry being an integer. *)
Definition token_service_healthy : Prop :=
  forall tr rq,
    let rs := requests_post env tr rq in
    status_code rs = 200 /\
    exists data a r x,
      json rs = Some data /\
      py_getitem data "access_token" = Ok a /\
      py_getitem data "refresh_token" = Ok r /\
      py_getitem data "expires_at" = Ok (VInt x).

(** The API answers a request for page [k] with a 200 whose body is the
    list [pages k]. *)
Definition serves_pages (pages : Z -> list pyval) : Prop :=
  forall tr rq k,
    page_of rq = Some k ->
    status_code (requests_get env tr rq) = 200 /\
    json (requests_get env tr rq) = Some (VList (pages k)).

(** The clock never reads a time before the epoch. *)
Definition clock_after_epoch : Prop :=
  forall tr, (0 <= time_time env tr)%Q.

(** A method [m] called on a client that has just been constructed:
    the clock is read, the refresh POST follows at once, and whatever
    GET comes after carries the access token of that refresh. *)
Definition first_call_refreshes {A} (m : M A) : Prop :=
  forall access refresh cid secret tr,
    let s := mkSt (StravaClient_init access refresh cid secret) tr in
    exists rest,
      trace (snd (m s)) =
        trace s ++ EvTime (time_time env tr)
                :: EvPost (refresh_request s) (refresh_response s) :: rest /\
      forall rq rs, In (EvGet rq rs) rest ->
                    refreshed_token (refresh_response s) (authorization rq).

End Vocabulary.

(* ================================================================== *)
(** ** Further vocabulary *)

(** [a.get("type") == t] as a test on an element that may be anything:
    an element without the method counts as not matching. *)
Definition has_type (t : string) (a : pyval) : bool :=
  match py_get a "type" with
  | Ok x => py_eq_str x t
  | Raise _ => false
  end.

Definition is_dict (a : pyval) : Prop := exists d, a = VDict d.

(** A method keeps the property [I] of the state. *)
Definition keeps (I : St -> Prop) {A} (m : M A) : Prop :=
  forall s, I s -> I (snd (m s)).

(** The ["page"] parameters of the GET requests of a list of events, in
    the order in which they were sent. *)
Fixpoint get_pages (evs : list Event) : list (option Z) :=
  match evs with
  | [] => []
  | EvGet rq _ :: evs' => page_of rq :: get_pages evs'
  | _ :: evs' => get_pages evs'
  end.

(** The GET requests of a list of events. *)
Fixpoint get_requests (evs : list Event) : list GetRequest :=
  match evs with
  | [] => []
  | EvGet rq _ :: evs' => rq :: get_requests evs'
  | _ :: evs' => get_requests evs'
  end.

(** The page numbers [page], [page + 1], ..., [n] of them. *)
Definition page_numbers (page : Z) (n : nat) : list Z :=
  map (fun i => page + Z.of_nat i) (seq 0 n).

(** The pages [page], [page + 1], ..., [n] of them, one after the
    other. *)
Definition pages_from (pages : Z -> list pyval) (page : Z) (n : nat) : list pyval :=
  List.concat (map pages (page_numbers page n)).

Definition api_base : string := "https://www.strava.com/api/v3".

(** An event that stays with the provider: a clock read, a POST to the
    token endpoint, or a GET below the API base URL. *)
Definition strava_event (e : Event) : Prop :=
  match e with
  | EvTime _ => True
  | EvPost rq _ => post_url rq = refresh_url
  | EvGet rq _ => exists path, get_url rq = (api_base ++ path)%string
  end.

(** The parts of the client that no method assigns. *)
Definition same_identity (c c' : StravaClient) : Prop :=
  client_id c' = client_id c /\
  client_secret c' = client_secret c /\
  base_url c' = base_url c.

(** The client talks to the provider only, and so did every event. *)
Definition confined (s : St) : Prop :=
  base_url (self s) = api_base /\ Forall strava_event (trace s).

Definition server_confined (srv : Server) : Prop :=
  Forall strava_event (network srv) /\
  match strava_client srv with
  | None => True
  | Some c => base_url c = api_base
  end.

(** The strings built by [get_all_activities_in_year] for [year] parse
    to the first and the last day of that year. *)
Definition year_strings_parse (year : Z) : bool :=
  match strptime_ymd (str_of_int year ++ "-01-01")%string,
        strptime_ymd (str_of_int year ++ "-12-31")%string with
  | Ok (y, m, d), Ok (y', m', d') =>
      (y =? year) && (m =? 1) && (d =? 1) &&
      (y' =? year) && (m' =? 12) && (d' =? 31)
  | _, _ => false
  end.

(** The start string built for [year] is refused by [strptime]. *)
Definition year_string_refused (year : Z) : bool :=
  match strptime_ymd (str_of_int year ++ "-01-01")%string with
  | Ok _ => false
  | Raise e => ExcClass_eqb (exc_class e) ValueError
  end.

(** The URL functions of the three data requests. *)
Definition api_path (url : StravaClient -> string) : Prop :=
  url = activities_url \/ url = athlete_url \/
  exists activity_id, url = activity_url activity_id.

(** A data request [m] run in a state [s1] whose stored tokens are the
    access token [a] and the refresh token [r] with the integer expiry
    [x]: within the margin it reads the clock and sends one GET that
    carries [a]; past the margin the POST that follows the clock read
    goes to the token endpoint with the grant type "refresh_token" and
    the refresh token [r]. *)
Definition reuses_tokens (env : Env) {A} (m : M A) (s1 : St) (a r : pyval) (x : Z)
  : Prop :=
  let T := time_time env (trace s1) in
  ((T < inject_Z (x - 300))%Q ->
     exists rq rs,
       trace (snd (m s1)) = trace s1 ++ [EvTime T; EvGet rq rs] /\
       authorization rq = a) /\
  ((inject_Z (x - 300) <= T)%Q ->
     exists prq prs rest,
       trace (snd (m s1)) = trace s1 ++ EvTime T :: EvPost prq prs :: rest /\
       post_url prq = refresh_url /\
       dict_lookup (post_data prq) "refresh_token" = Some r /\
       dict_lookup (post_data prq) "grant_type" = Some (VStr "refresh_token")).

(** The first date is not after the second. *)
Definition date_le (y m d y' m' d' : Z) : Prop :=
  y < y' \/ (y = y' /\ (m < m' \/ (m = m' /\ d <= d'))).

(** The API answers every request for page [k] with a 200 whose body
    is the list [p]. *)
Definition serves_page (env : Env) (k : Z) (p : list pyval) : Prop :=
  forall tr rq,
    page_of rq = Some k ->
    status_code (requests_get env tr rq) = 200 /\
    json (requests_get env tr rq) = Some (VList p).

(** The API answers every request for page [k] with the given status
    and body. *)
Definition fails_page (env : Env) (k : Z) (status : Z) (body : string) : Prop :=
  forall tr rq,
    page_of rq = Some k ->
    status_code (requests_get env tr rq) = status /\
    text (requests_get env tr rq) = body.

(* ================================================================== *)
(** ** Concrete scenarios *)

(** A world with a fixed clock, one answer of the token endpoint and an
    API that answers by looking at the request only; UTC local time, no
    environment variables, sets iterated in insertion order. *)
Definition simple_world (now : Q) (token_answer : Response)
    (api : GetRequest -> Response) : Env :=
  mkEnv (fun _ => now) (fun _ _ => token_answer) (fun _ rq => api rq)
        (fun _ => None) (fun _ _ _ => 0) (fun l => l).

(** A client as constructed from the environment, and its first state. *)
Definition demo_client : StravaClient :=
  StravaClient_init (VStr "env-access") (VStr "env-refresh")
                    (VStr "id") (VStr "secret").

Definition demo_state : St := mkSt demo_client [].

(** A client whose token is good until second 10000. *)
Definition fresh_client : StravaClient :=
  with_tokens demo_client (VStr "good-access") (VStr "good-refresh") (VInt 10000).

Definition fresh_state : St := mkSt fresh_client [].

Definition token_ok : Response :=
  mkResponse 200 "{...}"
    (Some (VDict [("access_token", VStr "new-access");
                  ("refresh_token", VStr "new-refresh");
                  ("expires_at", VInt 99999)])).

Definition token_denied : Response :=
  mkResponse 400 "bad refresh token" None.

Definition api_unauthorized (status : Z) : GetRequest -> Response :=
  fun _ => mkResponse status "denied"
             (Some (VDict [("message", VStr "Authorization Error")])).

Definition api_empty : GetRequest -> Response :=
  fun _ => mkResponse 200 "[]" (Some (VList [])).

Definition run_activity : pyval := VDict [("id", VInt 1); ("type", VStr "Run")].

Definition ride_activity : pyval := VDict [("id", VInt 2); ("type", VStr "Ride")].

(** An API that serves the given pages. *)
Definition api_pages (pages : Z -> list pyval) : GetRequest -> Response :=
  fun rq =>
    match page_of rq with
    | Some k => mkResponse 200 "[...]" (Some (VList (pages k)))
    | None => mkResponse 200 "[]" (Some (VList []))
    end.

(** Page 1 is full, 99 runs and one ride; page 2 holds 40 more runs. *)
Definition mixed_pages (k : Z) : list pyval :=
  if k =? 1 then repeat run_activity 99 ++ [ride_activity]
  else if k =? 2 then repeat run_activity 40
  else [].

Definition mixed_world : Env := simple_world 0 token_ok (api_pages mixed_pages).

(** Three full pages, then 40 activities. *)
Definition four_pages (k : Z) : list pyval :=
  if k <=? 3 then repeat run_activity 100
  else if k =? 4 then repeat ride_activity 40
  else [].

Definition four_pages_world : Env := simple_world 0 token_ok (api_pages four_pages).

(** The token endpoint refuses; the clock reads second 1000. *)
Definition denied_world : Env := simple_world 1000 token_denied api_empty.

(** The token endpoint grants; the clock reads second 1000. *)
Definition granted_world : Env := simple_world 1000 token_ok api_empty.

(** The API answers every request with the given error status. *)
Definition failing_world (status : Z) : Env :=
  simple_world 0 token_ok (api_unauthorized status).

(** One page with a run, a ride and a run. *)
Definition small_pages (k : Z) : list pyval :=
  if k =? 1 then [run_activity; ride_activity; run_activity] else [].

Definition small_world : Env := simple_world 0 token_ok (api_pages small_pages).

(** A client whose stored expiry is a string. *)
Definition odd_expiry_state : St :=
  mkSt (with_tokens demo_client (VStr "some-access") (VStr "some-refresh")
                    (VStr "tomorrow")) [].

(** Page 1 is served full; any other page fails with status 500. *)
Definition flaky_api : GetRequest -> Response :=
  fun rq =>
    match page_of rq with
    | Some 1 => mkResponse 200 "[...]" (Some (VList (repeat run_activity 100)))
    | _ => mkResponse 500 "server error" None
    end.

Definition flaky_world : Env := simple_world 0 token_ok flaky_api.

(** The token endpoint grants a token that expired at second 5; the
    clock reads second 1000. *)
Definition token_stale : Response :=
  mkResponse 200 "{...}"
    (Some (VDict [("access_token", VStr "stale-access");
                  ("refresh_token", VStr "new-refresh");
                  ("expires_at", VInt 5)])).

Definition stale_world : Env := simple_world 1000 token_stale api_empty.

(** The token endpoint answers 200 with a body that has no
    ["refresh_token"]; the clock reads second 1000. *)
Definition token_partial : Response :=
  mkResponse 200 "{...}"
    (Some (VDict [("access_token", VStr "new-access");
                  ("expires_at", VInt 99999)])).

Definition partial_world : Env := simple_world 1000 token_partial api_empty.

(** Local time of New York, as far as the dates of 2024 go: at
    midnight, four hours behind UTC from March 11 to November 3
    (daylight time began on March 10 and ended on November 3, both at
    2 a.m.), five hours behind on the other days. *)
Definition new_york_offset (y m d : Z) : Z :=
  if (y =? 2024) &&
     (((m =? 3) && (11 <=? d)) || ((4 <=? m) && (m <=? 10)) ||
      ((m =? 11) && (d <=? 3)))
  then -14400 else -18000.

Definition new_york_world : Env :=
  mkEnv (fun _ => 0%Q) (fun _ _ => token_ok) (fun _ rq => api_empty rq)
        (fun _ => None) new_york_offset (fun l => l).

(** A client whose stored expiry is the float 1.7e9, that is
    6640625 * 2^8, and one whose stored expiry is not-a-number. *)
Definition float_expiry_state : St :=
  mkSt (with_tokens demo_client (VStr "some-access") (VStr "some-refresh")
                    (VFloat (FFin false 6640625 8))) [].

Definition nan_expiry_state : St :=
  mkSt (with_tokens demo_client (VStr "some-access") (VStr "some-refresh")
                    (VFloat FNaN)) [].

(** Local time is UTC all year. *)
Definition utc_world : Env := simple_world 0 token_ok api_empty.


(* ================================================================== *)
(** ** Proofs *)

Ltac unfold_m :=
  unfold bind, ret, raise, lift, get_self, call_time, call_post, call_get,
    set_access_token, set_refresh_token, set_token_expires_at, _save_tokens,
    response_json, log_event in *.

Ltac msimpl :=
  cbn -[refresh_url refresh_payload String.append Z.eqb Z.ltb Z.sub Z.add
        Qle_bool inject_Z Z.to_nat Z.of_nat] in *.

Lemma stateless_ret {A} (a : A) : stateless (ret a).
Proof. intros s; reflexivity. Qed.

Lemma stateless_raise {A} c msg : stateless (@raise A c msg).
Proof. intros s; reflexivity. Qed.

Lemma stateless_lift {A} (r : Result A) : stateless (lift r).
Proof. intros s; reflexivity. Qed.

Lemma stateless_bind {A B} (m : M A) (f : A -> M B) :
  stateless m -> (forall a, stateless (f a)) -> stateless (bind m f).
Proof.
  intros Hm Hf s. unfold bind. specialize (Hm s).
  destruct (m s) as [[a|e] s']; simpl in *; subst; [apply Hf | reflexivity].
Qed.

Create HintDb stateless.
#[local] Hint Resolve stateless_ret stateless_raise stateless_lift
  stateless_bind : stateless.

Section Proofs.

Variable env : Env.

(** *** The token refresh *)

Lemma refresh_fresh s e :
  token_expires_at (self s) = VInt e ->
  (time_time env (trace s) < inject_Z (e - 300))%Q ->
  refresh_access_token_if_needed env s = (Ok tt, after_time env s).
Proof.
  intros He Hlt.
  unfold refresh_access_token_if_needed. unfold_m. msimpl.
  rewrite He. msimpl.
  destruct (Qle_bool (inject_Z (e - 300)) (time_time env (trace s))) eqn:Hb.
  - apply Qle_bool_iff in Hb. exfalso. eapply Qlt_not_le; eauto.
  - reflexivity.
Qed.

Lemma refresh_failed s e :
  token_expires_at (self s) = VInt e ->
  (inject_Z (e - 300) <= time_time env (trace s))%Q ->
  status_code (refresh_response env s) <> 200 ->
  refresh_access_token_if_needed env s =
    (Raise (mkExc Exception
              ("Failed to refresh token: " ++ text (refresh_response env s))%string),
     after_post env s).
Proof.
  intros He Hle Hst.
  unfold after_post, after_time, refresh_response, refresh_request in *.
  unfold refresh_access_token_if_needed. unfold_m. msimpl.
  rewrite He. msimpl.
  apply Qle_bool_iff in Hle. rewrite Hle. msimpl.
  apply Z.eqb_neq in Hst. rewrite Hst. reflexivity.
Qed.

Lemma refresh_succeeded s e data a r x :
  token_expires_at (self s) = VInt e ->
  (inject_Z (e - 300) <= time_time env (trace s))%Q ->
  status_code (refresh_response env s) = 200 ->
  json (refresh_response env s) = Some data ->
  py_getitem data "access_token" = Ok a ->
  py_getitem data "refresh_token" = Ok r ->
  py_getitem data "expires_at" = Ok x ->
  refresh_access_token_if_needed env s =
    (Ok tt, {| self := with_tokens (self s) a r x;
               trace := trace (after_post env s) |}).
Proof.
  intros He Hle Hst Hj Ha Hr Hx.
  unfold after_post, after_time, refresh_response, refresh_request in *.
  unfold refresh_access_token_if_needed. unfold_m. msimpl.
  rewrite He. msimpl.
  apply Qle_bool_iff in Hle. rewrite Hle. msimpl.
  rewrite Hst, Hj. msimpl. rewrite Ha. msimpl. rewrite Hr. msimpl.
  rewrite Hx. reflexivity.
Qed.

Lemma refresh_outcomes s :
  refresh_outcome env s (refresh_access_token_if_needed env s).
Proof.
  unfold refresh_access_token_if_needed. unfold_m. msimpl.
  destruct (py_sub_int (token_expires_at (self s)) 300) as [th|e] eqn:Hth.
  2:{ msimpl. apply ro_type_error; [exact Hth|].
      destruct (token_expires_at (self s)); inversion Hth; reflexivity. }
  msimpl.
  destruct (time_reaches (time_time env (trace s)) th) eqn:Hb.
  2:{ apply ro_fresh. now exists th. }
  assert (Hp : past_margin env s) by now exists th.
  msimpl.
  change (requests_post env (trace s ++ [EvTime (time_time env (trace s))])
            {| post_url := refresh_url; post_data := refresh_payload (self s) |})
    with (refresh_response env s).
  change {| post_url := refresh_url; post_data := refresh_payload (self s) |}
    with (refresh_request s).
  destruct (status_code (refresh_response env s) =? 200) eqn:Hst.
  2:{ apply (ro_failed env s _ Hp). }
  apply Z.eqb_eq in Hst.
  destruct (json (refresh_response env s)) as [data|] eqn:Hj.
  2:{ apply (ro_failed env s _ Hp). }
  msimpl.
  destruct (py_getitem data "access_token") as [a|ea] eqn:Ha.
  2:{ apply (ro_failed env s _ Hp). }
  assert (Hr : refreshed_token (refresh_response env s) a).
  { split; [exact Hst|]. exists data. now split. }
  msimpl.
  destruct (py_getitem data "refresh_token") as [r|er] eqn:Hrt; msimpl.
  2:{ now apply (ro_partial env s). }
  destruct (py_getitem data "expires_at") as [x|ex] eqn:Hx; msimpl.
  2:{ now apply (ro_partial env s). }
  now apply (ro_done env s).
Qed.

Lemma past_margin_int s e :
  token_expires_at (self s) = VInt e ->
  past_margin env s <-> (inject_Z (e - 300) <= time_time env (trace s))%Q.
Proof.
  intros He. unfold past_margin. rewrite He. cbn [py_sub_int]. split.
  - intros [th [H1 H2]]. inversion H1; subst. now apply Qle_bool_iff.
  - intros H. exists (NInt (e - 300)). split; [reflexivity|].
    now apply Qle_bool_iff.
Qed.

Lemma within_margin_int s e :
  token_expires_at (self s) = VInt e ->
  within_margin env s <-> (time_time env (trace s) < inject_Z (e - 300))%Q.
Proof.
  intros He. unfold within_margin. rewrite He. cbn [py_sub_int]. split.
  - intros [th [H1 H2]]. inversion H1; subst. cbn [time_reaches] in H2.
    apply Qnot_le_lt. intros H. apply Qle_bool_iff in H. congruence.
  - intros H. exists (NInt (e - 300)). split; [reflexivity|]. cbn [time_reaches].
    destruct (Qle_bool (inject_Z (e - 300)) (time_time env (trace s))) eqn:Hb; auto.
    apply Qle_bool_iff in Hb. exfalso. eapply Qlt_not_le; eauto.
Qed.

(** *** The shape of a data request *)

Lemma get_activities_fetch limit before after ty page :
  get_activities env limit before after ty page =
  fetch env activities_url (activity_params limit before after page)
        (treat_activities ty).
Proof. reflexivity. Qed.

Lemma get_athlete_fetch :
  get_athlete env =
  fetch env athlete_url [] (fun response => lift (response_json response)).
Proof. reflexivity. Qed.

Lemma get_activity_by_id_fetch activity_id :
  get_activity_by_id env activity_id =
  fetch env (activity_url activity_id) [] treat_activity.
Proof. reflexivity. Qed.

Lemma stateless_treat_activities ty response :
  stateless (treat_activities ty response).
Proof.
  unfold treat_activities.
  destruct (negb (status_code response =? 200)); auto with stateless.
  apply stateless_bind; auto with stateless.
  intros a. destruct ty as [t|]; auto with stateless.
  destruct (str_truthy (Some t)); auto with stateless.
Qed.

Lemma stateless_treat_activity response : stateless (treat_activity response).
Proof.
  unfold treat_activity.
  destruct (negb (status_code response =? 200)); auto with stateless.
Qed.

Lemma fetch_unfold {A} url ps (treat : Response -> M A) s :
  (forall r, stateless (treat r)) ->
  fetch env url ps treat s =
  match refresh_access_token_if_needed env s with
  | (Ok _, s1) =>
      (fst (treat (received env url ps s1) (after_get env url ps s1)),
       after_get env url ps s1)
  | (Raise e, s1) => (Raise e, s1)
  end.
Proof.
  intros Hst. unfold fetch, bind at 1.
  destruct (refresh_access_token_if_needed env s) as [[u|e] s1]; [|reflexivity].
  unfold bind, get_self, call_get. cbn [self trace].
  fold (sent_request url ps s1). fold (received env url ps s1).
  fold (after_get env url ps s1).
  rewrite (surjective_pairing (treat _ _)). f_equal. apply Hst.
Qed.

(** Within the margin the token check reads the clock and returns. *)
Lemma refresh_within s :
  within_margin env s ->
  refresh_access_token_if_needed env s = (Ok tt, after_time env s).
Proof.
  intros [th [Hth Hb]].
  unfold refresh_access_token_if_needed. unfold_m. msimpl.
  rewrite Hth. msimpl. now rewrite Hb.
Qed.

(** Past the margin the token check returns exactly when the answer of
    the token endpoint grants. *)
Lemma refresh_past s :
  past_margin env s ->
  (refresh_granted (refresh_response env s) /\
   exists c',
     refresh_access_token_if_needed env s =
       (Ok tt, mkSt c' (trace (after_post env s))) /\
     refreshed_token (refresh_response env s) (access_token c') /\
     refreshed_expiry (refresh_response env s) (token_expires_at c')) \/
  (~ refresh_granted (refresh_response env s) /\
   exists e c',
     refresh_access_token_if_needed env s =
       (Raise e, mkSt c' (trace (after_post env s)))).
Proof.
  intros [th [Hth Hb]].
  unfold after_post, after_time, refresh_response, refresh_request, refresh_granted.
  unfold refresh_access_token_if_needed. unfold_m. msimpl.
  rewrite Hth. msimpl. rewrite Hb. msimpl.
  destruct (status_code _ =? 200) eqn:Hst.
  2:{ right. split; [|eexists _, _; reflexivity].
      apply Z.eqb_neq in Hst. intros [H _]. contradiction. }
  apply Z.eqb_eq in Hst.
  destruct (json _) as [data|] eqn:Hj; msimpl.
  2:{ right. split; [|eexists _, _; reflexivity].
      intros [_ [d [a [r [x [H _]]]]]]. discriminate. }
  destruct (py_getitem data "access_token") as [a|ea] eqn:Ha; msimpl.
  2:{ right. split; [|eexists _, _; reflexivity].
      intros [_ [d [a [r [x [H [H1 _]]]]]]]. congruence. }
  destruct (py_getitem data "refresh_token") as [r|er] eqn:Hr; msimpl.
  2:{ right. split; [|eexists _, _; reflexivity].
      intros [_ [d [a' [r [x [H [_ [H2 _]]]]]]]]. congruence. }
  destruct (py_getitem data "expires_at") as [x|ex] eqn:Hx; msimpl.
  2:{ right. split; [|eexists _, _; reflexivity].
      intros [_ [d [a' [r' [x [H [_ [_ H3]]]]]]]]. congruence. }
  left. split.
  - split; [exact Hst|]. exists data, a, r, x. repeat split; assumption.
  - eexists. split; [reflexivity|]. cbn [access_token token_expires_at].
    split; [|exists data; split; assumption].
    split; [exact Hst|]. exists data. split; assumption.
Qed.

Lemma fetch_guarded {A} url ps (treat : Response -> M A) s :
  (forall r, stateless (treat r)) ->
  guarded_request env (fetch env url ps treat) s.
Proof.
  intros Hst. unfold guarded_request. split.
  - intros Hw. rewrite fetch_unfold by exact Hst.
    rewrite (refresh_within s Hw). cbn [snd].
    exists (sent_request url ps (after_time env s)),
           (received env url ps (after_time env s)).
    split; [|reflexivity].
    unfold after_get, after_time, log_event. cbn [trace self].
    now rewrite <- app_assoc.
  - intros Hp. rewrite fetch_unfold by exact Hst.
    destruct (refresh_past s Hp) as [[Hg [c' [Hr [Htok Hexp]]]]|[Hg [e [c' Hr]]]];
      rewrite Hr; cbn [fst snd].
    + left. split; [exact Hg|].
      set (s1 := {| self := c'; trace := trace (after_post env s) |}).
      exists (sent_request url ps s1), (received env url ps s1).
      split; [|split; [exact Htok | split; [reflexivity | exact Hexp]]].
      unfold after_get, log_event. cbn [trace self].
      unfold s1, after_post, after_time, log_event. cbn [trace self].
      now rewrite <- !app_assoc.
    + right. split; [exact Hg|]. split; [|now exists e].
      cbn [trace]. unfold after_post, after_time, log_event. cbn [trace self].
      now rewrite <- app_assoc.
Qed.

(** C1 (amended). Each of the three data requests ([get_activities],
    [get_athlete], [get_activity_by_id]) reads the clock once, and a
    token refresh is sent right before the request if and only if the
    time read satisfies [T >= token_expires_at - 300].  For [T]
    strictly below, no refresh occurs and the request carries the
    stored token.  Past the margin the request is sent only when the
    refresh is granted, right after it, and carries the access token
    of the refresh answer; the expiry that comes with that token is
    stored as it is, so nothing keeps the token that is sent within its
    own margin. *)
Theorem C1_token_check_guards_request s :
  (forall limit before after ty page,
     guarded_request env (get_activities env limit before after ty page) s) /\
  guarded_request env (get_athlete env) s /\
  (forall activity_id,
     guarded_request env (get_activity_by_id env activity_id) s) /\
  (forall e,
     token_expires_at (self s) = VInt e ->
     (past_margin env s <->
        (inject_Z (e - 300) <= time_time env (trace s))%Q) /\
     (within_margin env s <->
        (time_time env (trace s) < inject_Z (e - 300))%Q)).
Proof.
  split; [|split; [|split]].
  - intros. rewrite get_activities_fetch.
    apply fetch_guarded. apply stateless_treat_activities.
  - rewrite get_athlete_fetch. apply fetch_guarded. auto with stateless.
  - intros. rewrite get_activity_by_id_fetch.
    apply fetch_guarded. apply stateless_treat_activity.
  - intros e He. split; [now apply past_margin_int | now apply within_margin_int].
Qed.

(** *** Errors *)

Lemma fetch_refresh_raises {A} url ps (treat : Response -> M A) s e s1 :
  refresh_access_token_if_needed env s = (Raise e, s1) ->
  fetch env url ps treat s = (Raise e, s1).
Proof.
  intros H. unfold fetch, bind at 1. now rewrite H.
Qed.

(** C3 (amended). When the margin is violated and the token endpoint
    answers with a status other than 200, the refresh raises a plain
    [Exception] whose message is ["Failed to refresh token: "] followed
    by the response body, after a single POST; the three data requests
    surface the same exception and send nothing else.  The class is not
    the [ValueError] of an uninitialised client, but it is the very
    class that a failed data request raises: only the message tells
    the two apart. *)
Theorem C3_refresh_failure_raises_exception s e :
  token_expires_at (self s) = VInt e ->
  (inject_Z (e - 300) <= time_time env (trace s))%Q ->
  status_code (refresh_response env s) <> 200 ->
  let body := text (refresh_response env s) in
  let exn := mkExc Exception ("Failed to refresh token: " ++ body)%string in
  let s' := after_post env s in
  refresh_access_token_if_needed env s = (Raise exn, s') /\
  (forall limit before after ty page,
     get_activities env limit before after ty page s = (Raise exn, s')) /\
  get_athlete env s = (Raise exn, s') /\
  (forall activity_id, get_activity_by_id env activity_id s = (Raise exn, s')) /\
  trace s' = trace s ++ [EvTime (time_time env (trace s));
                         EvPost (refresh_request s) (refresh_response env s)] /\
  self s' = self s /\
  exc_isinstance (exc_class exn) (exc_class not_initialized) = false /\
  (forall rs : Response,
     let fetch_exn :=
       mkExc Exception ("Failed to fetch activities: " ++ text rs)%string in
     exc_class exn = exc_class fetch_exn /\ exc_msg exn <> exc_msg fetch_exn) /\
  (forall rs : Response,
     let fetch_exn :=
       mkExc Exception ("Failed to fetch activity: " ++ text rs)%string in
     exc_class exn = exc_class fetch_exn /\ exc_msg exn <> exc_msg fetch_exn).
Proof.
  intros He Hle Hst body exn s'.
  pose proof (refresh_failed s e He Hle Hst) as Hr.
  fold body in Hr. fold exn in Hr. fold s' in Hr.
  split; [exact Hr|].
  split; [intros; rewrite get_activities_fetch; now apply fetch_refresh_raises|].
  split; [rewrite get_athlete_fetch; now apply fetch_refresh_raises|].
  split; [intros; rewrite get_activity_by_id_fetch; now apply fetch_refresh_raises|].
  split.
  { unfold s', after_post, after_time, log_event. cbn [trace self].
    now rewrite <- app_assoc. }
  split; [reflexivity|].
  split; [reflexivity|].
  split; intros rs fetch_exn; (split; [reflexivity|]);
    intros H; cbn in H; congruence.
Qed.

(** C4 (amended). After the token check has passed, [get_activities]
    and [get_activity_by_id] raise an [Exception] whose message is a
    fixed prefix followed by the upstream body whenever the upstream
    status is not 200; the status code itself is not part of the
    exception. *)
Theorem C4_fetch_failure_raises_exception s s1 :
  refresh_access_token_if_needed env s = (Ok tt, s1) ->
  (forall limit before after ty page,
     let ps := activity_params limit before after page in
     let rs := received env activities_url ps s1 in
     status_code rs <> 200 ->
     get_activities env limit before after ty page s =
       (Raise (mkExc Exception ("Failed to fetch activities: " ++ text rs)%string),
        after_get env activities_url ps s1)) /\
  (forall activity_id,
     let rs := received env (activity_url activity_id) [] s1 in
     status_code rs <> 200 ->
     get_activity_by_id env activity_id s =
       (Raise (mkExc Exception ("Failed to fetch activity: " ++ text rs)%string),
        after_get env (activity_url activity_id) [] s1)).
Proof.
  intros Hr. split.
  - intros limit before after ty page ps rs Hst.
    rewrite get_activities_fetch.
    rewrite fetch_unfold by apply stateless_treat_activities.
    rewrite Hr. fold ps. fold rs.
    unfold treat_activities. apply Z.eqb_neq in Hst. rewrite Hst. reflexivity.
  - intros activity_id rs Hst.
    rewrite get_activity_by_id_fetch.
    rewrite fetch_unfold by apply stateless_treat_activity.
    rewrite Hr. fold rs.
    unfold treat_activity. apply Z.eqb_neq in Hst. rewrite Hst. reflexivity.
Qed.

(** [get_athlete] has no status test: once the token check has passed
    it hands back whatever the body decodes to, also for an error
    status. *)
Lemma get_athlete_ignores_status s s1 :
  refresh_access_token_if_needed env s = (Ok tt, s1) ->
  get_athlete env s =
    (response_json (received env athlete_url [] s1),
     after_get env athlete_url [] s1).
Proof.
  intros Hr. rewrite get_athlete_fetch.
  rewrite fetch_unfold by auto with stateless.
  now rewrite Hr.
Qed.

(** C7 (amended). When a refresh is due, the three token fields are
    assigned one after the other, each from its key of the body.  An
    answer with a status other than 200, a body that is not JSON, or a
    body without ["access_token"] leaves the client as it was.  A 200
    body with ["access_token"] but without ["refresh_token"] replaces
    the access token only; one that lacks only ["expires_at"] replaces
    the access token and the refresh token; in both cases the method
    raises and the expiry is the old one.  A 200 body that holds the
    three keys replaces the three fields and the method returns. *)
Theorem C7_refresh_assigns_fields_in_order s :
  past_margin env s ->
  let out := refresh_access_token_if_needed env s in
  let rs := refresh_response env s in
  let c := self s in
  (status_code rs <> 200 ->
     self (snd out) = c /\
     fst out = Raise (mkExc Exception ("Failed to refresh token: " ++ text rs)%string)) /\
  (status_code rs = 200 -> json rs = None ->
     self (snd out) = c /\ fst out = Raise (mkExc JSONDecodeError "")) /\
  (forall data,
     status_code rs = 200 -> json rs = Some data ->
     (forall ex,
        py_getitem data "access_token" = Raise ex ->
        self (snd out) = c /\ fst out = Raise ex) /\
     (forall a ex,
        py_getitem data "access_token" = Ok a ->
        py_getitem data "refresh_token" = Raise ex ->
        self (snd out) = with_tokens c a (refresh_token c) (token_expires_at c) /\
        fst out = Raise ex) /\
     (forall a r ex,
        py_getitem data "access_token" = Ok a ->
        py_getitem data "refresh_token" = Ok r ->
        py_getitem data "expires_at" = Raise ex ->
        self (snd out) = with_tokens c a r (token_expires_at c) /\
        fst out = Raise ex) /\
     (forall a r x,
        py_getitem data "access_token" = Ok a ->
        py_getitem data "refresh_token" = Ok r ->
        py_getitem data "expires_at" = Ok x ->
        self (snd out) = with_tokens c a r x /\ fst out = Ok tt)).
Proof.
  intros [th [Hth Hb]] out rs c. unfold out, rs, c.
  unfold refresh_response, refresh_request.
  unfold refresh_access_token_if_needed. unfold_m. msimpl.
  rewrite Hth. msimpl. rewrite Hb. msimpl.
  split; [|split].
  - intros Hst. apply Z.eqb_neq in Hst. rewrite Hst. split; reflexivity.
  - intros Hst Hj. rewrite Hst, Hj. split; reflexivity.
  - intros data Hst Hj. rewrite Hst, Hj. rewrite Z.eqb_refl. msimpl.
    split; [|split; [|split]].
    + intros ex Ha. rewrite Ha. split; reflexivity.
    + intros a ex Ha Hr. rewrite Ha. msimpl. rewrite Hr. split; reflexivity.
    + intros a r ex Ha Hr Hx. rewrite Ha. msimpl. rewrite Hr. msimpl.
      rewrite Hx. split; reflexivity.
    + intros a r x Ha Hr Hx. rewrite Ha. msimpl. rewrite Hr. msimpl.
      rewrite Hx. split; reflexivity.
Qed.

(** A 200 answer that lacks ["refresh_token"] leaves the client with the
    new access token and the old refresh token and expiry. *)
Lemma refresh_partial_update s e data a :
  token_expires_at (self s) = VInt e ->
  (inject_Z (e - 300) <= time_time env (trace s))%Q ->
  status_code (refresh_response env s) = 200 ->
  json (refresh_response env s) = Some data ->
  py_getitem data "access_token" = Ok a ->
  py_getitem data "refresh_token" = Raise (mkExc KeyError "") ->
  refresh_access_token_if_needed env s =
    (Raise (mkExc KeyError ""),
     {| self := with_tokens (self s) a (refresh_token (self s)) (VInt e);
        trace := trace (after_post env s) |}).
Proof.
  intros He Hle Hst Hj Ha Hr.
  unfold after_post, after_time, refresh_response, refresh_request in *.
  unfold refresh_access_token_if_needed. unfold_m. msimpl.
  rewrite He. msimpl.
  apply Qle_bool_iff in Hle. rewrite Hle. msimpl.
  rewrite Hst, Hj. msimpl. rewrite Ha. msimpl. rewrite Hr. msimpl.
  unfold with_tokens. rewrite <- He. reflexivity.
Qed.

(** *** Calendar dates *)

Lemma digit_in_range zeros cp x : digit_in zeros cp = Some x -> 0 <= x <= 9.
Proof.
  induction zeros as [|z zeros IH]; cbn; [discriminate|].
  destruct ((z <=? cp) && (cp <=? z + 9)) eqn:H; [|exact IH].
  intros E. inversion E. apply andb_true_iff in H. lia.
Qed.

Lemma digit_of_range cp x : digit_of cp = Some x -> 0 <= x <= 9.
Proof. apply digit_in_range. Qed.

Lemma ascii_digit_of_range cp x : ascii_digit_of cp = Some x -> 0 <= x <= 9.
Proof.
  unfold ascii_digit_of.
  destruct ((48 <=? cp) && (cp <=? 57)) eqn:H; [|discriminate].
  intros E. inversion E. apply andb_true_iff in H. lia.
Qed.

Lemma parse_month_dash_range l m rest :
  parse_month_dash l = Some (m, rest) -> 1 <= m <= 12.
Proof.
  unfold parse_month_dash.
  destruct l as [|a [|b r]]; try discriminate.
  destruct (b =? 45).
  - destruct (ascii_digit_of a) as [x|] eqn:Hx; [|discriminate].
    apply ascii_digit_of_range in Hx.
    destruct (1 <=? x) eqn:H1; [|discriminate].
    intros E. inversion E; subst. lia.
  - destruct (ascii_digit_of a) as [x|]; [|discriminate].
    destruct (ascii_digit_of b) as [y|]; [|discriminate].
    destruct (expect_dash r) as [r'|]; [|discriminate].
    destruct ((1 <=? x * 10 + y) && (x * 10 + y <=? 12)) eqn:H; [|discriminate].
    intros E. inversion E; subst. apply andb_true_iff in H. lia.
Qed.

Lemma parse_day_end_range l d : parse_day_end l = Some d -> 1 <= d.
Proof.
  unfold parse_day_end.
  destruct l as [|a [|b [|c r]]]; try discriminate.
  - destruct (ascii_digit_of a) as [x|]; [|discriminate].
    destruct (1 <=? x) eqn:H; [|discriminate].
    intros E. inversion E; subst. lia.
  - destruct (a =? 51).
    + destruct ((b =? 48) || (b =? 49)) eqn:Hb; [|discriminate].
      apply orb_true_iff in Hb. rewrite !Z.eqb_eq in Hb.
      intros E. assert (E' : 30 + (b - 48) = d) by congruence.
      destruct Hb; lia.
    + destruct ((a =? 49) || (a =? 50)) eqn:Ha.
      * destruct (digit_of b) as [y|] eqn:Hy; [|discriminate].
        apply digit_of_range in Hy.
        apply orb_true_iff in Ha. rewrite !Z.eqb_eq in Ha.
        intros E. assert (E' : (a - 48) * 10 + y = d) by congruence.
        destruct Ha; lia.
      * destruct ((a =? 48) || (a =? 32)); [|discriminate].
        destruct (ascii_digit_of b) as [y|]; [|discriminate].
        destruct (1 <=? y) eqn:H; [|discriminate].
        intros E. inversion E; subst. lia.
Qed.

(** A string accepted by [strptime] denotes an existing date. *)
Lemma strptime_ymd_valid s y m d :
  strptime_ymd s = Ok (y, m, d) ->
  1 <= y /\ 1 <= m <= 12 /\ 1 <= d <= days_in_month y m.
Proof.
  unfold strptime_ymd.
  destruct (parse_year (code_points s)) as [[y0 s1]|]; [|discriminate].
  destruct (expect_dash s1) as [s2|]; [|discriminate].
  destruct (parse_month_dash s2) as [[m0 s3]|] eqn:Hm; [|discriminate].
  destruct (parse_day_end s3) as [d0|] eqn:Hd; [|discriminate].
  destruct ((1 <=? y0) && (d0 <=? days_in_month y0 m0)) eqn:H; [|discriminate].
  intros E. inversion E; subst.
  apply andb_true_iff in H. apply parse_month_dash_range in Hm.
  apply parse_day_end_range in Hd. lia.
Qed.

Lemma days_before_month_succ y m :
  1 <= m ->
  days_before_month y (m + 1) = days_before_month y m + days_in_month y m.
Proof.
  intros Hm. unfold days_before_month.
  replace (m + 1 - 1) with (Z.succ (m - 1)) by lia.
  rewrite Z2Nat.inj_succ by lia.
  cbn [days_before_month_aux]. f_equal. f_equal. lia.
Qed.

Lemma days_before_year_succ y :
  days_before_year (y + 1) =
  days_before_year y + 365 + (if is_leap y then 1 else 0).
Proof.
  unfold days_before_year, is_leap.
  replace (y + 1 - 1) with y by lia.
  destruct (y mod 4 =? 0) eqn:H4; destruct (y mod 100 =? 0) eqn:H100;
    destruct (y mod 400 =? 0) eqn:H400; cbn [andb orb negb];
    rewrite ?Z.eqb_eq, ?Z.eqb_neq in *;
    Z.div_mod_to_equations; lia.
Qed.

Lemma days_before_month_12 y :
  days_before_month y 12 = 334 + (if is_leap y then 1 else 0).
Proof.
  unfold days_before_month.
  change (Z.to_nat (12 - 1)) with 11%nat.
  cbn [days_before_month_aux]. unfold days_in_month.
  cbn -[Z.add is_leap].
  destruct (is_leap y); lia.
Qed.

(** One day later, the ordinal is one more. *)
Lemma ymd2ord_next_day y m d :
  1 <= m <= 12 -> 1 <= d <= days_in_month y m ->
  let '(ny, nm, nd) := next_day y m d in
  ymd2ord ny nm nd = ymd2ord y m d + 1.
Proof.
  intros Hm Hd. unfold next_day.
  destruct (d <? days_in_month y m) eqn:H1.
  - unfold ymd2ord. lia.
  - apply Z.ltb_ge in H1. assert (d = days_in_month y m) by lia. subst d.
    destruct (m <? 12) eqn:H2.
    + unfold ymd2ord. rewrite days_before_month_succ by lia. lia.
    + apply Z.ltb_ge in H2. assert (m = 12) by lia. subst m.
      unfold ymd2ord. rewrite days_before_year_succ, days_before_month_12.
      change (days_before_month (y + 1) 1) with 0.
      change (days_in_month y 12) with 31. lia.
Qed.

Lemma date_window_parsed start_date end_date y m d y' m' d' :
  strptime_ymd start_date = Ok (y, m, d) ->
  strptime_ymd end_date = Ok (y', m', d') ->
  is_first_day y m d = false ->
  is_first_day y' m' d' = false ->
  date_window env start_date end_date =
    Ok (local_epoch env y m d, local_epoch env y' m' d' + 86400).
Proof.
  intros H1 H2 F1 F2. unfold date_window, date_timestamp, datetime_timestamp.
  now rewrite H1, H2, F1, F2.
Qed.

(** When local midnight has the same offset from UTC on the end date
    and on the day after it, [before] is local midnight of the day
    after the end date. *)
Lemma date_window_next_day start_date end_date y m d y' m' d' :
  strptime_ymd start_date = Ok (y, m, d) ->
  strptime_ymd end_date = Ok (y', m', d') ->
  is_first_day y m d = false ->
  is_first_day y' m' d' = false ->
  let '(ny, nm, nd) := next_day y' m' d' in
  utcoffset env ny nm nd = utcoffset env y' m' d' ->
  date_window env start_date end_date =
    Ok (local_epoch env y m d, local_epoch env ny nm nd).
Proof.
  intros H1 H2 F1 F2.
  pose proof (strptime_ymd_valid _ _ _ _ H2) as [_ [Hm Hd]].
  pose proof (ymd2ord_next_day y' m' d' Hm Hd) as Hn.
  destruct (next_day y' m' d') as [[ny nm] nd].
  intros Ho. rewrite (date_window_parsed _ _ _ _ _ _ _ _ H1 H2 F1 F2).
  unfold local_epoch. rewrite Hn, Ho. f_equal. f_equal. lia.
Qed.

Lemma strptime_raises_value_error str e :
  strptime_ymd str = Raise e -> e = mkExc ValueError "".
Proof.
  unfold strptime_ymd.
  destruct (parse_year (code_points str)) as [[y s1]|]; [|intros H; now inversion H].
  destruct (expect_dash s1) as [s2|]; [|intros H; now inversion H].
  destruct (parse_month_dash s2) as [[m s3]|]; [|intros H; now inversion H].
  destruct (parse_day_end s3) as [d|]; [|intros H; now inversion H].
  destruct ((1 <=? y) && (d <=? days_in_month y m));
    [discriminate | intros H; now inversion H].
Qed.

Lemma date_window_raises start_date end_date :
  (exists e, strptime_ymd start_date = Raise e) \/
  (exists e, strptime_ymd end_date = Raise e) ->
  date_window env start_date end_date = Raise (mkExc ValueError "").
Proof.
  unfold date_window, date_timestamp, datetime_timestamp. intros [[e He]|[e He]].
  - rewrite He. now rewrite (strptime_raises_value_error _ _ He).
  - destruct (strptime_ymd start_date) as [[[y m] d]|e'] eqn:Hs.
    + rewrite He. rewrite (strptime_raises_value_error _ _ He).
      now destruct (is_first_day y m d).
    + now rewrite (strptime_raises_value_error _ _ Hs).
Qed.

(** Whatever makes the window fail, the error is a [ValueError]. *)
Lemma date_window_error start_date end_date e :
  date_window env start_date end_date = Raise e -> e = mkExc ValueError "".
Proof.
  unfold date_window, date_timestamp, datetime_timestamp.
  destruct (strptime_ymd start_date) as [[[y m] d]|e1] eqn:H1.
  2:{ intros H. inversion H; subst. now apply strptime_raises_value_error in H1. }
  destruct (is_first_day y m d); [intros H; now inversion H|].
  destruct (strptime_ymd end_date) as [[[y' m'] d']|e2] eqn:H2.
  2:{ intros H. inversion H; subst. now apply strptime_raises_value_error in H2. }
  destruct (is_first_day y' m' d'); [intros H; now inversion H | discriminate].
Qed.

(** The timestamp of 0001-01-01 cannot be taken. *)
Lemma date_window_first_day start_date end_date :
  strptime_ymd start_date = Ok (1, 1, 1) \/ strptime_ymd end_date = Ok (1, 1, 1) ->
  date_window env start_date end_date = Raise (mkExc ValueError "").
Proof.
  intros H.
  destruct (date_window env start_date end_date) as [w|e] eqn:Hw.
  - exfalso. unfold date_window, date_timestamp, datetime_timestamp in Hw.
    destruct H as [H|H].
    + rewrite H in Hw. cbn in Hw. discriminate.
    + destruct (strptime_ymd start_date) as [[[y m] d]|e1]; [|discriminate].
      destruct (is_first_day y m d); [discriminate|].
      rewrite H in Hw. cbn in Hw. discriminate.
  - now rewrite (date_window_error _ _ _ Hw).
Qed.

(** *** The uninitialised client *)

Lemma with_client_none {A} (m : M A) srv :
  strava_client srv = None ->
  with_client m srv = (Raise not_initialized, srv).
Proof.
  intros H. unfold with_client. now rewrite H.
Qed.

(** C8 (amended). While [strava_client] is [None], each of the six
    tools that need the client raises the builtin [ValueError] with the
    message "Strava client not initialized. Check server logs." and
    leaves the server as it was: no clock read, no POST, no GET.  The
    error has no class of its own.  Its class is not the [Exception] of
    the refresh and fetch failures, but it is the class that the
    date-range tool of an initialised server raises for a date that
    [strptime] refuses, again with nothing sent, and a handler for it
    also catches the JSON decode error. *)
Theorem C8_uninitialized_client_raises_value_error srv :
  strava_client srv = None ->
  (forall limit, get_recent_activities env limit srv = (Raise not_initialized, srv)) /\
  (forall s e ty,
     tool_get_activities_by_date_range env s e ty srv = (Raise not_initialized, srv)) /\
  (forall y ty, get_all_activities_in_year env y ty srv = (Raise not_initialized, srv)) /\
  get_available_activity_types env srv = (Raise not_initialized, srv) /\
  get_athlete_profile env srv = (Raise not_initialized, srv) /\
  (forall id, get_activity_details env id srv = (Raise not_initialized, srv)) /\
  exc_class not_initialized = ValueError /\
  exc_msg not_initialized = "Strava client not initialized. Check server logs." /\
  exc_isinstance Exception (exc_class not_initialized) = false /\
  exc_isinstance JSONDecodeError (exc_class not_initialized) = true /\
  (forall c tr start_date end_date ty,
     (exists e, strptime_ymd start_date = Raise e) \/
     (exists e, strptime_ymd end_date = Raise e) ->
     exists e,
       tool_get_activities_by_date_range env start_date end_date ty
         (mkServer (Some c) tr) = (Raise e, mkServer (Some c) tr) /\
       exc_class e = exc_class not_initialized).
Proof.
  intros H.
  repeat (split; [intros; now apply with_client_none|]).
  repeat (split; [reflexivity|]).
  intros c tr start_date end_date ty Hbad.
  exists (mkExc ValueError ""). split; [|reflexivity].
  unfold tool_get_activities_by_date_range, with_client.
  cbn [strava_client network].
  unfold get_activities_by_date_range, bind, lift.
  now rewrite (date_window_raises _ _ Hbad).
Qed.

(** *** Activity types *)

Lemma py_eq_atom_refl x : py_hashable x = true -> py_eq_atom x x = true.
Proof.
  destruct x; cbn; try discriminate; intros _.
  - reflexivity.
  - apply Bool.eqb_reflx.
  - apply Z.eqb_refl.
  - apply String.eqb_refl.
  - destruct f as [neg|neg| |neg m e]; cbn.
    + reflexivity.
    + destruct neg; reflexivity.
    + reflexivity.
    + apply Qeq_bool_iff. reflexivity.
Qed.

Lemma set_add_NoDup x seen :
  py_hashable x = true -> NoDup seen -> NoDup (set_add x seen).
Proof.
  intros Hx Hnd. unfold set_add.
  destruct (existsb (py_eq_atom x) seen) eqn:He; [exact Hnd|].
  apply NoDup_app; [exact Hnd | repeat constructor; intros [] |].
  intros y Hy [Hxy|[]]. subst y.
  assert (existsb (py_eq_atom x) seen = true).
  { apply existsb_exists. exists x. split; [exact Hy | now apply py_eq_atom_refl]. }
  congruence.
Qed.

Lemma set_add_incl x seen y : In y seen -> In y (set_add x seen).
Proof.
  unfold set_add. destruct (existsb (py_eq_atom x) seen); [auto|].
  intros H. apply in_or_app. now left.
Qed.

Lemma set_add_inv x seen y : In y (set_add x seen) -> In y seen \/ y = x.
Proof.
  unfold set_add. destruct (existsb (py_eq_atom x) seen); [auto|].
  intros H. apply in_app_or in H. destruct H as [H|[H|[]]]; auto.
Qed.

Lemma set_add_represents x seen :
  py_hashable x = true ->
  exists y, In y (set_add x seen) /\ py_eq_atom x y = true.
Proof.
  intros Hx. unfold set_add.
  destruct (existsb (py_eq_atom x) seen) eqn:He.
  - apply existsb_exists in He. exact He.
  - exists x. split; [apply in_or_app; right; now left | now apply py_eq_atom_refl].
Qed.

Lemma collect_types_NoDup l : forall seen r,
  collect_types l seen = Ok r -> NoDup seen -> NoDup r.
Proof.
  induction l as [|a l IH]; intros seen r H Hnd; cbn in H.
  - inversion H; subst. exact Hnd.
  - destruct (py_get a "type") as [t|e]; [|discriminate].
    destruct (py_truthy t).
    + destruct (py_hashable t) eqn:Hh; [|discriminate].
      eapply IH; [exact H|]. now apply set_add_NoDup.
    + eapply IH; eauto.
Qed.

Lemma collect_types_keeps l : forall seen r y,
  collect_types l seen = Ok r -> In y seen -> In y r.
Proof.
  induction l as [|a l IH]; intros seen r y H Hy; cbn in H.
  - inversion H; subst. exact Hy.
  - destruct (py_get a "type") as [t|e]; [|discriminate].
    destruct (py_truthy t).
    + destruct (py_hashable t); [|discriminate].
      eapply IH; [exact H|]. now apply set_add_incl.
    + eapply IH; eauto.
Qed.

Lemma collect_types_sound l : forall seen r y,
  collect_types l seen = Ok r -> In y r ->
  In y seen \/ exists a, In a l /\ py_get a "type" = Ok y /\ py_truthy y = true.
Proof.
  induction l as [|a l IH]; intros seen r y H Hy; cbn in H.
  - inversion H; subst. now left.
  - destruct (py_get a "type") as [t|e] eqn:Hg; [|discriminate].
    destruct (py_truthy t) eqn:Ht.
    + destruct (py_hashable t); [|discriminate].
      destruct (IH _ _ _ H Hy) as [Hin|[b [Hb Hrest]]].
      * apply set_add_inv in Hin. destruct Hin as [Hin| ->]; [now left|].
        right. exists a. split; [now left|]. now split.
      * right. exists b. split; [now right | exact Hrest].
    + destruct (IH _ _ _ H Hy) as [Hin|[b [Hb Hrest]]]; [now left|].
      right. exists b. split; [now right | exact Hrest].
Qed.

Lemma collect_types_complete l : forall seen r a t,
  collect_types l seen = Ok r ->
  In a l -> py_get a "type" = Ok t -> py_truthy t = true ->
  exists t', In t' r /\ py_eq_atom t t' = true.
Proof.
  induction l as [|b l IH]; intros seen r a t H Ha Hg Ht; [destruct Ha|].
  cbn in H.
  destruct (py_get b "type") as [tb|e] eqn:Hgb; [|discriminate].
  destruct Ha as [->|Ha].
  - rewrite Hg in Hgb. inversion Hgb; subst tb. rewrite Ht in H.
    destruct (py_hashable t) eqn:Hh; [|discriminate].
    destruct (set_add_represents t seen Hh) as [t' [Hin Heq]].
    exists t'. split; [|exact Heq]. eapply collect_types_keeps; eauto.
  - destruct (py_truthy tb).
    + destruct (py_hashable tb); [|discriminate]. eapply IH; eauto.
    + eapply IH; eauto.
Qed.

Lemma collect_types_total l : forall seen,
  Forall activity_like l -> exists r, collect_types l seen = Ok r.
Proof.
  induction l as [|a l IH]; intros seen Hall; cbn.
  - now exists seen.
  - inversion Hall as [|? ? [d [-> Hd]] Hrest]; subst.
    cbn [py_get].
    destruct (dict_lookup d "type") as [t|] eqn:Hl.
    + destruct (py_truthy t) eqn:Ht.
      * rewrite (Hd t eq_refl Ht). now apply IH.
      * now apply IH.
    + cbn [py_truthy]. now apply IH.
Qed.

(** C9. [get_activity_types] sends one request for the first page of
    200 activities; whenever it returns, no value occurs twice in the
    list it returns, whatever order the set is iterated in.  When the
    page is a list of activity records it does return: every element
    of the result is the ["type"] of an activity of the page, and every
    truthy ["type"] of the page is represented in the result. *)
Theorem C9_activity_types_distinct :
  (forall l, Permutation (set_order env l) l) ->
  (forall s types s',
     get_activity_types env s = (Ok types, s') -> NoDup types) /\
  (forall s s1 acts,
     refresh_access_token_if_needed env s = (Ok tt, s1) ->
     let ps := [("per_page", 200); ("page", 1)] in
     let rs := received env activities_url ps s1 in
     status_code rs = 200 ->
     json rs = Some (VList acts) ->
     Forall activity_like acts ->
     exists types,
       get_activity_types env s = (Ok types, after_get env activities_url ps s1) /\
       NoDup types /\
       (forall t, In t types ->
          exists a, In a acts /\ py_get a "type" = Ok t /\ py_truthy t = true) /\
       (forall a t, In a acts -> py_get a "type" = Ok t -> py_truthy t = true ->
          exists t', In t' types /\ py_eq_atom t t' = true)).
Proof.
  intros Hperm.
  assert (A : forall s types s',
     get_activity_types env s = (Ok types, s') -> NoDup types).
  { intros s types s' H. unfold get_activity_types, bind at 1 in H.
    destruct (get_activities env 200 None None None 1 s) as [[v|e] s1];
      [|discriminate].
    unfold bind, lift, ret in H.
    destruct (py_iter v) as [elems|e]; [|discriminate].
    destruct (collect_types elems []) as [r|e] eqn:Hc; [|discriminate].
    inversion H; subst.
    apply (Permutation_NoDup (l := r)); [symmetry; apply Hperm|].
    eapply collect_types_NoDup; [exact Hc | constructor]. }
  split; [exact A|].
  intros s s1 acts Hr ps rs Hst Hj Hall.
  destruct (collect_types_total acts [] Hall) as [r Hc].
  assert (Hrun : get_activity_types env s =
                 (Ok (set_order env r), after_get env activities_url ps s1)).
  { unfold get_activity_types, bind at 1.
    rewrite get_activities_fetch.
    rewrite fetch_unfold by apply stateless_treat_activities.
    rewrite Hr.
    change (activity_params 200 None None 1) with ps. fold rs.
    unfold treat_activities. rewrite Hst. cbn [Z.eqb Pos.eqb negb].
    unfold response_json. rewrite Hj.
    unfold bind, lift, ret. cbn [fst py_iter]. now rewrite Hc. }
  exists (set_order env r). split; [exact Hrun|].
  split; [eapply A; exact Hrun|]. split.
  - intros t Ht.
    apply (Permutation_in _ (Hperm r)) in Ht.
    destruct (collect_types_sound _ _ _ _ Hc Ht) as [[]|H]. exact H.
  - intros a t Ha Hg Ht.
    destruct (collect_types_complete _ _ _ _ _ Hc Ha Hg Ht) as [t' [Hin Heq]].
    exists t'. split; [|exact Heq].
    apply (Permutation_in _ (Permutation_sym (Hperm r))). exact Hin.
Qed.

(** *** Pagination *)

Lemma count_gets_app a b : count_gets (a ++ b) = (count_gets a + count_gets b)%nat.
Proof. unfold count_gets. now rewrite filter_app, length_app. Qed.

Lemma sends_gets_refl s : sends_gets s s 0.
Proof. exists []. split; [now rewrite app_nil_r | reflexivity]. Qed.

Lemma sends_gets_trans s1 s2 s3 n m :
  sends_gets s1 s2 n -> sends_gets s2 s3 m -> sends_gets s1 s3 (n + m).
Proof.
  intros [e1 [H1 C1]] [e2 [H2 C2]]. exists (e1 ++ e2). split.
  - now rewrite H2, H1, app_assoc.
  - rewrite count_gets_app. lia.
Qed.

(** With a healthy token endpoint the token check always passes, and
    it sends no GET. *)
Lemma healthy_refresh s :
  token_service_healthy env -> numeric_expiry s ->
  exists s1, refresh_access_token_if_needed env s = (Ok tt, s1) /\
             numeric_expiry s1 /\ sends_gets s s1 0.
Proof.
  intros Hh [e He].
  destruct (Qlt_le_dec (time_time env (trace s)) (inject_Z (e - 300))) as [Hlt|Hle].
  - exists (after_time env s). split; [now apply (refresh_fresh s e)|].
    split; [now exists e|].
    exists [EvTime (time_time env (trace s))]. split; reflexivity.
  - destruct (Hh (trace s ++ [EvTime (time_time env (trace s))]) (refresh_request s))
      as [Hst [data [a [r [x [Hj [Ha [Hr Hx]]]]]]]].
    eexists. split.
    + apply (refresh_succeeded s e data a r (VInt x)); assumption.
    + split; [now exists x|].
      exists [EvTime (time_time env (trace s));
              EvPost (refresh_request s) (refresh_response env s)].
      split; [|reflexivity].
      unfold after_post, after_time, log_event. cbn [trace self].
      now rewrite <- app_assoc.
Qed.

Lemma page_of_activity_params limit before after page url tok :
  page_of (mkGet url tok (activity_params limit before after page)) = Some page.
Proof. reflexivity. Qed.

(** One page fetch against an API that serves [pages]. *)
Lemma page_fetch_ok pages s before after page :
  token_service_healthy env -> serves_pages env pages -> numeric_expiry s ->
  exists s',
    get_activities env 100 (Some before) (Some after) None page s =
      (Ok (VList (pages page)), s') /\
    numeric_expiry s' /\ sends_gets s s' 1.
Proof.
  intros Hh Hs Hn.
  destruct (healthy_refresh s Hh Hn) as [s1 [Hr [Hn1 Hg1]]].
  set (ps := activity_params 100 (Some before) (Some after) page).
  exists (after_get env activities_url ps s1).
  destruct (Hs (trace s1) (sent_request activities_url ps s1) page
              (page_of_activity_params _ _ _ _ _ _)) as [Hst Hj].
  split; [|split].
  - rewrite get_activities_fetch.
    rewrite fetch_unfold by apply stateless_treat_activities.
    rewrite Hr. fold ps. unfold treat_activities, received.
    rewrite Hst. cbn [Z.eqb Pos.eqb negb].
    unfold response_json. rewrite Hj. reflexivity.
  - exact Hn1.
  - replace 1%nat with (0 + 1)%nat by reflexivity.
    apply (sends_gets_trans _ _ _ _ _ Hg1).
    eexists. split; [reflexivity|reflexivity].
Qed.

(** Without a type filter the loop computes what the specification
    describes, with as many GET requests as pages fetched. *)
Lemma all_pages_loop_unfiltered pages before after ty :
  token_service_healthy env -> serves_pages env pages ->
  str_truthy ty = false ->
  forall fuel page acc s,
    numeric_expiry s ->
    exists rest n s',
      spec_pages pages ty fuel page = (Ok rest, n) /\
      all_pages_loop env fuel before after ty page acc s = (Ok (acc ++ rest), s') /\
      numeric_expiry s' /\ sends_gets s s' n.
Proof.
  intros Hh Hs Hty.
  assert (Hkeep : forall p : list pyval,
            match ty with
            | Some t => if str_truthy ty then filter_elems p t else Ok p
            | None => Ok p
            end = Ok p).
  { intros p. destruct ty as [t|]; [now rewrite Hty | reflexivity]. }
  induction fuel as [|fuel IH]; intros page acc s Hn.
  - exists [], 0%nat, s. cbn. rewrite app_nil_r.
    repeat split; auto using sends_gets_refl.
  - destruct (page_fetch_ok pages s before after page Hh Hs Hn)
      as [s1 [Hf [Hn1 Hg1]]].
    cbn [all_pages_loop spec_pages]. unfold bind at 1. rewrite Hf.
    destruct (pages page) as [|a0 p0] eqn:Hp.
    + exists [], 1%nat, s1. cbn. rewrite app_nil_r. repeat split; auto.
    + rewrite Hkeep. cbn [py_truthy negb].
      assert (Hact : (match ty with
                      | Some t =>
                          if str_truthy ty
                          then filtered <- lift (filter_by_type (VList (a0 :: p0)) t) ;;
                               ret (VList filtered)
                          else ret (VList (a0 :: p0))
                      | None => ret (VList (a0 :: p0))
                      end) = ret (VList (a0 :: p0))).
      { destruct ty as [t|]; [now rewrite Hty | reflexivity]. }
      rewrite Hact. unfold bind, ret, lift. cbn [py_iter py_len].
      destruct (Z.of_nat (List.length (a0 :: p0)) <? 100) eqn:Hlen.
      * exists (a0 :: p0), 1%nat, s1. repeat split; auto.
      * destruct (IH (page + 1) (acc ++ a0 :: p0) s1 Hn1)
          as [rest [n [s' [Hsp [Hloop [Hn' Hg']]]]]].
        exists ((a0 :: p0) ++ rest), (S n), s'. rewrite Hsp.
        split; [reflexivity|]. split.
        { rewrite Hloop. now rewrite <- app_assoc. }
        split; [exact Hn'|].
        replace (S n) with (1 + n)%nat by reflexivity.
        eapply sends_gets_trans; eauto.
Qed.

(** C6. Against an API whose pages 1, 2 and 3 hold 100 activities and
    whose page 4 holds 40, and with no type filter,
    [get_all_activities_by_date_range] returns the four pages one
    after the other, 340 activities, after exactly four GET requests,
    provided [max_pages] is at least 4. *)
Theorem C6_three_full_pages_then_short pages s start_date end_date ty max_pages :
  token_service_healthy env ->
  serves_pages env pages ->
  numeric_expiry s ->
  (exists w, date_window env start_date end_date = Ok w) ->
  str_truthy ty = false ->
  4 <= max_pages ->
  List.length (pages 1) = 100%nat ->
  List.length (pages 2) = 100%nat ->
  List.length (pages 3) = 100%nat ->
  List.length (pages 4) = 40%nat ->
  exists s',
    get_all_activities_by_date_range env start_date end_date ty max_pages s =
      (Ok (pages 1 ++ pages 2 ++ pages 3 ++ pages 4), s') /\
    List.length (pages 1 ++ pages 2 ++ pages 3 ++ pages 4) = 340%nat /\
    sends_gets s s' 4.
Proof.
  intros Hh Hs Hn [w Hw] Hty Hmax L1 L2 L3 L4.
  unfold get_all_activities_by_date_range, bind at 1, lift. rewrite Hw.
  destruct (all_pages_loop_unfiltered pages (snd w) (fst w) ty Hh Hs Hty
              (Z.to_nat max_pages) 1 [] s Hn)
    as [rest [n [s' [Hsp [Hloop [_ Hg]]]]]].
  assert (Hfuel : exists k, Z.to_nat max_pages = S (S (S (S k)))).
  { exists (Z.to_nat max_pages - 4)%nat. lia. }
  destruct Hfuel as [k Hk]. rewrite Hk in Hsp.
  assert (Hkeep : forall p : list pyval,
            match ty with
            | Some t => if str_truthy ty then filter_elems p t else Ok p
            | None => Ok p
            end = Ok p).
  { intros p. destruct ty as [t|]; [now rewrite Hty | reflexivity]. }
  assert (Hspec : spec_pages pages ty (S (S (S (S k)))) 1 =
                  (Ok (pages 1 ++ pages 2 ++ pages 3 ++ pages 4), 4%nat)).
  { cbn [spec_pages]. change (1 + 1) with 2. change (2 + 1) with 3.
    change (3 + 1) with 4. rewrite !Hkeep, L1, L2, L3, L4.
    destruct (pages 1) as [|a1 p1]; [discriminate|].
    destruct (pages 2) as [|a2 p2]; [discriminate|].
    destruct (pages 3) as [|a3 p3]; [discriminate|].
    destruct (pages 4) as [|a4 p4]; [discriminate|].
    reflexivity. }
  rewrite Hspec in Hsp. inversion Hsp; subst rest n.
  exists s'. split; [exact Hloop|]. split; [|exact Hg].
  rewrite !length_app, L1, L2, L3, L4. reflexivity.
Qed.

Lemma count_gets_snoc_other tr e :
  is_get e = false -> count_gets (tr ++ [e]) = count_gets tr.
Proof.
  intros H. rewrite count_gets_app. unfold count_gets at 2. cbn. rewrite H.
  cbn. lia.
Qed.

Lemma sends_at_most_trans s1 s2 s3 n m :
  sends_at_most s1 s2 n -> sends_at_most s2 s3 m -> sends_at_most s1 s3 (n + m).
Proof.
  intros [e1 [H1 C1]] [e2 [H2 C2]]. exists (e1 ++ e2). split.
  - now rewrite H2, H1, app_assoc.
  - rewrite count_gets_app. lia.
Qed.

Lemma sends_at_most_weaken s1 s2 n m :
  (n <= m)%nat -> sends_at_most s1 s2 n -> sends_at_most s1 s2 m.
Proof. intros Hle [e [H C]]. exists e. split; [exact H | lia]. Qed.

Lemma sends_at_most_refl s n : sends_at_most s s n.
Proof. exists []. split; [now rewrite app_nil_r | cbn; lia]. Qed.

Lemma refresh_sends_no_get s :
  sends_at_most s (snd (refresh_access_token_if_needed env s)) 0.
Proof.
  pose proof (refresh_outcomes s) as Ho.
  inversion Ho; cbn [snd];
    first [ exists [EvTime (time_time env (trace s))]; split; [reflexivity | cbn; lia]
          | exists [EvTime (time_time env (trace s));
                    EvPost (refresh_request s) (refresh_response env s)];
            split; [|cbn; lia];
            unfold after_post, after_time, log_event; cbn [trace self];
            now rewrite <- app_assoc ].
Qed.

Lemma fetch_sends_at_most_one {A} url ps (treat : Response -> M A) s :
  (forall r, stateless (treat r)) ->
  sends_at_most s (snd (fetch env url ps treat s)) 1.
Proof.
  intros Hst. rewrite fetch_unfold by exact Hst.
  pose proof (refresh_sends_no_get s) as Hr.
  destruct (refresh_access_token_if_needed env s) as [[u|e] s1]; cbn [snd] in *.
  - replace 1%nat with (0 + 1)%nat by reflexivity.
    apply (sends_at_most_trans _ _ _ _ _ Hr).
    eexists. split; [reflexivity | cbn; lia].
  - apply (sends_at_most_weaken _ _ 0); [lia | exact Hr].
Qed.

(** Whatever the upstream answers and whatever the filter, the loop
    sends at most [fuel] GET requests. *)
Lemma all_pages_loop_bound before after ty :
  forall fuel page acc s,
    sends_at_most s (snd (all_pages_loop env fuel before after ty page acc s)) fuel.
Proof.
  induction fuel as [|fuel IH]; intros page acc s.
  - cbn. apply sends_at_most_refl.
  - cbn [all_pages_loop]. unfold bind at 1.
    pose proof (fetch_sends_at_most_one activities_url
                  (activity_params 100 (Some before) (Some after) page)
                  (treat_activities None) s
                  (stateless_treat_activities None)) as H1.
    rewrite <- get_activities_fetch in H1.
    destruct (get_activities env 100 (Some before) (Some after) None page s)
      as [[fetched|e] s1]; cbn [snd] in H1.
    2:{ apply (sends_at_most_weaken _ _ 1); [lia | exact H1]. }
    assert (W : sends_at_most s s1 (S fuel))
      by (apply (sends_at_most_weaken _ _ 1); [lia | exact H1]).
    destruct (negb (py_truthy fetched)); [exact W|].
    set (pick := match ty with
                 | Some t =>
                     if str_truthy ty
                     then filtered <- lift (filter_by_type fetched t) ;;
                          ret (VList filtered)
                     else ret fetched
                 | None => ret fetched
                 end).
    assert (Hpick : stateless pick).
    { unfold pick. destruct ty as [t|]; auto with stateless.
      destruct (str_truthy (Some t)); auto with stateless. }
    unfold bind at 1. specialize (Hpick s1).
    destruct (pick s1) as [[activities|e] s2]; cbn [snd] in Hpick; subst s2;
      [|exact W].
    unfold bind, lift, ret.
    destruct (py_iter activities) as [items|e]; [|exact W].
    destruct (py_len activities) as [n|e]; [|exact W].
    destruct (n <? 100); [exact W|].
    replace (S fuel) with (1 + fuel)%nat by reflexivity.
    eapply sends_at_most_trans; [exact H1 | apply IH].
Qed.

(** [get_all_activities_by_date_range] never sends more than
    [max_pages] GET requests. *)
Lemma get_all_activities_bound start_date end_date ty max_pages s :
  sends_at_most s
    (snd (get_all_activities_by_date_range env start_date end_date ty max_pages s))
    (Z.to_nat max_pages).
Proof.
  unfold get_all_activities_by_date_range, bind at 1, lift.
  destruct (date_window env start_date end_date) as [w|e].
  - apply all_pages_loop_bound.
  - apply sends_at_most_refl.
Qed.

(** *** Where the tokens on the requests come from *)

Lemma snoc_split {A} (tr pre post : list A) (e x : A) :
  tr ++ [e] = pre ++ x :: post ->
  (post = [] /\ pre = tr /\ x = e) \/
  (exists post', post = post' ++ [e] /\ tr = pre ++ x :: post').
Proof.
  intros H. destruct (rev post) as [|z rp] eqn:Hrev.
  - assert (post = []) by (apply (f_equal (@rev A)) in Hrev;
                           now rewrite rev_involutive in Hrev).
    subst post. apply app_inj_tail in H. left. intuition.
  - assert (Hp : post = rev rp ++ [z]).
    { apply (f_equal (@rev A)) in Hrev. now rewrite rev_involutive in Hrev. }
    right. exists (rev rp). rewrite Hp in H.
    change (pre ++ x :: rev rp ++ [z]) with (pre ++ (x :: rev rp) ++ [z]) in H.
    rewrite app_assoc in H. apply app_inj_tail in H. destruct H as [H1 H2].
    subst z. split; [exact Hp | exact H1].
Qed.

Lemma from_refresh_app tr evs tok :
  from_refresh tr tok -> from_refresh (tr ++ evs) tok.
Proof.
  intros [rq [rs [Hin Hr]]]. exists rq, rs. split; [|exact Hr].
  apply in_or_app. now left.
Qed.

Lemma from_refresh_post tr rq rs tok :
  refreshed_token rs tok -> from_refresh (tr ++ [EvPost rq rs]) tok.
Proof.
  intros Hr. exists rq, rs. split; [|exact Hr].
  apply in_or_app. right. now left.
Qed.

Lemma gets_use_refreshed_nil : gets_use_refreshed [].
Proof. intros pre rq rs post H. destruct pre; discriminate. Qed.

Lemma gets_use_refreshed_other tr e :
  is_get e = false -> gets_use_refreshed tr -> gets_use_refreshed (tr ++ [e]).
Proof.
  intros He Hg pre rq rs post H.
  apply snoc_split in H. destruct H as [[_ [_ Hx]]|[post' [_ Htr]]].
  - subst e. discriminate.
  - eapply Hg. exact Htr.
Qed.

Lemma gets_use_refreshed_get tr rq rs :
  from_refresh tr (authorization rq) -> gets_use_refreshed tr ->
  gets_use_refreshed (tr ++ [EvGet rq rs]).
Proof.
  intros Hf Hg pre rq' rs' post H.
  apply snoc_split in H. destruct H as [[_ [Hpre Hx]]|[post' [_ Htr]]].
  - inversion Hx; subst. exact Hf.
  - eapply Hg. exact Htr.
Qed.

Lemma st_inv_other s e :
  is_get e = false -> st_inv s -> st_inv (log_event e s).
Proof.
  intros He [Hg Hc]. split; cbn [log_event trace self].
  - now apply gets_use_refreshed_other.
  - destruct Hc as [Hc|Hc]; [now left | right; now apply from_refresh_app].
Qed.

(** The token check keeps the invariant, and when it passes the stored
    token is one handed out by a refresh. *)
Lemma refresh_keeps_inv s :
  clock_after_epoch env -> st_inv s ->
  let out := refresh_access_token_if_needed env s in
  st_inv (snd out) /\
  (fst out = Ok tt -> from_refresh (trace (snd out)) (access_token (self (snd out)))).
Proof.
  intros Hclock Hinv out.
  assert (Ht : st_inv (after_time env s)) by now apply st_inv_other.
  assert (Hp : st_inv (after_post env s)) by now apply st_inv_other.
  pose proof (refresh_outcomes s) as Ho. fold out in Ho.
  inversion Ho as [Hw Heq | ex Hc Hcl Heq | ex Hpm Heq | ex c' Hpm Hr Hx Heq
                  | c' Hpm Hr Hb Heq]; cbn [fst snd].
  - split; [exact Ht|]. intros _.
    destruct Ht as [_ [H0|Hf]]; [|exact Hf]. exfalso.
    destruct Hw as [th [Hth Hb]]. cbn [after_time log_event self] in H0.
    rewrite H0 in Hth. inversion Hth; subst th.
    assert (Hle : (inject_Z (0 - 300) <= time_time env (trace s))%Q).
    { eapply Qle_trans; [|apply Hclock]. unfold Qle; cbn; lia. }
    apply Qle_bool_iff in Hle. change (0 - 300) with (-300) in Hle.
    cbn [time_reaches] in Hb. congruence.
  - split; [exact Ht | discriminate].
  - split; [exact Hp | discriminate].
  - split; [|discriminate]. destruct Hp as [Hg _]. split; [exact Hg|].
    right. cbn [self trace]. unfold after_post, log_event. cbn [trace].
    now apply from_refresh_post.
  - assert (Hf : from_refresh (trace (after_post env s)) (access_token c')).
    { unfold after_post, log_event. cbn [trace]. now apply from_refresh_post. }
    split; [|intros _; exact Hf].
    destruct Hp as [Hg _]. split; [exact Hg|]. right. exact Hf.
Qed.

Lemma preserves_stateless {A} (m : M A) : stateless m -> preserves_inv m.
Proof. intros H s Hs. now rewrite H. Qed.

Lemma preserves_bind {A B} (m : M A) (f : A -> M B) :
  preserves_inv m -> (forall a, preserves_inv (f a)) -> preserves_inv (bind m f).
Proof.
  intros Hm Hf s Hs. unfold bind. specialize (Hm s Hs).
  destruct (m s) as [[a|e] s1]; cbn [snd] in *; [now apply Hf | exact Hm].
Qed.

Lemma preserves_fetch {A} url ps (treat : Response -> M A) :
  clock_after_epoch env ->
  (forall r, stateless (treat r)) ->
  preserves_inv (fetch env url ps treat).
Proof.
  intros Hclock Hst s Hs. rewrite fetch_unfold by exact Hst.
  destruct (refresh_keeps_inv s Hclock Hs) as [Hinv Hok].
  destruct (refresh_access_token_if_needed env s) as [[[]|e] s1];
    cbn [fst snd] in *; [|exact Hinv].
  specialize (Hok eq_refl). destruct Hinv as [Hg Hc].
  unfold after_get, log_event. split; cbn [trace self].
  - apply gets_use_refreshed_get; [exact Hok | exact Hg].
  - right. now apply from_refresh_app.
Qed.

Lemma preserves_get_activities limit before after ty page :
  clock_after_epoch env ->
  preserves_inv (get_activities env limit before after ty page).
Proof.
  intros Hclock. rewrite get_activities_fetch.
  apply preserves_fetch; [exact Hclock | apply stateless_treat_activities].
Qed.

Lemma preserves_get_athlete :
  clock_after_epoch env -> preserves_inv (get_athlete env).
Proof.
  intros Hclock. rewrite get_athlete_fetch.
  apply preserves_fetch; [exact Hclock | auto with stateless].
Qed.

Lemma preserves_get_activity_by_id activity_id :
  clock_after_epoch env -> preserves_inv (get_activity_by_id env activity_id).
Proof.
  intros Hclock. rewrite get_activity_by_id_fetch.
  apply preserves_fetch; [exact Hclock | apply stateless_treat_activity].
Qed.

Lemma preserves_by_date_range start_date end_date limit ty :
  clock_after_epoch env ->
  preserves_inv (get_activities_by_date_range env start_date end_date limit ty).
Proof.
  intros Hclock. unfold get_activities_by_date_range.
  apply preserves_bind; [apply preserves_stateless; auto with stateless|].
  intros w. now apply preserves_get_activities.
Qed.

Lemma preserves_all_pages_loop before after ty :
  clock_after_epoch env ->
  forall fuel page acc,
    preserves_inv (all_pages_loop env fuel before after ty page acc).
Proof.
  intros Hclock. induction fuel as [|fuel IH]; intros page acc.
  - apply preserves_stateless. apply stateless_ret.
  - cbn [all_pages_loop].
    apply preserves_bind; [now apply preserves_get_activities|].
    intros fetched.
    destruct (negb (py_truthy fetched));
      [apply preserves_stateless; apply stateless_ret|].
    apply preserves_bind.
    { apply preserves_stateless. destruct ty as [t|]; auto with stateless.
      destruct (str_truthy (Some t)); auto with stateless. }
    intros activities.
    apply preserves_bind; [apply preserves_stateless; auto with stateless|].
    intros items.
    apply preserves_bind; [apply preserves_stateless; auto with stateless|].
    intros n. destruct (n <? 100); [|apply IH].
    apply preserves_stateless. apply stateless_ret.
Qed.

Lemma preserves_get_all start_date end_date ty max_pages :
  clock_after_epoch env ->
  preserves_inv (get_all_activities_by_date_range env start_date end_date ty max_pages).
Proof.
  intros Hclock. unfold get_all_activities_by_date_range.
  apply preserves_bind; [apply preserves_stateless; auto with stateless|].
  intros w. now apply preserves_all_pages_loop.
Qed.

Lemma preserves_get_activity_types :
  clock_after_epoch env -> preserves_inv (get_activity_types env).
Proof.
  intros Hclock. unfold get_activity_types.
  apply preserves_bind; [now apply preserves_get_activities|].
  intros activities. apply preserves_stateless. auto 6 with stateless.
Qed.

Lemma with_client_inv {A} (m : M A) srv :
  preserves_inv m -> server_inv srv -> server_inv (snd (with_client m srv)).
Proof.
  intros Hm [Hg Hc]. unfold with_client.
  destruct (strava_client srv) as [c|] eqn:Hsc; cbn [snd].
  - specialize (Hm {| self := c; trace := network srv |} (conj Hg Hc)).
    destruct (m {| self := c; trace := network srv |}) as [r s'].
    cbn [snd] in *. exact Hm.
  - split; [exact Hg|]. now rewrite Hsc.
Qed.

Lemma server_step_inv srv srv' :
  clock_after_epoch env ->
  server_step env srv srv' -> server_inv srv -> server_inv srv'.
Proof.
  intros Hclock Hstep Hinv.
  destruct Hstep.
  - destruct Hinv as [Hg _]. split; [exact Hg|]. now left.
  - destruct Hinv as [Hg _]. split; [exact Hg | exact I].
  - destruct Hinv as [Hg Hc]. cbn [test_connection snd]. split; cbn.
    + now apply gets_use_refreshed_other.
    + destruct (strava_client srv) as [c|]; [|exact I].
      destruct Hc as [Hc|Hc]; [now left | right; now apply from_refresh_app].
  - apply with_client_inv; [now apply preserves_get_activities | exact Hinv].
  - apply with_client_inv; [now apply preserves_by_date_range | exact Hinv].
  - apply with_client_inv; [now apply preserves_get_all | exact Hinv].
  - apply with_client_inv; [now apply preserves_get_activity_types | exact Hinv].
  - apply with_client_inv; [now apply preserves_get_athlete | exact Hinv].
  - apply with_client_inv; [now apply preserves_get_activity_by_id | exact Hinv].
Qed.

Lemma reachable_inv srv :
  clock_after_epoch env -> reachable env srv -> server_inv srv.
Proof.
  intros Hclock Hr. induction Hr as [|srv srv' Hr IH Hstep].
  - split; [apply gets_use_refreshed_nil | exact I].
  - eapply server_step_inv; eauto.
Qed.

Lemma fetch_first_call {A} url ps (treat : Response -> M A) :
  clock_after_epoch env ->
  (forall r, stateless (treat r)) ->
  first_call_refreshes env (fetch env url ps treat).
Proof.
  intros Hclock Hst access refresh cid secret tr s.
  assert (He : token_expires_at (self s) = VInt 0) by reflexivity.
  assert (Hle : (inject_Z (0 - 300) <= time_time env (trace s))%Q).
  { eapply Qle_trans; [|apply Hclock]. unfold Qle; cbn; lia. }
  rewrite fetch_unfold by exact Hst.
  pose proof (refresh_outcomes s) as Ho.
  pose proof (past_margin_int s 0 He) as Hpast.
  inversion Ho as [Hw Heq | ex Hc Hcl Heq | ex Hpm Heq | ex c' Hpm Hr Hx Heq
                  | c' Hpm Hr Hb Heq]; cbn [snd].
  - exfalso. apply (within_margin_int s 0 He) in Hw.
    eapply Qlt_not_le; eauto.
  - rewrite He in Hc. discriminate.
  - exists []. split; [|intros rq rs []].
    unfold after_post, after_time, log_event. cbn [trace self].
    now rewrite <- app_assoc.
  - exists []. split; [|intros rq rs []].
    unfold after_post, after_time, log_event. cbn [trace self].
    now rewrite <- app_assoc.
  - set (s1 := {| self := c'; trace := trace (after_post env s) |}).
    exists [EvGet (sent_request url ps s1) (received env url ps s1)].
    split.
    + unfold after_get, log_event. cbn [trace self].
      unfold s1, after_post, after_time, log_event. cbn [trace self].
      now rewrite <- !app_assoc.
    + intros rq rs [Hin|[]]. inversion Hin; subst. exact Hr.
Qed.

(** C10. The constructor sets the expiry to 0, so with a clock that
    reads a time after the epoch the first data request made on a new
    client reads the clock and sends the refresh POST at once, and the
    GET that may follow carries the access token of that refresh; and
    in every state that the running server can reach, every GET sent
    so far carried an access token handed out by an earlier 200 answer
    of the token endpoint, never the one read from the environment as
    such. *)
Theorem C10_first_request_refreshes :
  clock_after_epoch env ->
  (forall limit before after ty page,
     first_call_refreshes env (get_activities env limit before after ty page)) /\
  first_call_refreshes env (get_athlete env) /\
  (forall activity_id,
     first_call_refreshes env (get_activity_by_id env activity_id)) /\
  (forall srv, reachable env srv -> gets_use_refreshed (network srv)).
Proof.
  intros Hclock. split; [|split; [|split]].
  - intros. rewrite get_activities_fetch.
    apply fetch_first_call; [exact Hclock | apply stateless_treat_activities].
  - rewrite get_athlete_fetch.
    apply fetch_first_call; [exact Hclock | auto with stateless].
  - intros. rewrite get_activity_by_id_fetch.
    apply fetch_first_call; [exact Hclock | apply stateless_treat_activity].
  - intros srv Hr. exact (proj1 (reachable_inv srv Hclock Hr)).
Qed.

End Proofs.

(* ================================================================== *)
(** ** The properties on concrete runs *)

Lemma C1_counterexample :
  let out := get_athlete stale_world demo_state in
  let T := time_time stale_world (trace demo_state) in
  exists prq prs rq rs,
    trace (snd out) = [EvTime T; EvPost prq prs; EvGet rq rs] /\
    refreshed_token prs (authorization rq) /\
    refreshed_expiry prs (VInt 5) /\
    authorization rq = access_token (self (snd out)) /\
    token_expires_at (self (snd out)) = VInt 5 /\
    (inject_Z (5 - 300) <= T)%Q.
Proof.
  exists (refresh_request demo_state), (refresh_response stale_world demo_state).
  eexists. eexists. split; [reflexivity|].
  split; [split; [reflexivity | eexists; split; reflexivity]|].
  split; [eexists; split; reflexivity|].
  split; [reflexivity|]. split; [reflexivity|].
  vm_compute. discriminate.
Qed.

Lemma C1_token_check_guards_request_witness :
  token_expires_at (self demo_state) = VInt 0 /\
  (past_margin granted_world demo_state <->
     (inject_Z (0 - 300) <= time_time granted_world (trace demo_state))%Q) /\
  guarded_request granted_world (get_athlete granted_world) demo_state.
Proof.
  assert (H1 : token_expires_at (self demo_state) = VInt 0) by reflexivity.
  split; [exact H1|]. split.
  - exact (proj1 (proj2 (proj2 (proj2
      (C1_token_check_guards_request granted_world demo_state))) 0 H1)).
  - exact (proj1 (proj2
      (C1_token_check_guards_request granted_world demo_state))).
Defined.

(** C2. With the filter "Run", a first page of 100 activities of which
    one is a ride, and a second page of 40 runs, the method returns the
    99 runs of page 1 after a single GET: the loop compares the length
    of the filtered page with 100 and stops, although page 1 was full.
    Paging as the specification words it fetches page 2 as well and
    returns 139 runs. *)
Theorem C2_type_filter_stops_at_full_page :
  let out := get_all_activities_by_date_range mixed_world
               "2024-01-01" "2024-12-31" (Some "Run") 10 fresh_state in
  List.length (mixed_pages 1) = 100%nat /\
  fst out = Ok (repeat run_activity 99) /\
  count_gets (trace (snd out)) = 1%nat /\
  spec_pages mixed_pages (Some "Run") 10 1 = (Ok (repeat run_activity 139), 2%nat).
Proof.
  vm_compute. repeat split.
Qed.

Lemma C3_counterexample :
  exists e1 e2,
    status_code (refresh_response denied_world demo_state) <> 200 /\
    fst (refresh_access_token_if_needed denied_world demo_state) = Raise e1 /\
    fst (refresh_access_token_if_needed (failing_world 500) fresh_state) = Ok tt /\
    fst (get_activities (failing_world 500) 100 None None None 1 fresh_state) = Raise e2 /\
    exc_class e1 = exc_class e2.
Proof.
  exists (mkExc Exception "Failed to refresh token: bad refresh token"),
         (mkExc Exception "Failed to fetch activities: denied").
  split; [vm_compute; discriminate|].
  repeat split.
Qed.

Lemma C3_refresh_failure_raises_exception_witness :
  token_expires_at (self demo_state) = VInt 0 /\
  (inject_Z (0 - 300) <= time_time denied_world (trace demo_state))%Q /\
  status_code (refresh_response denied_world demo_state) <> 200 /\
  get_athlete denied_world demo_state =
    (Raise (mkExc Exception "Failed to refresh token: bad refresh token"),
     after_post denied_world demo_state).
Proof.
  assert (H1 : token_expires_at (self demo_state) = VInt 0) by reflexivity.
  assert (H2 : (inject_Z (0 - 300) <= time_time denied_world (trace demo_state))%Q)
    by (vm_compute; discriminate).
  assert (H3 : status_code (refresh_response denied_world demo_state) <> 200)
    by (vm_compute; discriminate).
  split; [exact H1|]. split; [exact H2|]. split; [exact H3|].
  exact (proj1 (proj2 (proj2
    (C3_refresh_failure_raises_exception denied_world demo_state 0 H1 H2 H3)))).
Defined.

Lemma C4_counterexample :
  fst (refresh_access_token_if_needed (failing_world 401) fresh_state) = Ok tt /\
  status_code (received (failing_world 401) athlete_url []
                 (after_time (failing_world 401) fresh_state)) = 401 /\
  fst (get_athlete (failing_world 401) fresh_state) =
    Ok (VDict [("message", VStr "Authorization Error")]) /\
  fst (get_activities (failing_world 404) 100 None None None 1 fresh_state) =
  fst (get_activities (failing_world 500) 100 None None None 1 fresh_state) /\
  fst (get_activities (failing_world 500) 100 None None None 1 fresh_state) =
    Raise (mkExc Exception "Failed to fetch activities: denied").
Proof.
  repeat split.
Qed.

Lemma C4_fetch_failure_raises_exception_witness :
  refresh_access_token_if_needed (failing_world 401) fresh_state =
    (Ok tt, after_time (failing_world 401) fresh_state) /\
  status_code (received (failing_world 401) (activity_url "42") []
                 (after_time (failing_world 401) fresh_state)) <> 200 /\
  get_activity_by_id (failing_world 401) "42" fresh_state =
    (Raise (mkExc Exception "Failed to fetch activity: denied"),
     after_get (failing_world 401) (activity_url "42") []
               (after_time (failing_world 401) fresh_state)).
Proof.
  assert (H1 : refresh_access_token_if_needed (failing_world 401) fresh_state =
               (Ok tt, after_time (failing_world 401) fresh_state)) by reflexivity.
  assert (H2 : status_code (received (failing_world 401) (activity_url "42") []
                 (after_time (failing_world 401) fresh_state)) <> 200)
    by (vm_compute; discriminate).
  split; [exact H1|]. split; [exact H2|].
  exact (proj2 (C4_fetch_failure_raises_exception (failing_world 401)
                  fresh_state _ H1) "42" H2).
Defined.

(** C5. Both date-range methods take [after] at local midnight of the
    start date and [before] 86400 seconds after local midnight of the
    end date.  In UTC, "2024-01-01" and "2024-01-31" give the epoch of
    2024-01-01T00:00:00 and of 2024-02-01T00:00:00.  In New York,
    with the end date "2024-11-03", the day on which the clocks go
    back, [before] is 23:00 of the end date: 3600 seconds short of the
    midnight that ends it, so the request that is sent leaves out the
    last hour of the end date, which the added day was to include. *)
Theorem C5_added_day_is_86400_seconds :
  date_window utc_world "2024-01-01" "2024-01-31" = Ok (1704067200, 1706745600) /\
  local_epoch utc_world 2024 1 1 = 1704067200 /\
  local_epoch utc_world 2024 2 1 = 1706745600 /\
  date_window new_york_world "2024-11-01" "2024-11-03" =
    Ok (1730433600, 1730692800) /\
  local_epoch new_york_world 2024 11 1 = 1730433600 /\
  next_day 2024 11 3 = (2024, 11, 4) /\
  local_epoch new_york_world 2024 11 4 = 1730692800 + 3600 /\
  (exists rq rs,
     trace (snd (get_activities_by_date_range new_york_world
                   "2024-11-01" "2024-11-03" 100 None fresh_state)) =
       [EvTime (time_time new_york_world []); EvGet rq rs] /\
     param_lookup (params rq) "after" = Some 1730433600 /\
     param_lookup (params rq) "before" = Some 1730692800) /\
  (exists rq rs,
     trace (snd (get_all_activities_by_date_range new_york_world
                   "2024-11-01" "2024-11-03" None 10 fresh_state)) =
       [EvTime (time_time new_york_world []); EvGet rq rs] /\
     param_lookup (params rq) "after" = Some 1730433600 /\
     param_lookup (params rq) "before" = Some 1730692800).
Proof.
  repeat (split; [vm_compute; reflexivity|]).
  split; eexists; eexists; (split; [vm_compute; reflexivity|]);
    split; vm_compute; reflexivity.
Qed.

Lemma C7_counterexample :
  let out := refresh_access_token_if_needed partial_world demo_state in
  status_code (refresh_response partial_world demo_state) = 200 /\
  fst out = Raise (mkExc KeyError "") /\
  access_token (self demo_state) = VStr "env-access" /\
  access_token (self (snd out)) = VStr "new-access" /\
  refresh_token (self (snd out)) = refresh_token (self demo_state) /\
  token_expires_at (self (snd out)) = token_expires_at (self demo_state).
Proof.
  repeat split.
Qed.

Lemma C7_refresh_assigns_fields_in_order_witness :
  past_margin partial_world demo_state /\
  self (snd (refresh_access_token_if_needed partial_world demo_state)) =
    with_tokens demo_client (VStr "new-access") (VStr "env-refresh") (VInt 0) /\
  fst (refresh_access_token_if_needed partial_world demo_state) =
    Raise (mkExc KeyError "").
Proof.
  assert (H : past_margin partial_world demo_state).
  { exists (NInt (0 - 300)). split; reflexivity. }
  split; [exact H|].
  exact (proj1 (proj2
    (proj2 (proj2 (C7_refresh_assigns_fields_in_order partial_world demo_state H))
       _ eq_refl eq_refl))
    (VStr "new-access") (mkExc KeyError "") eq_refl eq_refl).
Defined.

Lemma C8_counterexample :
  let srv := app_lifespan_enter granted_world server_start in
  let out := tool_get_activities_by_date_range granted_world
               "2024-02-30" "2024-03-01" None srv in
  strava_client srv <> None /\
  exists e,
    fst out = Raise e /\
    exc_class e = exc_class not_initialized /\
    network (snd out) = [].
Proof.
  split; [discriminate|].
  exists (mkExc ValueError ""). repeat split.
Qed.

Lemma C8_uninitialized_client_raises_value_error_witness :
  strava_client server_start = None /\
  get_athlete_profile granted_world server_start =
    (Raise not_initialized, server_start).
Proof.
  split; [reflexivity|].
  exact (proj1 (proj2 (proj2 (proj2 (proj2
    (C8_uninitialized_client_raises_value_error granted_world server_start
       eq_refl)))))).
Defined.

Lemma simple_world_healthy now api :
  token_service_healthy (simple_world now token_ok api).
Proof.
  intros tr rq. split; [reflexivity|].
  exists (VDict [("access_token", VStr "new-access");
                 ("refresh_token", VStr "new-refresh");
                 ("expires_at", VInt 99999)]),
         (VStr "new-access"), (VStr "new-refresh"), 99999.
  repeat split.
Defined.

Lemma api_pages_serves now pages :
  serves_pages (simple_world now token_ok (api_pages pages)) pages.
Proof.
  intros tr rq k Hk. cbn. unfold api_pages. rewrite Hk. split; reflexivity.
Defined.

Lemma C6_three_full_pages_then_short_witness :
  token_service_healthy four_pages_world /\
  serves_pages four_pages_world four_pages /\
  List.length (four_pages 1) = 100%nat /\
  List.length (four_pages 4) = 40%nat /\
  exists s',
    get_all_activities_by_date_range four_pages_world
      "2024-01-01" "2024-12-31" None 10 fresh_state =
      (Ok (four_pages 1 ++ four_pages 2 ++ four_pages 3 ++ four_pages 4), s') /\
    List.length (four_pages 1 ++ four_pages 2 ++ four_pages 3 ++ four_pages 4)
      = 340%nat /\
    sends_gets fresh_state s' 4.
Proof.
  assert (Hh : token_service_healthy four_pages_world)
    by apply simple_world_healthy.
  assert (Hs : serves_pages four_pages_world four_pages)
    by apply api_pages_serves.
  split; [exact Hh|]. split; [exact Hs|].
  split; [reflexivity|]. split; [reflexivity|].
  apply (C6_three_full_pages_then_short four_pages_world four_pages fresh_state
           "2024-01-01" "2024-12-31" None 10 Hh Hs).
  - exists 10000. reflexivity.
  - eexists. reflexivity.
  - reflexivity.
  - lia.
  - reflexivity.
  - reflexivity.
  - reflexivity.
  - reflexivity.
Defined.

Lemma C9_activity_types_distinct_witness :
  (forall l, Permutation (set_order mixed_world l) l) /\
  get_activity_types mixed_world fresh_state =
    (Ok [VStr "Run"; VStr "Ride"],
     after_get mixed_world activities_url [("per_page", 200); ("page", 1)]
               (after_time mixed_world fresh_state)) /\
  NoDup [VStr "Run"; VStr "Ride"].
Proof.
  assert (Hp : forall l, Permutation (set_order mixed_world l) l)
    by (intros l; apply Permutation_refl).
  split; [exact Hp|]. split; [reflexivity|].
  exact (proj1 (C9_activity_types_distinct mixed_world Hp) fresh_state _ _ eq_refl).
Defined.

Lemma C10_first_request_refreshes_witness :
  clock_after_epoch granted_world /\
  gets_use_refreshed
    (network (snd (get_athlete_profile granted_world
                     (app_lifespan_enter granted_world server_start)))).
Proof.
  assert (Hc : clock_after_epoch granted_world)
    by (intros tr; vm_compute; discriminate).
  split; [exact Hc|].
  apply (proj2 (proj2 (proj2 (C10_first_request_refreshes granted_world Hc)))).
  eapply reach_step; [eapply reach_step; [apply reach_start | apply step_enter]|].
  apply step_profile.
Defined.

(* ================================================================== *)
(** ** Further properties of the client *)

Section MoreProofs.

Variable env : Env.

(** *** Filtering one page *)

Lemma filter_elems_dicts l t :
  Forall is_dict l -> filter_elems l t = Ok (filter (has_type t) l).
Proof.
  induction l as [|a l IH]; intros Hall; [reflexivity|].
  inversion Hall as [|? ? [d ->] Hrest]; subst.
  cbn [filter_elems filter]. unfold has_type at 1.
  destruct (py_get (VDict d) "type") as [x|e] eqn:Hg.
  - rewrite (IH Hrest). reflexivity.
  - cbn in Hg. destruct (dict_lookup d "type"); discriminate.
Qed.

Lemma str_truthy_some t : t <> "" -> str_truthy (Some t) = true.
Proof.
  intros Hne. cbn. destruct (String.eqb t "") eqn:E; [|reflexivity].
  apply String.eqb_eq in E. contradiction.
Qed.

(** X1. Once the token check has passed and the API answers 200 with a
    list of records, [get_activities] called with a non-empty type
    returns exactly the records whose ["type"] equals it, in the order
    of the answer; called with no type, or with the empty string, it
    returns the decoded answer untouched. *)
Theorem X1_get_activities_filters_by_type s s1 limit before after page acts :
  refresh_access_token_if_needed env s = (Ok tt, s1) ->
  let ps := activity_params limit before after page in
  let rs := received env activities_url ps s1 in
  status_code rs = 200 ->
  json rs = Some (VList acts) ->
  (forall t, t <> "" -> Forall is_dict acts ->
     get_activities env limit before after (Some t) page s =
       (Ok (VList (filter (has_type t) acts)), after_get env activities_url ps s1)) /\
  (forall ty, str_truthy ty = false ->
     get_activities env limit before after ty page s =
       (Ok (VList acts), after_get env activities_url ps s1)).
Proof.
  intros Hr ps rs Hst Hj.
  assert (Hrun : forall ty,
    get_activities env limit before after ty page s =
      (fst (treat_activities ty rs (after_get env activities_url ps s1)),
       after_get env activities_url ps s1)).
  { intros ty. rewrite get_activities_fetch.
    rewrite fetch_unfold by apply stateless_treat_activities.
    now rewrite Hr. }
  split.
  - intros t Hne Hall. rewrite Hrun. f_equal.
    unfold treat_activities. rewrite Hst. cbn [Z.eqb Pos.eqb negb].
    unfold response_json. rewrite Hj. rewrite (str_truthy_some t Hne).
    unfold bind, lift, ret, filter_by_type. cbn [py_iter].
    now rewrite (filter_elems_dicts acts t Hall).
  - intros ty Hty. rewrite Hrun. f_equal.
    unfold treat_activities. rewrite Hst. cbn [Z.eqb Pos.eqb negb].
    unfold response_json. rewrite Hj.
    destruct ty as [t|]; [rewrite Hty|]; reflexivity.
Qed.

(** *** Date windows *)

(** X2. A bound of the window that is 0 is not sent: once the token
    check has passed, [get_activities_by_date_range] sends one GET with
    [per_page] and [page = 1], with ["after"] only when the start
    timestamp is not 0 and ["before"] only when the end timestamp plus
    one day is not 0. *)
Theorem X2_zero_bounds_are_not_sent s s1 start_date end_date limit ty after before :
  date_window env start_date end_date = Ok (after, before) ->
  refresh_access_token_if_needed env s = (Ok tt, s1) ->
  exists rq rs,
    trace (snd (get_activities_by_date_range env start_date end_date limit ty s)) =
      trace s1 ++ [EvGet rq rs] /\
    param_lookup (params rq) "per_page" = Some limit /\
    param_lookup (params rq) "page" = Some 1 /\
    param_lookup (params rq) "after" = (if after =? 0 then None else Some after) /\
    param_lookup (params rq) "before" = (if before =? 0 then None else Some before).
Proof.
  intros Hw Hr.
  unfold get_activities_by_date_range, bind at 1, lift. rewrite Hw. cbn [fst snd].
  rewrite get_activities_fetch.
  rewrite fetch_unfold by apply stateless_treat_activities.
  rewrite Hr. cbn [snd].
  set (ps := activity_params limit (Some before) (Some after) 1).
  exists (sent_request activities_url ps s1), (received env activities_url ps s1).
  split; [reflexivity|].
  unfold sent_request, ps, activity_params, int_truthy. cbn [params].
  destruct (before =? 0); destruct (after =? 0); repeat split.
Qed.

(** X3. A date string that [strptime] refuses makes both date-range
    methods raise [ValueError] before the clock is read or anything is
    sent: the client and the trace are as before. *)
Theorem X3_bad_date_raises_before_any_call start_date end_date s :
  (exists e, strptime_ymd start_date = Raise e) \/
  (exists e, strptime_ymd end_date = Raise e) ->
  (forall limit ty,
     get_activities_by_date_range env start_date end_date limit ty s =
       (Raise (mkExc ValueError ""), s)) /\
  (forall ty max_pages,
     get_all_activities_by_date_range env start_date end_date ty max_pages s =
       (Raise (mkExc ValueError ""), s)) /\
  (forall ty,
     tool_get_activities_by_date_range env start_date end_date ty
       (mkServer (Some (self s)) (trace s)) =
       (Raise (mkExc ValueError ""), mkServer (Some (self s)) (trace s))).
Proof.
  intros Hbad. pose proof (date_window_raises env _ _ Hbad) as Hw.
  split; [|split].
  - intros. unfold get_activities_by_date_range, bind, lift. now rewrite Hw.
  - intros. unfold get_all_activities_by_date_range, bind, lift. now rewrite Hw.
  - intros. unfold tool_get_activities_by_date_range, with_client.
    cbn [strava_client network].
    unfold get_activities_by_date_range, bind, lift. destruct s as [c tr].
    cbn [self trace]. now rewrite Hw.
Qed.

(** *** Whole years *)

Lemma four_digit_years_parse year :
  1000 <= year <= 9999 -> year_strings_parse year = true.
Proof.
  intros Hy.
  assert (H : forallb (fun n => year_strings_parse (Z.of_nat n)) (seq 1000 (Z.to_nat 9000)) = true)
    by (vm_compute; reflexivity).
  rewrite forallb_forall in H.
  specialize (H (Z.to_nat year)).
  rewrite Z2Nat.id in H by lia. apply H. apply in_seq. lia.
Qed.

Lemma short_years_refused year :
  0 <= year < 1000 -> year_string_refused year = true.
Proof.
  intros Hy.
  assert (H : forallb (fun n => year_string_refused (Z.of_nat n)) (seq 0 1000) = true)
    by (vm_compute; reflexivity).
  rewrite forallb_forall in H.
  specialize (H (Z.to_nat year)).
  rewrite Z2Nat.id in H by lia. apply H. apply in_seq. lia.
Qed.

Lemma parse_year_dash l : parse_year (45 :: l) = None.
Proof.
  destruct l as [|b [|c [|d r]]]; reflexivity.
Qed.

Lemma negative_years_refused year :
  year < 0 -> year_string_refused year = true.
Proof.
  intros Hy. destruct year as [|p|p]; try lia.
  unfold year_string_refused, str_of_int. cbn [Z.to_int NilZero.string_of_int].
  cbn [String.append]. unfold strptime_ymd.
  assert (E : forall r, code_points (String "-" r) = 45 :: code_points r)
    by reflexivity.
  rewrite E, parse_year_dash. reflexivity.
Qed.

(** X5. For a year from 1000 to 9999 the two strings that
    [get_all_activities_in_year] builds parse to January 1 and December
    31 of that year, so the tool pages through the window from local
    midnight of January 1 to local midnight of January 1 of the next
    year (when the two midnights around new year have the same offset
    from UTC), with at most 10 pages.  For a year below 1000 the year
    is not padded to four digits, the start string is refused and the
    tool raises [ValueError] without reading the clock or sending
    anything. *)
Theorem X5_year_tool_window year ty c tr :
  let srv := mkServer (Some c) tr in
  (1000 <= year <= 9999 ->
   utcoffset env (year + 1) 1 1 = utcoffset env year 12 31 ->
   date_window env (str_of_int year ++ "-01-01") (str_of_int year ++ "-12-31") =
     Ok (local_epoch env year 1 1, local_epoch env (year + 1) 1 1) /\
   get_all_activities_in_year env year ty srv =
     with_client (all_pages_loop env 10
                    (local_epoch env (year + 1) 1 1) (local_epoch env year 1 1)
                    ty 1 []) srv) /\
  (year < 1000 ->
   get_all_activities_in_year env year ty srv = (Raise (mkExc ValueError ""), srv)).
Proof.
  intros srv. split.
  - intros Hy Ho.
    pose proof (four_digit_years_parse year Hy) as Hp.
    unfold year_strings_parse in Hp.
    destruct (strptime_ymd (str_of_int year ++ "-01-01")) as [[[y m] d]|] eqn:H1;
      [|discriminate].
    destruct (strptime_ymd (str_of_int year ++ "-12-31")) as [[[y' m'] d']|] eqn:H2;
      [|discriminate].
    rewrite !andb_true_iff, !Z.eqb_eq in Hp.
    destruct Hp as [[[[[-> ->] ->] ->] ->] ->].
    assert (Hw : date_window env (str_of_int year ++ "-01-01")
                             (str_of_int year ++ "-12-31") =
                 Ok (local_epoch env year 1 1, local_epoch env (year + 1) 1 1)).
    { assert (F : forall m d, is_first_day year m d = false).
      { intros m d. unfold is_first_day.
        destruct (Z.eqb_spec year 1); [lia | reflexivity]. }
      rewrite (date_window_parsed env _ _ _ _ _ _ _ _ H1 H2 (F _ _) (F _ _)).
      pose proof (ymd2ord_next_day year 12 31 ltac:(lia) ltac:(cbn; lia)) as Hn.
      cbn in Hn. unfold local_epoch. rewrite Hn, Ho. f_equal. f_equal. lia. }
    split; [exact Hw|].
    unfold get_all_activities_in_year, with_client, srv. cbn [strava_client network].
    unfold get_all_activities_by_date_range, bind at 1, lift. rewrite Hw.
    reflexivity.
  - intros Hy.
    assert (Hr : year_string_refused year = true).
    { destruct (Z.lt_ge_cases year 0);
        [now apply negative_years_refused | apply short_years_refused; lia]. }
    unfold year_string_refused in Hr.
    destruct (strptime_ymd (str_of_int year ++ "-01-01")) as [v|e] eqn:H1;
      [discriminate|].
    unfold get_all_activities_in_year, with_client, srv. cbn [strava_client network].
    unfold get_all_activities_by_date_range, bind at 1, lift.
    rewrite date_window_raises; [reflexivity|].
    left. now exists e.
Qed.

(** *** Paging through a window *)

Lemma page_numbers_S page n :
  page_numbers page (S n) = page :: page_numbers (page + 1) n.
Proof.
  unfold page_numbers. cbn [seq map]. f_equal; [cbn; lia|].
  rewrite <- seq_shift, map_map. apply map_ext. intros i. lia.
Qed.

Lemma pages_from_S pages page n :
  pages_from pages page (S n) = pages page ++ pages_from pages (page + 1) n.
Proof. unfold pages_from. now rewrite page_numbers_S. Qed.

Lemma keep_unfiltered ty (p : list pyval) :
  str_truthy ty = false ->
  match ty with
  | Some t => if str_truthy ty then filter_elems p t else Ok p
  | None => Ok p
  end = Ok p.
Proof. intros Hty. destruct ty as [t|]; [now rewrite Hty | reflexivity]. Qed.

(** Paging as specified, when the first [n] pages are full and the next
    one is not. *)
Lemma spec_pages_stops pages ty :
  str_truthy ty = false ->
  forall n fuel page,
    (n < fuel)%nat ->
    (forall i, (i < n)%nat ->
       100 <= Z.of_nat (List.length (pages (page + Z.of_nat i)))) ->
    Z.of_nat (List.length (pages (page + Z.of_nat n))) < 100 ->
    spec_pages pages ty fuel page = (Ok (pages_from pages page (S n)), S n).
Proof.
  intros Hty. induction n as [|n IH]; intros fuel page Hf Hfull Hshort.
  - destruct fuel as [|fuel]; [lia|]. cbn [spec_pages].
    rewrite keep_unfiltered by exact Hty.
    replace (page + Z.of_nat 0) with page in Hshort by lia.
    rewrite pages_from_S. unfold pages_from at 1. cbn [page_numbers seq map concat].
    rewrite app_nil_r.
    destruct (pages page) as [|a p] eqn:Hp; [reflexivity|].
    apply Z.ltb_lt in Hshort. now rewrite Hshort.
  - destruct fuel as [|fuel]; [lia|]. cbn [spec_pages].
    rewrite keep_unfiltered by exact Hty.
    pose proof (Hfull 0%nat ltac:(lia)) as H0.
    replace (page + Z.of_nat 0) with page in H0 by lia.
    rewrite pages_from_S.
    destruct (pages page) as [|a p] eqn:Hp; [cbn in H0; lia|].
    apply Z.ltb_ge in H0. rewrite H0.
    rewrite (IH fuel (page + 1)); [reflexivity | lia | |].
    + intros i Hi. specialize (Hfull (S i) ltac:(lia)).
      now replace (page + 1 + Z.of_nat i) with (page + Z.of_nat (S i)) by lia.
    + now replace (page + 1 + Z.of_nat n) with (page + Z.of_nat (S n)) by lia.
Qed.

(** Paging as specified, when every page up to the cap is full. *)
Lemma spec_pages_capped pages ty :
  str_truthy ty = false ->
  forall fuel page,
    (forall i, (i < fuel)%nat ->
       100 <= Z.of_nat (List.length (pages (page + Z.of_nat i)))) ->
    spec_pages pages ty fuel page = (Ok (pages_from pages page fuel), fuel).
Proof.
  intros Hty. induction fuel as [|fuel IH]; intros page Hfull; [reflexivity|].
  cbn [spec_pages]. rewrite keep_unfiltered by exact Hty.
  pose proof (Hfull 0%nat ltac:(lia)) as H0.
  replace (page + Z.of_nat 0) with page in H0 by lia.
  rewrite pages_from_S.
  destruct (pages page) as [|a p] eqn:Hp; [cbn in H0; lia|].
  apply Z.ltb_ge in H0. rewrite H0.
  rewrite (IH (page + 1)); [reflexivity|].
  intros i Hi. specialize (Hfull (S i) ltac:(lia)).
  now replace (page + 1 + Z.of_nat i) with (page + Z.of_nat (S i)) by lia.
Qed.

Lemma get_all_unfiltered pages s start_date end_date ty max_pages w :
  token_service_healthy env -> serves_pages env pages -> numeric_expiry s ->
  date_window env start_date end_date = Ok w ->
  str_truthy ty = false ->
  exists rest n s',
    spec_pages pages ty (Z.to_nat max_pages) 1 = (Ok rest, n) /\
    get_all_activities_by_date_range env start_date end_date ty max_pages s =
      (Ok rest, s') /\
    sends_gets s s' n.
Proof.
  intros Hh Hs Hn Hw Hty.
  unfold get_all_activities_by_date_range, bind at 1, lift. rewrite Hw.
  destruct (all_pages_loop_unfiltered env pages (snd w) (fst w) ty Hh Hs Hty
              (Z.to_nat max_pages) 1 [] s Hn)
    as [rest [n [s' [Hsp [Hloop [_ Hg]]]]]].
  exists rest, n, s'. repeat split; assumption.
Qed.

(** X6. Whatever the upstream answers and whatever the filter,
    [get_all_activities_by_date_range] sends at most [max_pages] GET
    requests; with [max_pages] at most 0 and dates that parse it
    returns the empty list without reading the clock or sending
    anything. *)
Theorem X6_max_pages_caps_requests start_date end_date ty max_pages s :
  sends_at_most s
    (snd (get_all_activities_by_date_range env start_date end_date ty max_pages s))
    (Z.to_nat max_pages) /\
  (max_pages <= 0 ->
   (exists w, date_window env start_date end_date = Ok w) ->
   get_all_activities_by_date_range env start_date end_date ty max_pages s =
     (Ok [], s)).
Proof.
  split; [apply get_all_activities_bound|].
  intros Hm [w Hw].
  unfold get_all_activities_by_date_range, bind, lift. rewrite Hw.
  replace (Z.to_nat max_pages) with 0%nat by lia. reflexivity.
Qed.

(** X7. With no type filter, a token endpoint that grants and an API
    that serves [pages]: if pages 1 to [n] hold at least 100 elements
    each and page [n + 1] holds fewer (possibly none), and the cap
    allows [n + 1] pages, the method returns pages 1 to [n + 1] one
    after the other, after exactly [n + 1] GET requests. *)
Theorem X7_unfiltered_paging_stops_at_short_page
    pages s start_date end_date ty max_pages n :
  token_service_healthy env ->
  serves_pages env pages ->
  numeric_expiry s ->
  (exists w, date_window env start_date end_date = Ok w) ->
  str_truthy ty = false ->
  Z.of_nat (S n) <= max_pages ->
  (forall i, (i < n)%nat ->
     100 <= Z.of_nat (List.length (pages (1 + Z.of_nat i)))) ->
  Z.of_nat (List.length (pages (1 + Z.of_nat n))) < 100 ->
  exists s',
    get_all_activities_by_date_range env start_date end_date ty max_pages s =
      (Ok (pages_from pages 1 (S n)), s') /\
    sends_gets s s' (S n).
Proof.
  intros Hh Hs Hn [w Hw] Hty Hmax Hfull Hshort.
  destruct (get_all_unfiltered pages s start_date end_date ty max_pages w
              Hh Hs Hn Hw Hty) as [rest [k [s' [Hsp [Hrun Hg]]]]].
  rewrite (spec_pages_stops pages ty Hty n (Z.to_nat max_pages) 1) in Hsp;
    [|lia|exact Hfull|exact Hshort].
  inversion Hsp; subst rest k. now exists s'.
Qed.

(** X8. With no type filter, if every page from 1 to [max_pages] holds
    at least 100 elements, the method stops at the cap: it returns
    pages 1 to [max_pages] after exactly [max_pages] GET requests and
    signals nothing about what lies beyond. *)
Theorem X8_unfiltered_paging_truncates_at_cap
    pages s start_date end_date ty max_pages :
  token_service_healthy env ->
  serves_pages env pages ->
  numeric_expiry s ->
  (exists w, date_window env start_date end_date = Ok w) ->
  str_truthy ty = false ->
  (forall i, (i < Z.to_nat max_pages)%nat ->
     100 <= Z.of_nat (List.length (pages (1 + Z.of_nat i)))) ->
  exists s',
    get_all_activities_by_date_range env start_date end_date ty max_pages s =
      (Ok (pages_from pages 1 (Z.to_nat max_pages)), s') /\
    sends_gets s s' (Z.to_nat max_pages).
Proof.
  intros Hh Hs Hn [w Hw] Hty Hfull.
  destruct (get_all_unfiltered pages s start_date end_date ty max_pages w
              Hh Hs Hn Hw Hty) as [rest [k [s' [Hsp [Hrun Hg]]]]].
  rewrite (spec_pages_capped pages ty Hty (Z.to_nat max_pages) 1 Hfull) in Hsp.
  inversion Hsp; subst rest k. now exists s'.
Qed.

Lemma filter_elems_sound l t : forall r,
  filter_elems l t = Ok r -> Forall (fun a => has_type t a = true) r.
Proof.
  induction l as [|a l IH]; intros r H; cbn in H.
  - inversion H. constructor.
  - destruct (py_get a "type") as [x|e] eqn:Hg; [|discriminate].
    destruct (filter_elems l t) as [rest|e]; [|discriminate].
    inversion H; subst. specialize (IH rest eq_refl).
    destruct (py_eq_str x t) eqn:Hx; [|exact IH].
    constructor; [|exact IH]. unfold has_type. now rewrite Hg.
Qed.

Lemma all_pages_loop_filtered before after t :
  t <> "" ->
  forall fuel page acc s l s',
    all_pages_loop env fuel before after (Some t) page acc s = (Ok l, s') ->
    Forall (fun a => has_type t a = true) acc ->
    Forall (fun a => has_type t a = true) l.
Proof.
  intros Hne. induction fuel as [|fuel IH]; intros page acc s l s' H Hacc.
  - cbn in H. inversion H; subst. exact Hacc.
  - cbn [all_pages_loop] in H. unfold bind at 1 in H.
    destruct (get_activities env 100 (Some before) (Some after) None page s)
      as [[fetched|e] s1]; [|discriminate].
    destruct (negb (py_truthy fetched)).
    { inversion H; subst. exact Hacc. }
    rewrite (str_truthy_some t Hne) in H.
    unfold bind, lift, ret in H.
    destruct (filter_by_type fetched t) as [filtered|e] eqn:Hf; [|discriminate].
    cbn [py_iter py_len] in H.
    assert (Hall : Forall (fun a => has_type t a = true) (acc ++ filtered)).
    { apply Forall_app. split; [exact Hacc|].
      unfold filter_by_type in Hf.
      destruct (py_iter fetched) as [elems|e]; [|discriminate].
      eapply filter_elems_sound; eauto. }
    destruct (Z.of_nat (List.length filtered) <? 100).
    + inversion H; subst. exact Hall.
    + eapply IH; eauto.
Qed.

(** X9. Called with a non-empty type, whenever
    [get_all_activities_by_date_range] returns, every element of the
    list it returns is a record whose ["type"] equals that type,
    whatever the upstream sent. *)
Theorem X9_filtered_paging_returns_only_the_type
    start_date end_date t max_pages s l s' :
  t <> "" ->
  get_all_activities_by_date_range env start_date end_date (Some t) max_pages s =
    (Ok l, s') ->
  Forall (fun a => exists x, py_get a "type" = Ok (VStr x) /\ x = t) l.
Proof.
  intros Hne H.
  unfold get_all_activities_by_date_range, bind at 1, lift in H.
  destruct (date_window env start_date end_date) as [w|e]; [|discriminate].
  pose proof (all_pages_loop_filtered (snd w) (fst w) t Hne _ _ _ _ _ _ H
                (Forall_nil _)) as Hall.
  eapply Forall_impl; [|exact Hall].
  intros a Ha. unfold has_type in Ha.
  destruct (py_get a "type") as [x|e]; [|discriminate].
  destruct x as [| | |x| | |]; try discriminate.
  cbn in Ha. apply String.eqb_eq in Ha. now exists x.
Qed.

(** *** The requests of a paging run *)

Lemma get_requests_app a b :
  get_requests (a ++ b) = get_requests a ++ get_requests b.
Proof.
  induction a as [|e a IH]; [reflexivity|].
  destruct e; cbn; now rewrite IH.
Qed.

Lemma refresh_new_events s :
  exists evs,
    trace (snd (refresh_access_token_if_needed env s)) = trace s ++ evs /\
    get_requests evs = [].
Proof.
  pose proof (refresh_outcomes env s) as Ho.
  inversion Ho; cbn [snd];
    first [ exists [EvTime (time_time env (trace s))]; split; reflexivity
          | exists [EvTime (time_time env (trace s));
                    EvPost (refresh_request s) (refresh_response env s)];
            split; [|reflexivity];
            unfold after_post, after_time, log_event; cbn [trace self];
            now rewrite <- app_assoc ].
Qed.

(** One page fetch adds at most one GET, with the parameters of the
    call; it adds exactly one when it returns. *)
Lemma get_activities_requests limit before after ty page s :
  let out := get_activities env limit before after ty page s in
  exists evs,
    trace (snd out) = trace s ++ evs /\
    (map params (get_requests evs) = [activity_params limit before after page] \/
     (map params (get_requests evs) = [] /\ exists e, fst out = Raise e)).
Proof.
  intros out. unfold out. rewrite get_activities_fetch.
  rewrite fetch_unfold by apply stateless_treat_activities.
  destruct (refresh_new_events s) as [evs [Ht Hg]].
  destruct (refresh_access_token_if_needed env s) as [[u|e] s1]; cbn [fst snd] in *.
  - eexists (evs ++ [EvGet _ _]). split.
    + unfold after_get, log_event. cbn [trace]. rewrite Ht.
      now rewrite <- app_assoc.
    + left. rewrite get_requests_app, Hg. reflexivity.
  - exists evs. split; [exact Ht|]. right. rewrite Hg. split; [reflexivity|].
    now exists e.
Qed.

Lemma all_pages_loop_requests before after ty :
  forall fuel page acc s,
    exists evs n,
      trace (snd (all_pages_loop env fuel before after ty page acc s)) =
        trace s ++ evs /\
      (n <= fuel)%nat /\
      map params (get_requests evs) =
        map (activity_params 100 (Some before) (Some after)) (page_numbers page n).
Proof.
  induction fuel as [|fuel IH]; intros page acc s.
  - exists [], 0%nat. cbn. rewrite app_nil_r. repeat split. lia.
  - cbn [all_pages_loop]. unfold bind at 1.
    destruct (get_activities_requests 100 (Some before) (Some after) None page s)
      as [evs [Ht Hg]].
    assert (Stop : exists evs0 n,
        trace (snd (get_activities env 100 (Some before) (Some after) None page s)) =
          trace s ++ evs0 /\ (n <= S fuel)%nat /\
        map params (get_requests evs0) =
          map (activity_params 100 (Some before) (Some after)) (page_numbers page n)).
    { destruct Hg as [Hg|[Hg _]].
      - exists evs, 1%nat. split; [exact Ht|]. split; [lia|].
        rewrite Hg. unfold page_numbers. cbn. now rewrite Z.add_0_r.
      - exists evs, 0%nat. split; [exact Ht|]. split; [lia|].
        rewrite Hg. reflexivity. }
    destruct (get_activities env 100 (Some before) (Some after) None page s)
      as [[fetched|e] s1]; cbn [fst snd] in *; [|exact Stop].
    destruct (negb (py_truthy fetched)); [exact Stop|].
    set (pick := match ty with
                 | Some t =>
                     if str_truthy ty
                     then filtered <- lift (filter_by_type fetched t) ;;
                          ret (VList filtered)
                     else ret fetched
                 | None => ret fetched
                 end).
    assert (Hpick : stateless pick).
    { unfold pick. destruct ty as [t|]; auto with stateless.
      destruct (str_truthy (Some t)); auto with stateless. }
    unfold bind at 1. specialize (Hpick s1).
    destruct (pick s1) as [[activities|e] s2]; cbn [snd] in Hpick; subst s2;
      [|exact Stop].
    unfold bind, lift, ret.
    destruct (py_iter activities) as [items|e]; [|exact Stop].
    destruct (py_len activities) as [len|e]; [|exact Stop].
    destruct (len <? 100); [exact Stop|].
    destruct Hg as [Hg|[_ [e He]]]; [|discriminate].
    destruct (IH (page + 1) (acc ++ items) s1) as [evs' [n [Ht' [Hn Hg']]]].
    exists (evs ++ evs'), (S n). split; [|split; [lia|]].
    + rewrite Ht', Ht. now rewrite app_assoc.
    + rewrite get_requests_app, map_app, Hg, Hg', page_numbers_S. reflexivity.
Qed.

(** X10. The GET requests that one run of
    [get_all_activities_by_date_range] sends are, in order, requests
    for pages 1, 2, ..., [n] for some [n] up to [max_pages], each with
    [per_page = 100] and the same [before] and [after]; the type filter
    is never part of a request. *)
Theorem X10_pages_are_requested_in_order
    start_date end_date ty max_pages s after before :
  date_window env start_date end_date = Ok (after, before) ->
  exists evs n,
    trace (snd (get_all_activities_by_date_range env start_date end_date
                  ty max_pages s)) = trace s ++ evs /\
    (n <= Z.to_nat max_pages)%nat /\
    map params (get_requests evs) =
      map (activity_params 100 (Some before) (Some after)) (page_numbers 1 n).
Proof.
  intros Hw.
  unfold get_all_activities_by_date_range, bind at 1, lift. rewrite Hw.
  apply all_pages_loop_requests.
Qed.

(** *** What the methods leave alone *)

Lemma refresh_same_identity s :
  same_identity (self s) (self (snd (refresh_access_token_if_needed env s))).
Proof.
  unfold refresh_access_token_if_needed. unfold_m. msimpl.
  destruct (py_sub_int (token_expires_at (self s)) 300) as [th|e];
    msimpl; [|repeat split].
  destruct (time_reaches (time_time env (trace s)) th);
    msimpl; [|repeat split].
  destruct (status_code _ =? 200); [|repeat split].
  destruct (json _) as [data|]; msimpl; [|repeat split].
  destruct (py_getitem data "access_token"); msimpl; [|repeat split].
  destruct (py_getitem data "refresh_token"); msimpl; [|repeat split].
  destruct (py_getitem data "expires_at"); msimpl; repeat split.
Qed.

Lemma keeps_stateless (I : St -> Prop) {A} (m : M A) : stateless m -> keeps I m.
Proof. intros H s Hs. now rewrite H. Qed.

Lemma keeps_bind (I : St -> Prop) {A B} (m : M A) (f : A -> M B) :
  keeps I m -> (forall a, keeps I (f a)) -> keeps I (bind m f).
Proof.
  intros Hm Hf s Hs. unfold bind. specialize (Hm s Hs).
  destruct (m s) as [[a|e] s1]; cbn [snd] in *; [now apply Hf | exact Hm].
Qed.

Section Keeps.

Variable I : St -> Prop.
Hypothesis Hrefresh : keeps I (refresh_access_token_if_needed env).
Hypothesis Hget :
  forall url ps s, api_path url -> I s -> I (after_get env url ps s).

Lemma keeps_fetch {A} url ps (treat : Response -> M A) :
  api_path url -> (forall r, stateless (treat r)) ->
  keeps I (fetch env url ps treat).
Proof.
  intros Hu Hst s Hs. rewrite fetch_unfold by exact Hst.
  specialize (Hrefresh s Hs).
  destruct (refresh_access_token_if_needed env s) as [[u|e] s1];
    cbn [snd] in *; [now apply Hget | exact Hrefresh].
Qed.

Lemma keeps_get_activities limit before after ty page :
  keeps I (get_activities env limit before after ty page).
Proof.
  rewrite get_activities_fetch.
  apply keeps_fetch; [now left | apply stateless_treat_activities].
Qed.

Lemma keeps_get_athlete : keeps I (get_athlete env).
Proof.
  rewrite get_athlete_fetch.
  apply keeps_fetch; [right; now left | auto with stateless].
Qed.

Lemma keeps_get_activity_by_id activity_id :
  keeps I (get_activity_by_id env activity_id).
Proof.
  rewrite get_activity_by_id_fetch.
  apply keeps_fetch; [right; right; now exists activity_id
                     | apply stateless_treat_activity].
Qed.

Lemma keeps_by_date_range start_date end_date limit ty :
  keeps I (get_activities_by_date_range env start_date end_date limit ty).
Proof.
  unfold get_activities_by_date_range.
  apply keeps_bind; [apply keeps_stateless; auto with stateless|].
  intros w. apply keeps_get_activities.
Qed.

Lemma keeps_all_pages_loop before after ty :
  forall fuel page acc,
    keeps I (all_pages_loop env fuel before after ty page acc).
Proof.
  induction fuel as [|fuel IH]; intros page acc.
  - apply keeps_stateless. apply stateless_ret.
  - cbn [all_pages_loop].
    apply keeps_bind; [apply keeps_get_activities|].
    intros fetched.
    destruct (negb (py_truthy fetched));
      [apply keeps_stateless; apply stateless_ret|].
    apply keeps_bind.
    { apply keeps_stateless. destruct ty as [t|]; auto with stateless.
      destruct (str_truthy (Some t)); auto with stateless. }
    intros activities.
    apply keeps_bind; [apply keeps_stateless; auto with stateless|].
    intros items.
    apply keeps_bind; [apply keeps_stateless; auto with stateless|].
    intros n. destruct (n <? 100); [|apply IH].
    apply keeps_stateless. apply stateless_ret.
Qed.

Lemma keeps_get_all start_date end_date ty max_pages :
  keeps I (get_all_activities_by_date_range env start_date end_date ty max_pages).
Proof.
  unfold get_all_activities_by_date_range.
  apply keeps_bind; [apply keeps_stateless; auto with stateless|].
  intros w. apply keeps_all_pages_loop.
Qed.

Lemma keeps_get_activity_types : keeps I (get_activity_types env).
Proof.
  unfold get_activity_types.
  apply keeps_bind; [apply keeps_get_activities|].
  intros activities. apply keeps_stateless. auto 6 with stateless.
Qed.

End Keeps.

Lemma refresh_keeps_confined :
  keeps confined (refresh_access_token_if_needed env).
Proof.
  intros s [Hb Hall].
  destruct (refresh_same_identity s) as [_ [_ Hbase]].
  split; [congruence|].
  pose proof (refresh_outcomes env s) as Ho.
  inversion Ho; cbn [snd trace];
    unfold after_post, after_time, log_event; cbn [trace self];
    repeat (apply Forall_app; split); auto;
    repeat constructor.
Qed.

Lemma after_get_keeps_confined url ps s :
  api_path url -> confined s -> confined (after_get env url ps s).
Proof.
  intros Hu [Hb Hall]. split; [exact Hb|].
  unfold after_get, log_event. cbn [trace].
  apply Forall_app. split; [exact Hall|].
  constructor; [|constructor]. cbn [strava_event sent_request get_url].
  destruct Hu as [->|[->|[activity_id ->]]].
  - exists "/athlete/activities". unfold activities_url. now rewrite Hb.
  - exists "/athlete". unfold athlete_url. now rewrite Hb.
  - exists ("/activities/" ++ activity_id)%string. unfold activity_url.
    now rewrite Hb.
Qed.

Lemma with_client_confined {A} (m : M A) srv :
  keeps confined m -> server_confined srv ->
  server_confined (snd (with_client m srv)).
Proof.
  intros Hm [Hall Hc]. unfold with_client.
  destruct (strava_client srv) as [c|] eqn:Hsc; cbn [snd].
  - specialize (Hm {| self := c; trace := network srv |} (conj Hc Hall)).
    destruct (m {| self := c; trace := network srv |}) as [r s'].
    cbn [snd] in *. destruct Hm as [Hb Ht]. split; assumption.
  - split; [exact Hall|]. now rewrite Hsc.
Qed.

Lemma server_step_confined srv srv' :
  server_step env srv srv' -> server_confined srv -> server_confined srv'.
Proof.
  intros Hstep Hinv.
  pose proof refresh_keeps_confined as Hr.
  pose proof (fun url ps s => after_get_keeps_confined url ps s) as Hg.
  destruct Hstep.
  - destruct Hinv as [Hall _]. split; [exact Hall | reflexivity].
  - destruct Hinv as [Hall _]. split; [exact Hall | exact I].
  - destruct Hinv as [Hall Hc]. cbn [test_connection snd]. split; cbn.
    + apply Forall_app. split; [exact Hall | repeat constructor].
    + exact Hc.
  - apply with_client_confined; [now apply keeps_get_activities | exact Hinv].
  - apply with_client_confined; [now apply keeps_by_date_range | exact Hinv].
  - apply with_client_confined; [now apply keeps_get_all | exact Hinv].
  - apply with_client_confined; [now apply keeps_get_activity_types | exact Hinv].
  - apply with_client_confined; [now apply keeps_get_athlete | exact Hinv].
  - apply with_client_confined; [now apply keeps_get_activity_by_id | exact Hinv].
Qed.

(** X11. In every state that the running server can reach, every POST
    sent so far went to the token endpoint
    "https://www.strava.com/oauth/token" and every GET to a URL that
    starts with "https://www.strava.com/api/v3", whatever the
    environment variables hold and whatever the upstream answered. *)
Theorem X11_requests_stay_with_the_provider srv :
  reachable env srv ->
  forall e, In e (network srv) ->
    match e with
    | EvTime _ => True
    | EvPost rq _ => post_url rq = "https://www.strava.com/oauth/token"
    | EvGet rq _ =>
        exists path, get_url rq = ("https://www.strava.com/api/v3" ++ path)%string
    end.
Proof.
  intros Hr.
  assert (Hc : server_confined srv).
  { induction Hr as [|srv srv' Hr IH Hstep].
    - split; [constructor | exact I].
    - eapply server_step_confined; eauto. }
  destruct Hc as [Hall _]. rewrite Forall_forall in Hall.
  intros e He. specialize (Hall e He). destruct e; exact Hall.
Qed.

(** X12. No method of the client assigns [client_id], [client_secret]
    or [base_url]: after any of the six methods, whether it returns or
    raises, the three hold what they held before. *)
Theorem X12_methods_keep_client_identity s :
  (forall limit before after ty page,
     same_identity (self s)
       (self (snd (get_activities env limit before after ty page s)))) /\
  same_identity (self s) (self (snd (get_athlete env s))) /\
  (forall activity_id,
     same_identity (self s) (self (snd (get_activity_by_id env activity_id s)))) /\
  (forall start_date end_date limit ty,
     same_identity (self s)
       (self (snd (get_activities_by_date_range env start_date end_date limit ty s)))) /\
  (forall start_date end_date ty max_pages,
     same_identity (self s)
       (self (snd (get_all_activities_by_date_range env start_date end_date
                     ty max_pages s)))) /\
  same_identity (self s) (self (snd (get_activity_types env s))).
Proof.
  set (I := fun s' : St => same_identity (self s) (self s')).
  assert (Hrefresh : keeps I (refresh_access_token_if_needed env)).
  { intros s0 [H1 [H2 H3]].
    destruct (refresh_same_identity s0) as [H4 [H5 H6]].
    repeat split; congruence. }
  assert (Hget : forall url ps s0, api_path url -> I s0 -> I (after_get env url ps s0)).
  { intros url ps s0 _ H. exact H. }
  assert (H0 : I s) by (repeat split).
  split; [intros; now apply (keeps_get_activities I Hrefresh Hget)|].
  split; [now apply (keeps_get_athlete I Hrefresh Hget)|].
  split; [intros; now apply (keeps_get_activity_by_id I Hrefresh Hget)|].
  split; [intros; now apply (keeps_by_date_range I Hrefresh Hget)|].
  split; [intros; now apply (keeps_get_all I Hrefresh Hget)|].
  now apply (keeps_get_activity_types I Hrefresh Hget).
Qed.

(** *** One call after another *)

Lemma fetch_reuses_tokens {A} url ps (treat : Response -> M A) s1 x :
  (forall r, stateless (treat r)) ->
  token_expires_at (self s1) = VInt x ->
  reuses_tokens env (fetch env url ps treat) s1
    (access_token (self s1)) (refresh_token (self s1)) x.
Proof.
  intros Hst Hx. unfold reuses_tokens. split.
  - intros Hlt. rewrite fetch_unfold by exact Hst.
    rewrite (refresh_fresh env s1 x Hx Hlt).
    exists (sent_request url ps (after_time env s1)),
           (received env url ps (after_time env s1)).
    split; [|reflexivity].
    unfold after_get, after_time, log_event. cbn [trace self].
    now rewrite <- app_assoc.
  - intros Hle. rewrite fetch_unfold by exact Hst.
    pose proof (refresh_outcomes env s1) as Ho.
    assert (Hpost : forall rest,
      exists prq prs rest0,
        trace s1 ++ EvTime (time_time env (trace s1))
          :: EvPost (refresh_request s1) (refresh_response env s1) :: rest =
        trace s1 ++ EvTime (time_time env (trace s1)) :: EvPost prq prs :: rest0 /\
        post_url prq = refresh_url /\
        dict_lookup (post_data prq) "refresh_token" = Some (refresh_token (self s1)) /\
        dict_lookup (post_data prq) "grant_type" = Some (VStr "refresh_token")).
    { intros rest. exists (refresh_request s1), (refresh_response env s1), rest.
      repeat split. }
    inversion Ho as [Hw Heq | ex Hc Hcl Heq | ex Hpm Heq | ex c' Hpm Hr Hx' Heq
                    | c' Hpm Hr Hb Heq]; cbn [snd].
    + exfalso. apply (within_margin_int env s1 x Hx) in Hw.
      eapply Qlt_not_le; eauto.
    + rewrite Hx in Hc. discriminate.
    + unfold after_post, after_time, log_event. cbn [trace self].
      rewrite <- !app_assoc. cbn [app]. apply Hpost.
    + unfold after_post, after_time, log_event. cbn [trace self].
      rewrite <- !app_assoc. cbn [app]. apply Hpost.
    + unfold after_get, after_post, after_time, log_event. cbn [trace self].
      rewrite <- !app_assoc. cbn [app]. apply Hpost.
Qed.

(** X13. After a refresh that went through with the access token [a],
    the refresh token [r] and the integer expiry [x], the next data
    request reuses them: read within the margin of [x], the clock is
    followed by the GET alone, carrying [a]; past that margin, by a
    POST to the token endpoint that presents [r]. *)
Theorem X13_next_request_uses_refreshed_tokens s e data a r x :
  token_expires_at (self s) = VInt e ->
  (inject_Z (e - 300) <= time_time env (trace s))%Q ->
  status_code (refresh_response env s) = 200 ->
  json (refresh_response env s) = Some data ->
  py_getitem data "access_token" = Ok a ->
  py_getitem data "refresh_token" = Ok r ->
  py_getitem data "expires_at" = Ok (VInt x) ->
  let s1 := snd (refresh_access_token_if_needed env s) in
  (forall limit before after ty page,
     reuses_tokens env (get_activities env limit before after ty page) s1 a r x) /\
  reuses_tokens env (get_athlete env) s1 a r x /\
  (forall activity_id,
     reuses_tokens env (get_activity_by_id env activity_id) s1 a r x).
Proof.
  intros He Hle Hst Hj Ha Hr Hx s1.
  assert (Hs1 : s1 = {| self := with_tokens (self s) a r (VInt x);
                        trace := trace (after_post env s) |}).
  { unfold s1.
    now rewrite (refresh_succeeded env s e data a r (VInt x) He Hle Hst Hj Ha Hr Hx). }
  assert (Hx1 : token_expires_at (self s1) = VInt x) by now rewrite Hs1.
  assert (Ha1 : access_token (self s1) = a) by now rewrite Hs1.
  assert (Hr1 : refresh_token (self s1) = r) by now rewrite Hs1.
  rewrite <- Ha1, <- Hr1.
  split; [|split].
  - intros. rewrite get_activities_fetch.
    apply fetch_reuses_tokens; [apply stateless_treat_activities | exact Hx1].
  - rewrite get_athlete_fetch.
    apply fetch_reuses_tokens; [auto with stateless | exact Hx1].
  - intros. rewrite get_activity_by_id_fetch.
    apply fetch_reuses_tokens; [apply stateless_treat_activity | exact Hx1].
Qed.

Lemma py_sub_int_raises v k :
  (forall n, v <> VInt n) -> (forall b, v <> VBool b) ->
  (forall f, v <> VFloat f) ->
  py_sub_int v k = Raise (mkExc TypeError "").
Proof.
  intros Hn Hb Hf. destruct v; try reflexivity.
  - exfalso. now apply (Hb b).
  - exfalso. now apply (Hn n).
  - exfalso. now apply (Hf f).
Qed.

Lemma refresh_type_error s :
  (forall n, token_expires_at (self s) <> VInt n) ->
  (forall b, token_expires_at (self s) <> VBool b) ->
  (forall f, token_expires_at (self s) <> VFloat f) ->
  refresh_access_token_if_needed env s =
    (Raise (mkExc TypeError ""), after_time env s).
Proof.
  intros Hn Hb Hf. unfold refresh_access_token_if_needed. unfold_m. msimpl.
  now rewrite (py_sub_int_raises _ 300 Hn Hb Hf).
Qed.

(** X14. A refresh stores whatever the body holds under ["expires_at"].
    Once the stored expiry is no number (neither an integer, nor a
    boolean, nor a float: [None], a string, a list or a dict), every
    data request reads the clock and raises [TypeError] there: nothing
    is sent and the client is left as it is, so the next request fails
    in the same way. *)
Theorem X14_non_numeric_expiry_blocks_requests s :
  (forall n, token_expires_at (self s) <> VInt n) ->
  (forall b, token_expires_at (self s) <> VBool b) ->
  (forall f, token_expires_at (self s) <> VFloat f) ->
  let stuck := (Raise (mkExc TypeError ""), after_time env s) in
  (forall limit before after ty page,
     get_activities env limit before after ty page s = stuck) /\
  get_athlete env s = stuck /\
  (forall activity_id, get_activity_by_id env activity_id s = stuck) /\
  self (after_time env s) = self s /\
  trace (after_time env s) = trace s ++ [EvTime (time_time env (trace s))].
Proof.
  intros Hn Hb Hf stuck. pose proof (refresh_type_error s Hn Hb Hf) as Hr.
  split; [intros; rewrite get_activities_fetch; now apply fetch_refresh_raises|].
  split; [rewrite get_athlete_fetch; now apply fetch_refresh_raises|].
  split; [intros; rewrite get_activity_by_id_fetch; now apply fetch_refresh_raises|].
  split; reflexivity.
Qed.

(** X15. [get_athlete] never looks at the status: once the token check
    has passed it sends one GET and returns whatever the body decodes
    to, also when the upstream answered with an error status; it
    raises only when the body is not JSON. *)
Theorem X15_get_athlete_returns_any_answer s s1 :
  refresh_access_token_if_needed env s = (Ok tt, s1) ->
  let rs := received env athlete_url [] s1 in
  (forall v, json rs = Some v ->
     get_athlete env s = (Ok v, after_get env athlete_url [] s1)) /\
  (json rs = None ->
     get_athlete env s =
       (Raise (mkExc JSONDecodeError ""), after_get env athlete_url [] s1)).
Proof.
  intros Hr rs. pose proof (get_athlete_ignores_status env s s1 Hr) as H.
  fold rs in H. unfold response_json in H.
  split; [intros v Hv | intros Hv]; rewrite H, Hv; reflexivity.
Qed.

(** *** The order of the bounds *)

Lemma days_in_month_pos y m : 28 <= days_in_month y m <= 31.
Proof.
  unfold days_in_month.
  destruct (m =? 2); [destruct (is_leap y); lia|].
  destruct ((m =? 4) || (m =? 6) || (m =? 9) || (m =? 11)); lia.
Qed.

Lemma days_before_month_aux_mono y n k :
  (n <= k)%nat -> days_before_month_aux y n <= days_before_month_aux y k.
Proof.
  induction 1 as [|k Hle IH]; [lia|].
  cbn [days_before_month_aux].
  pose proof (days_in_month_pos y (Z.of_nat (S k))). lia.
Qed.

Lemma days_before_month_mono y m m' :
  m <= m' -> days_before_month y m <= days_before_month y m'.
Proof.
  intros H. unfold days_before_month. apply days_before_month_aux_mono. lia.
Qed.

Lemma days_before_month_nonneg y m : 0 <= days_before_month y m.
Proof.
  unfold days_before_month.
  apply (days_before_month_aux_mono y 0 (Z.to_nat (m - 1))). lia.
Qed.

Lemma days_before_year_mono y k :
  days_before_year y <= days_before_year (y + Z.of_nat k).
Proof.
  induction k as [|k IH].
  - replace (y + Z.of_nat 0) with y by lia. lia.
  - replace (y + Z.of_nat (S k)) with ((y + Z.of_nat k) + 1) by lia.
    rewrite days_before_year_succ. destruct (is_leap (y + Z.of_nat k)); lia.
Qed.

(** A later date has a larger ordinal. *)
Lemma ymd2ord_mono y m d y' m' d' :
  1 <= m <= 12 -> 1 <= d <= days_in_month y m ->
  1 <= m' <= 12 -> 1 <= d' <= days_in_month y' m' ->
  date_le y m d y' m' d' ->
  ymd2ord y m d <= ymd2ord y' m' d'.
Proof.
  intros Hm Hd Hm' Hd' Hle. unfold ymd2ord.
  destruct Hle as [Hy|[-> [Hlt|[-> Hdd]]]].
  - (* an earlier year *)
    pose proof (days_before_month_succ y m ltac:(lia)) as Hs.
    pose proof (days_before_month_mono y (m + 1) 13 ltac:(lia)) as H13.
    pose proof (days_before_month_succ y 12 ltac:(lia)) as H12.
    rewrite days_before_month_12 in H12.
    change (12 + 1) with 13 in H12. change (days_in_month y 12) with 31 in H12.
    pose proof (days_before_year_succ y) as Hnext.
    pose proof (days_before_year_mono (y + 1) (Z.to_nat (y' - (y + 1)))) as Hmono.
    replace (y + 1 + Z.of_nat (Z.to_nat (y' - (y + 1)))) with y' in Hmono by lia.
    pose proof (days_before_month_nonneg y' m').
    destruct (is_leap y); lia.
  - (* the same year, an earlier month *)
    pose proof (days_before_month_succ y' m ltac:(lia)) as Hs.
    pose proof (days_before_month_mono y' (m + 1) m' ltac:(lia)). lia.
  - lia.
Qed.

(** X16. When both dates parse, the start date is not 0001-01-01 (whose
    timestamp cannot be taken) and not after the end date, and local
    midnight has the same offset from UTC on both, the window handed to
    [get_activities] spans a whole number of days, one more than the
    number of days between the two dates: [after] is strictly below
    [before], by at least 86400 seconds. *)
Theorem X16_ordered_dates_give_a_window_of_whole_days
    start_date end_date y m d y' m' d' :
  strptime_ymd start_date = Ok (y, m, d) ->
  strptime_ymd end_date = Ok (y', m', d') ->
  is_first_day y m d = false ->
  date_le y m d y' m' d' ->
  utcoffset env y m d = utcoffset env y' m' d' ->
  exists after before,
    date_window env start_date end_date = Ok (after, before) /\
    before - after = (ymd2ord y' m' d' - ymd2ord y m d + 1) * 86400 /\
    86400 <= before - after.
Proof.
  intros H1 H2 F1 Hle Ho.
  pose proof (strptime_ymd_valid _ _ _ _ H1) as [Hy [Hm Hd]].
  pose proof (strptime_ymd_valid _ _ _ _ H2) as [_ [Hm' Hd']].
  pose proof (ymd2ord_mono _ _ _ _ _ _ Hm Hd Hm' Hd' Hle) as Hord.
  assert (F2 : is_first_day y' m' d' = false).
  { unfold is_first_day in *.
    destruct (Z.eqb_spec y' 1); [|reflexivity].
    destruct (Z.eqb_spec m' 1); [|reflexivity].
    destruct (Z.eqb_spec d' 1); [|reflexivity].
    exfalso. unfold date_le in Hle.
    destruct (Z.eqb_spec y 1); [|lia].
    destruct (Z.eqb_spec m 1); [|lia].
    destruct (Z.eqb_spec d 1); [discriminate | lia]. }
  exists (local_epoch env y m d), (local_epoch env y' m' d' + 86400).
  split; [now apply date_window_parsed|].
  unfold local_epoch. rewrite Ho. split; lia.
Qed.

(** *** A page that fails *)

Lemma page_fetch_served s before after page p :
  token_service_healthy env -> serves_page env page p -> numeric_expiry s ->
  exists s',
    get_activities env 100 (Some before) (Some after) None page s =
      (Ok (VList p), s') /\
    numeric_expiry s' /\ sends_gets s s' 1.
Proof.
  intros Hh Hs Hn.
  destruct (healthy_refresh env s Hh Hn) as [s1 [Hr [Hn1 Hg1]]].
  set (ps := activity_params 100 (Some before) (Some after) page).
  exists (after_get env activities_url ps s1).
  destruct (Hs (trace s1) (sent_request activities_url ps s1)
              (page_of_activity_params _ _ _ _ _ _)) as [Hst Hj].
  split; [|split].
  - rewrite get_activities_fetch.
    rewrite fetch_unfold by apply stateless_treat_activities.
    rewrite Hr. fold ps. unfold treat_activities, received.
    rewrite Hst. cbn [Z.eqb Pos.eqb negb].
    unfold response_json. rewrite Hj. reflexivity.
  - exact Hn1.
  - replace 1%nat with (0 + 1)%nat by reflexivity.
    apply (sends_gets_trans _ _ _ _ _ Hg1).
    eexists. split; reflexivity.
Qed.

Lemma page_fetch_failed s before after page status body :
  token_service_healthy env -> fails_page env page status body ->
  status <> 200 -> numeric_expiry s ->
  exists s',
    get_activities env 100 (Some before) (Some after) None page s =
      (Raise (mkExc Exception ("Failed to fetch activities: " ++ body)%string), s') /\
    sends_gets s s' 1.
Proof.
  intros Hh Hf Hne Hn.
  destruct (healthy_refresh env s Hh Hn) as [s1 [Hr [Hn1 Hg1]]].
  set (ps := activity_params 100 (Some before) (Some after) page).
  exists (after_get env activities_url ps s1).
  destruct (Hf (trace s1) (sent_request activities_url ps s1)
              (page_of_activity_params _ _ _ _ _ _)) as [Hst Hb].
  split.
  - rewrite get_activities_fetch.
    rewrite fetch_unfold by apply stateless_treat_activities.
    rewrite Hr. fold ps. unfold treat_activities, received.
    rewrite Hst, Hb. apply Z.eqb_neq in Hne. rewrite Hne. reflexivity.
  - replace 1%nat with (0 + 1)%nat by reflexivity.
    apply (sends_gets_trans _ _ _ _ _ Hg1).
    eexists. split; reflexivity.
Qed.

Lemma all_pages_loop_fails pages before after ty status body :
  token_service_healthy env ->
  str_truthy ty = false ->
  status <> 200 ->
  forall n fuel page acc s,
    (n < fuel)%nat ->
    numeric_expiry s ->
    (forall i, (i < n)%nat ->
       serves_page env (page + Z.of_nat i) (pages (page + Z.of_nat i)) /\
       100 <= Z.of_nat (List.length (pages (page + Z.of_nat i)))) ->
    fails_page env (page + Z.of_nat n) status body ->
    exists s',
      all_pages_loop env fuel before after ty page acc s =
        (Raise (mkExc Exception ("Failed to fetch activities: " ++ body)%string), s') /\
      sends_gets s s' (S n).
Proof.
  intros Hh Hty Hne. induction n as [|n IH]; intros fuel page acc s Hf Hn Hfull Hfail.
  - destruct fuel as [|fuel]; [lia|].
    replace (page + Z.of_nat 0) with page in Hfail by lia.
    destruct (page_fetch_failed s before after page status body Hh Hfail Hne Hn)
      as [s' [Hrun Hg]].
    exists s'. split; [|exact Hg].
    cbn [all_pages_loop]. unfold bind at 1. now rewrite Hrun.
  - destruct fuel as [|fuel]; [lia|].
    destruct (Hfull 0%nat ltac:(lia)) as [Hs0 Hl0].
    replace (page + Z.of_nat 0) with page in Hs0, Hl0 by lia.
    destruct (page_fetch_served s before after page (pages page) Hh Hs0 Hn)
      as [s1 [Hrun [Hn1 Hg1]]].
    destruct (IH fuel (page + 1) (acc ++ pages page) s1 ltac:(lia) Hn1)
      as [s' [Hloop Hg']].
    + intros i Hi. specialize (Hfull (S i) ltac:(lia)).
      now replace (page + 1 + Z.of_nat i) with (page + Z.of_nat (S i)) by lia.
    + now replace (page + 1 + Z.of_nat n) with (page + Z.of_nat (S n)) by lia.
    + exists s'. split.
      * cbn [all_pages_loop]. unfold bind at 1. rewrite Hrun.
        destruct (pages page) as [|a0 p0] eqn:Hp; [cbn in Hl0; lia|].
        cbn [py_truthy negb].
        assert (Hact : (match ty with
                        | Some t =>
                            if str_truthy ty
                            then filtered <- lift (filter_by_type (VList (a0 :: p0)) t) ;;
                                 ret (VList filtered)
                            else ret (VList (a0 :: p0))
                        | None => ret (VList (a0 :: p0))
                        end) = ret (VList (a0 :: p0))).
        { destruct ty as [t|]; [now rewrite Hty | reflexivity]. }
        rewrite Hact. unfold bind, ret, lift. cbn [py_iter py_len].
        apply Z.ltb_ge in Hl0. rewrite Hl0. exact Hloop.
      * replace (S (S n)) with (1 + S n)%nat by reflexivity.
        eapply sends_gets_trans; eauto.
Qed.

(** X17. With no type filter, if pages 1 to [n] are served full and the
    request for page [n + 1] is answered with a status other than 200,
    [get_all_activities_by_date_range] raises the fetch exception with
    that answer's body after [n + 1] GET requests: the pages already
    fetched are not returned. *)
Theorem X17_failing_page_discards_fetched_pages
    pages s start_date end_date ty max_pages n status body :
  token_service_healthy env ->
  numeric_expiry s ->
  (exists w, date_window env start_date end_date = Ok w) ->
  str_truthy ty = false ->
  Z.of_nat (S n) <= max_pages ->
  (forall i, (i < n)%nat ->
     serves_page env (1 + Z.of_nat i) (pages (1 + Z.of_nat i)) /\
     100 <= Z.of_nat (List.length (pages (1 + Z.of_nat i)))) ->
  fails_page env (1 + Z.of_nat n) status body ->
  status <> 200 ->
  exists s',
    get_all_activities_by_date_range env start_date end_date ty max_pages s =
      (Raise (mkExc Exception ("Failed to fetch activities: " ++ body)%string), s') /\
    sends_gets s s' (S n).
Proof.
  intros Hh Hn [w Hw] Hty Hmax Hfull Hfail Hne.
  unfold get_all_activities_by_date_range, bind at 1, lift. rewrite Hw.
  apply (all_pages_loop_fails pages (snd w) (fst w) ty status body Hh Hty Hne
           n (Z.to_nat max_pages) 1 [] s); [lia | exact Hn | exact Hfull | exact Hfail].
Qed.

(** *** Dates without a timestamp *)

(** X19. When either date is 0001-01-01, which [strptime] accepts, the
    call of [timestamp] raises [ValueError], and both date-range
    methods raise it before the clock is read or anything is sent. *)
Theorem X19_first_day_of_year_one_has_no_timestamp start_date end_date s :
  strptime_ymd start_date = Ok (1, 1, 1) \/ strptime_ymd end_date = Ok (1, 1, 1) ->
  (forall limit ty,
     get_activities_by_date_range env start_date end_date limit ty s =
       (Raise (mkExc ValueError ""), s)) /\
  (forall ty max_pages,
     get_all_activities_by_date_range env start_date end_date ty max_pages s =
       (Raise (mkExc ValueError ""), s)).
Proof.
  intros H. pose proof (date_window_first_day env _ _ H) as Hw.
  split; intros.
  - unfold get_activities_by_date_range, bind, lift. now rewrite Hw.
  - unfold get_all_activities_by_date_range, bind, lift. now rewrite Hw.
Qed.

(** *** An expiry that is a float *)

(** X20. A stored expiry that is the float not-a-number or plus
    infinity is within the margin at every time: each data request
    reads the clock and sends its GET with the stored token, no refresh
    is sent, and the client is left as it is, so no later request
    refreshes either. *)
Theorem X20_unordered_expiry_never_refreshes s :
  token_expires_at (self s) = VFloat FNaN \/
  token_expires_at (self s) = VFloat (FInf false) ->
  within_margin env s /\
  refresh_access_token_if_needed env s = (Ok tt, after_time env s) /\
  exists rq rs,
    trace (snd (get_athlete env s)) =
      trace s ++ [EvTime (time_time env (trace s)); EvGet rq rs] /\
    authorization rq = access_token (self s) /\
    self (snd (get_athlete env s)) = self s.
Proof.
  intros H.
  assert (Hw : within_margin env s).
  { unfold within_margin. destruct H as [H|H]; rewrite H;
      eexists; (split; [reflexivity|]); reflexivity. }
  split; [exact Hw|].
  pose proof (refresh_within env s Hw) as Hr.
  split; [exact Hr|].
  rewrite get_athlete_fetch. rewrite fetch_unfold by auto with stateless.
  rewrite Hr. cbn [snd].
  exists (sent_request athlete_url [] (after_time env s)),
         (received env athlete_url [] (after_time env s)).
  split; [|split; reflexivity].
  unfold after_get, after_time, log_event. cbn [trace self].
  now rewrite <- app_assoc.
Qed.

End MoreProofs.

(* ================================================================== *)
(** ** The further properties on concrete runs *)

Lemma X1_get_activities_filters_by_type_witness :
  refresh_access_token_if_needed small_world fresh_state =
    (Ok tt, after_time small_world fresh_state) /\
  get_activities small_world 100 None None (Some "Run") 1 fresh_state =
    (Ok (VList [run_activity; run_activity]),
     after_get small_world activities_url (activity_params 100 None None 1)
               (after_time small_world fresh_state)).
Proof.
  assert (H1 : refresh_access_token_if_needed small_world fresh_state =
               (Ok tt, after_time small_world fresh_state)) by reflexivity.
  split; [exact H1|].
  apply (proj1 (X1_get_activities_filters_by_type small_world fresh_state _
                  100 None None 1 (small_pages 1) H1 eq_refl eq_refl) "Run").
  - discriminate.
  - repeat constructor; eexists; reflexivity.
Defined.

Lemma X2_zero_bounds_are_not_sent_witness :
  date_window small_world "1970-01-01" "1970-01-01" = Ok (0, 86400) /\
  exists rq rs,
    trace (snd (get_activities_by_date_range small_world
                  "1970-01-01" "1970-01-01" 100 None fresh_state)) =
      trace (after_time small_world fresh_state) ++ [EvGet rq rs] /\
    param_lookup (params rq) "per_page" = Some 100 /\
    param_lookup (params rq) "page" = Some 1 /\
    param_lookup (params rq) "after" = None /\
    param_lookup (params rq) "before" = Some 86400.
Proof.
  split; [reflexivity|].
  exact (X2_zero_bounds_are_not_sent small_world fresh_state _
           "1970-01-01" "1970-01-01" 100 None 0 86400 eq_refl eq_refl).
Defined.

Lemma X3_bad_date_raises_before_any_call_witness :
  strptime_ymd "2024-02-30" = Raise (mkExc ValueError "") /\
  get_all_activities_by_date_range small_world "2024-02-30" "2024-03-01"
    None 10 fresh_state = (Raise (mkExc ValueError ""), fresh_state).
Proof.
  split; [reflexivity|].
  apply (proj1 (proj2 (X3_bad_date_raises_before_any_call small_world
                         "2024-02-30" "2024-03-01" fresh_state
                         (or_introl (ex_intro _ (mkExc ValueError "") eq_refl))))).
Defined.

Lemma X5_year_tool_window_witness :
  1000 <= 2024 <= 9999 /\
  date_window small_world (str_of_int 2024 ++ "-01-01") (str_of_int 2024 ++ "-12-31") =
    Ok (1704067200, 1735689600).
Proof.
  assert (H : 1000 <= 2024 <= 9999) by lia.
  split; [exact H|].
  exact (proj1 (proj1 (X5_year_tool_window small_world 2024 None fresh_client [])
                  H eq_refl)).
Defined.

Lemma X6_max_pages_caps_requests_witness :
  0 <= 0 /\
  get_all_activities_by_date_range small_world "2024-01-01" "2024-12-31"
    None 0 fresh_state = (Ok [], fresh_state).
Proof.
  split; [lia|].
  apply (proj2 (X6_max_pages_caps_requests small_world
                  "2024-01-01" "2024-12-31" None 0 fresh_state)).
  - lia.
  - eexists. reflexivity.
Defined.

Lemma four_pages_full i :
  (i < 3)%nat -> 100 <= Z.of_nat (List.length (four_pages (1 + Z.of_nat i))).
Proof.
  intros Hi. destruct i as [|[|[|i]]]; [vm_compute; discriminate ..|lia].
Defined.

Lemma X7_unfiltered_paging_stops_at_short_page_witness :
  token_service_healthy four_pages_world /\
  serves_pages four_pages_world four_pages /\
  Z.of_nat (List.length (four_pages (1 + Z.of_nat 3))) < 100 /\
  exists s',
    get_all_activities_by_date_range four_pages_world
      "2024-01-01" "2024-12-31" None 10 fresh_state =
      (Ok (pages_from four_pages 1 4), s') /\
    sends_gets fresh_state s' 4.
Proof.
  assert (Hh : token_service_healthy four_pages_world)
    by apply simple_world_healthy.
  assert (Hs : serves_pages four_pages_world four_pages)
    by apply api_pages_serves.
  assert (Hshort : Z.of_nat (List.length (four_pages (1 + Z.of_nat 3))) < 100)
    by (vm_compute; reflexivity).
  split; [exact Hh|]. split; [exact Hs|]. split; [exact Hshort|].
  apply (X7_unfiltered_paging_stops_at_short_page four_pages_world four_pages
           fresh_state "2024-01-01" "2024-12-31" None 10 3 Hh Hs).
  - exists 10000. reflexivity.
  - eexists. reflexivity.
  - reflexivity.
  - lia.
  - exact four_pages_full.
  - exact Hshort.
Defined.

Lemma X8_unfiltered_paging_truncates_at_cap_witness :
  token_service_healthy four_pages_world /\
  serves_pages four_pages_world four_pages /\
  exists s',
    get_all_activities_by_date_range four_pages_world
      "2024-01-01" "2024-12-31" None 2 fresh_state =
      (Ok (pages_from four_pages 1 2), s') /\
    sends_gets fresh_state s' 2.
Proof.
  assert (Hh : token_service_healthy four_pages_world)
    by apply simple_world_healthy.
  assert (Hs : serves_pages four_pages_world four_pages)
    by apply api_pages_serves.
  split; [exact Hh|]. split; [exact Hs|].
  apply (X8_unfiltered_paging_truncates_at_cap four_pages_world four_pages
           fresh_state "2024-01-01" "2024-12-31" None 2 Hh Hs).
  - exists 10000. reflexivity.
  - eexists. reflexivity.
  - reflexivity.
  - intros i Hi. apply four_pages_full.
    change (Z.to_nat 2) with 2%nat in Hi. lia.
Defined.

Lemma X9_filtered_paging_returns_only_the_type_witness :
  get_all_activities_by_date_range small_world "2024-01-01" "2024-12-31"
    (Some "Run") 10 fresh_state =
    (Ok [run_activity; run_activity],
     snd (get_all_activities_by_date_range small_world "2024-01-01" "2024-12-31"
            (Some "Run") 10 fresh_state)) /\
  Forall (fun a => exists x, py_get a "type" = Ok (VStr x) /\ x = "Run")
         [run_activity; run_activity].
Proof.
  assert (H : get_all_activities_by_date_range small_world "2024-01-01" "2024-12-31"
                (Some "Run") 10 fresh_state =
              (Ok [run_activity; run_activity],
               snd (get_all_activities_by_date_range small_world
                      "2024-01-01" "2024-12-31" (Some "Run") 10 fresh_state)))
    by reflexivity.
  split; [exact H|].
  assert (Hne : "Run" <> "") by discriminate.
  exact (X9_filtered_paging_returns_only_the_type small_world
           "2024-01-01" "2024-12-31" "Run" 10 fresh_state _ _ Hne H).
Defined.

Lemma X10_pages_are_requested_in_order_witness :
  date_window four_pages_world "2024-01-01" "2024-12-31" =
    Ok (1704067200, 1735689600) /\
  exists evs n,
    trace (snd (get_all_activities_by_date_range four_pages_world
                  "2024-01-01" "2024-12-31" None 10 fresh_state)) =
      trace fresh_state ++ evs /\
    (n <= Z.to_nat 10)%nat /\
    map params (get_requests evs) =
      map (activity_params 100 (Some 1735689600) (Some 1704067200))
          (page_numbers 1 n).
Proof.
  split; [reflexivity|].
  exact (X10_pages_are_requested_in_order four_pages_world
           "2024-01-01" "2024-12-31" None 10 fresh_state
           1704067200 1735689600 eq_refl).
Defined.

Lemma X11_requests_stay_with_the_provider_witness :
  reachable granted_world
    (snd (get_athlete_profile granted_world
            (app_lifespan_enter granted_world server_start))) /\
  forall e,
    In e (network (snd (get_athlete_profile granted_world
                          (app_lifespan_enter granted_world server_start)))) ->
    match e with
    | EvTime _ => True
    | EvPost rq _ => post_url rq = "https://www.strava.com/oauth/token"
    | EvGet rq _ =>
        exists path, get_url rq = ("https://www.strava.com/api/v3" ++ path)%string
    end.
Proof.
  assert (Hr : reachable granted_world
                 (snd (get_athlete_profile granted_world
                         (app_lifespan_enter granted_world server_start)))).
  { eapply reach_step; [eapply reach_step; [apply reach_start | apply step_enter]|].
    apply step_profile. }
  split; [exact Hr|].
  exact (X11_requests_stay_with_the_provider granted_world _ Hr).
Defined.

Lemma X13_next_request_uses_refreshed_tokens_witness :
  token_expires_at (self demo_state) = VInt 0 /\
  (inject_Z (0 - 300) <= time_time granted_world (trace demo_state))%Q /\
  status_code (refresh_response granted_world demo_state) = 200 /\
  reuses_tokens granted_world (get_athlete granted_world)
    (snd (refresh_access_token_if_needed granted_world demo_state))
    (VStr "new-access") (VStr "new-refresh") 99999.
Proof.
  assert (H1 : token_expires_at (self demo_state) = VInt 0) by reflexivity.
  assert (H2 : (inject_Z (0 - 300) <= time_time granted_world (trace demo_state))%Q)
    by (vm_compute; discriminate).
  split; [exact H1|]. split; [exact H2|]. split; [reflexivity|].
  exact (proj1 (proj2
    (X13_next_request_uses_refreshed_tokens granted_world demo_state 0 _ _ _ _
       H1 H2 eq_refl eq_refl eq_refl eq_refl eq_refl))).
Defined.

Lemma X14_non_numeric_expiry_blocks_requests_witness :
  (forall n, token_expires_at (self odd_expiry_state) <> VInt n) /\
  (forall b, token_expires_at (self odd_expiry_state) <> VBool b) /\
  (forall f, token_expires_at (self odd_expiry_state) <> VFloat f) /\
  get_athlete granted_world odd_expiry_state =
    (Raise (mkExc TypeError ""), after_time granted_world odd_expiry_state).
Proof.
  assert (H1 : forall n, token_expires_at (self odd_expiry_state) <> VInt n)
    by (intros n; discriminate).
  assert (H2 : forall b, token_expires_at (self odd_expiry_state) <> VBool b)
    by (intros b; discriminate).
  assert (H3 : forall f, token_expires_at (self odd_expiry_state) <> VFloat f)
    by (intros f; discriminate).
  split; [exact H1|]. split; [exact H2|]. split; [exact H3|].
  exact (proj1 (proj2
    (X14_non_numeric_expiry_blocks_requests granted_world odd_expiry_state
       H1 H2 H3))).
Defined.

Lemma X15_get_athlete_returns_any_answer_witness :
  refresh_access_token_if_needed (failing_world 401) fresh_state =
    (Ok tt, after_time (failing_world 401) fresh_state) /\
  status_code (received (failing_world 401) athlete_url []
                 (after_time (failing_world 401) fresh_state)) = 401 /\
  get_athlete (failing_world 401) fresh_state =
    (Ok (VDict [("message", VStr "Authorization Error")]),
     after_get (failing_world 401) athlete_url []
               (after_time (failing_world 401) fresh_state)).
Proof.
  assert (H1 : refresh_access_token_if_needed (failing_world 401) fresh_state =
               (Ok tt, after_time (failing_world 401) fresh_state)) by reflexivity.
  split; [exact H1|]. split; [reflexivity|].
  exact (proj1 (X15_get_athlete_returns_any_answer (failing_world 401)
                  fresh_state _ H1) _ eq_refl).
Defined.

Lemma X16_ordered_dates_give_a_window_of_whole_days_witness :
  is_first_day 2024 1 1 = false /\
  date_le 2024 1 1 2024 1 31 /\
  exists after before,
    date_window small_world "2024-01-01" "2024-01-31" = Ok (after, before) /\
    before - after = (ymd2ord 2024 1 31 - ymd2ord 2024 1 1 + 1) * 86400 /\
    86400 <= before - after.
Proof.
  assert (H : date_le 2024 1 1 2024 1 31).
  { right. split; [reflexivity|]. right. split; [reflexivity | lia]. }
  split; [reflexivity|]. split; [exact H|].
  exact (X16_ordered_dates_give_a_window_of_whole_days small_world
           "2024-01-01" "2024-01-31" 2024 1 1 2024 1 31 eq_refl eq_refl
           eq_refl H eq_refl).
Defined.

Lemma flaky_world_serves_first :
  serves_page flaky_world 1 (repeat run_activity 100).
Proof.
  intros tr rq Hk. cbn. unfold flaky_api. rewrite Hk. split; reflexivity.
Defined.

Lemma flaky_world_fails_second :
  fails_page flaky_world 2 500 "server error".
Proof.
  intros tr rq Hk. cbn. unfold flaky_api. rewrite Hk. split; reflexivity.
Defined.

Lemma X17_failing_page_discards_fetched_pages_witness :
  token_service_healthy flaky_world /\
  serves_page flaky_world 1 (repeat run_activity 100) /\
  fails_page flaky_world 2 500 "server error" /\
  exists s',
    get_all_activities_by_date_range flaky_world "2024-01-01" "2024-12-31"
      None 10 fresh_state =
      (Raise (mkExc Exception "Failed to fetch activities: server error"), s') /\
    sends_gets fresh_state s' 2.
Proof.
  assert (Hh : token_service_healthy flaky_world) by apply simple_world_healthy.
  split; [exact Hh|].
  split; [exact flaky_world_serves_first|].
  split; [exact flaky_world_fails_second|].
  apply (X17_failing_page_discards_fetched_pages flaky_world
           (fun _ => repeat run_activity 100) fresh_state
           "2024-01-01" "2024-12-31" None 10 1 500 "server error" Hh).
  - exists 10000. reflexivity.
  - eexists. reflexivity.
  - reflexivity.
  - lia.
  - intros i Hi. assert (i = 0%nat) by lia. subst i. split.
    + exact flaky_world_serves_first.
    + vm_compute. discriminate.
  - exact flaky_world_fails_second.
  - discriminate.
Defined.


Lemma X19_first_day_of_year_one_has_no_timestamp_witness :
  strptime_ymd "0001-01-01" = Ok (1, 1, 1) /\
  get_all_activities_by_date_range utc_world "0001-01-01" "2024-01-01" None 10
    fresh_state = (Raise (mkExc ValueError ""), fresh_state).
Proof.
  assert (H : strptime_ymd "0001-01-01" = Ok (1, 1, 1)) by reflexivity.
  split; [exact H|].
  exact (proj2 (X19_first_day_of_year_one_has_no_timestamp utc_world
                  "0001-01-01" "2024-01-01" fresh_state (or_introl H)) None 10).
Defined.

Lemma X20_unordered_expiry_never_refreshes_witness :
  token_expires_at (self nan_expiry_state) = VFloat FNaN /\
  refresh_access_token_if_needed (simple_world 5000000000 token_ok api_empty)
    nan_expiry_state =
    (Ok tt, after_time (simple_world 5000000000 token_ok api_empty)
              nan_expiry_state).
Proof.
  split; [reflexivity|].
  exact (proj1 (proj2
    (X20_unordered_expiry_never_refreshes
       (simple_world 5000000000 token_ok api_empty) nan_expiry_state
       (or_introl eq_refl)))).
Defined.

(** X21. A stored expiry that is a float is tested by its value, as an
    integer is: with the expiry 1.7e9 a request at second 1000 sends
    the GET alone with the stored token; one second before the margin
    it still does; at second 1699999700, which is the expiry minus 300,
    the refresh POST is sent first. *)
Theorem X21_float_expiry_is_compared_by_value :
  py_sub_int (token_expires_at (self float_expiry_state)) 300 =
    Ok (NFloat (S754_finite false 7130315541708800 (-22))) /\
  xq_eqb (spec_value (S754_finite false 7130315541708800 (-22)))
         (XFin (inject_Z 1699999700)) = true /\
  (exists rq rs,
     trace (snd (get_athlete granted_world float_expiry_state)) =
       [EvTime 1000; EvGet rq rs] /\
     authorization rq = VStr "some-access") /\
  (exists rq rs,
     trace (snd (get_athlete (simple_world 1699999699 token_ok api_empty)
                   float_expiry_state)) =
       [EvTime 1699999699; EvGet rq rs] /\
     authorization rq = VStr "some-access") /\
  (exists prq prs rq rs,
     trace (snd (get_athlete (simple_world 1699999700 token_ok api_empty)
                   float_expiry_state)) =
       [EvTime 1699999700; EvPost prq prs; EvGet rq rs] /\
     authorization rq = VStr "new-access").
Proof.
  split; [vm_compute; reflexivity|].
  split; [vm_compute; reflexivity|].
  split; [|split]; repeat eexists; vm_compute; reflexivity.
Qed.
